(** * Task manager gRPC service: record store, subscription registry, RPC handlers

    A shallow embedding of the TypeScript sources

    - [utils/dataStore]  (class [DataStore]: tasks, listing, subscriptions),
    - [services/TaskService] (class [TaskServiceImpl]: the unary and
      streaming handlers),
    - [middleware/auth] ([extractTokenFromMetadata], [authenticateCall],
      [AuthService.verifyToken]),

    followed by the properties of the subscription and broadcast engine.

    Conventions of the embedding.
    - A JavaScript [Map] or [Set] iterates in insertion order, and the
      code depends on that order (delivery order, order of ties in a
      listing), so both are association lists / lists kept in insertion
      order, with the update-in-place behaviour of [Map.set] written out.
    - [Date] values are their [getTime()] milliseconds, in [Z].
    - Request numbers are integers in [Z]; the products and sums formed
      from them only feed [Array.prototype.slice], which clamps them.
    - An optional or possibly missing property is an [option].
    - The libraries the code calls but does not define ([uuid], the
      system clock, [jsonwebtoken]) are collected in a [Platform].
    - Exceptions are explicit: a computation returns or throws.
    - Output of [logger] is not part of the model. *)

From Stdlib Require Import List String Ascii ZArith Lia Bool Arith DecimalString.
From Stdlib Require Import Sorted Permutation.
Import ListNotations.
Local Open Scope string_scope.

(* ================================================================== *)
(** ** JavaScript string and array primitives used by the code *)
(* ================================================================== *)

Module Js.

(** [s.includes(c)] for a one-character needle. *)
Fixpoint includes_char (c : ascii) (s : string) : bool :=
  match s with
  | EmptyString => false
  | String a s' => Ascii.eqb a c || includes_char c s'
  end.

(** [s.split(sep)] for a one-character separator: never empty,
    [''.split(sep)] is [['']]. *)
Fixpoint split (sep : ascii) (s : string) : list string :=
  match s with
  | EmptyString => [EmptyString]
  | String a s' =>
      if Ascii.eqb a sep then EmptyString :: split sep s'
      else match split sep s' with
           | [] => [String a EmptyString]
           | h :: t => String a h :: t
           end
  end.

(** [l.join(sep)] on an array of strings. *)
Fixpoint join (sep : string) (l : list string) : string :=
  match l with
  | [] => EmptyString
  | x :: l' =>
      match l' with
      | [] => x
      | _ :: _ => x ++ sep ++ join sep l'
      end
  end.

(** [l.includes(x)] on an array of strings. *)
Definition array_includes (l : list string) (x : string) : bool :=
  existsb (String.eqb x) l.

(** Truthiness of a string: every string but [''] is truthy. *)
Definition truthy (s : string) : bool :=
  match s with
  | EmptyString => false
  | String _ _ => true
  end.

(** [s.startsWith(p)]. *)
Definition startsWith (p s : string) : bool := String.prefix p s.

(** [s.substring(n)]. *)
Definition substring (n : nat) (s : string) : string :=
  String.substring n (String.length s - n) s.

(** [l.slice(start, stop)]: a negative index counts from the end, and
    both indices are clamped to [0 .. l.length]. *)
Definition slice {A : Type} (l : list A) (start stop : Z) : list A :=
  let len := Z.of_nat (List.length l) in
  let k := if (start <? 0)%Z then Z.max (len + start) 0 else Z.min start len in
  let final := if (stop <? 0)%Z then Z.max (len + stop) 0 else Z.min stop len in
  firstn (Z.to_nat (final - k)) (skipn (Z.to_nat k) l).

(** [s || d] on a possibly missing string. *)
Definition str_or (o : option string) (d : string) : string :=
  match o with
  | Some s => if truthy s then s else d
  | None => d
  end.

(** [n || d] on a possibly missing integer: [0] and [undefined] are
    falsy. *)
Definition num_or (o : option Z) (d : Z) : Z :=
  match o with
  | Some 0%Z => d
  | Some n => n
  | None => d
  end.

End Js.

(* ================================================================== *)
(** ** Insertion-ordered [Map<string, V>] *)
(* ================================================================== *)

Module JsMap.
Section WithValue.
Context {V : Type}.

(** [m.get(k)]. *)
Fixpoint get (k : string) (m : list (string * V)) : option V :=
  match m with
  | [] => None
  | (k', v) :: m' => if String.eqb k k' then Some v else get k m'
  end.

(** [m.has(k)]. *)
Definition has (k : string) (m : list (string * V)) : bool :=
  match get k m with
  | Some _ => true
  | None => false
  end.

(** [m.set(k, v)]: an existing key keeps its place, a new key goes
    last. *)
Fixpoint set (k : string) (v : V) (m : list (string * V)) : list (string * V) :=
  match m with
  | [] => [(k, v)]
  | (k', v') :: m' =>
      if String.eqb k k' then (k, v) :: m' else (k', v') :: set k v m'
  end.

(** [m.delete(k)]. *)
Fixpoint delete (k : string) (m : list (string * V)) : list (string * V) :=
  match m with
  | [] => []
  | (k', v') :: m' =>
      if String.eqb k k' then m' else (k', v') :: delete k m'
  end.

(** [Array.from(m.values())]. *)
Definition values (m : list (string * V)) : list V := map snd m.

(** [Array.from(m.keys())]. *)
Definition keys (m : list (string * V)) : list string := map fst m.

(** The representation invariant of a [Map]: one entry per key. *)
Definition wf (m : list (string * V)) : Prop := NoDup (keys m).

End WithValue.
End JsMap.

(* ================================================================== *)
(** ** The generated interfaces ([types/index.ts]) *)
(* ================================================================== *)

Inductive TaskStatus := PENDING | IN_PROGRESS | COMPLETED | CANCELLED.

Inductive TaskPriority := LOW | MEDIUM | HIGH | URGENT.

Definition TaskStatus_eqb (a b : TaskStatus) : bool :=
  match a, b with
  | PENDING, PENDING | IN_PROGRESS, IN_PROGRESS
  | COMPLETED, COMPLETED | CANCELLED, CANCELLED => true
  | _, _ => false
  end.

Definition TaskPriority_eqb (a b : TaskPriority) : bool :=
  match a, b with
  | LOW, LOW | MEDIUM, MEDIUM | HIGH, HIGH | URGENT, URGENT => true
  | _, _ => false
  end.

Record Task := mkTask {
  id : string;
  title : string;
  description : string;
  status : TaskStatus;
  priority : TaskPriority;
  assignee_id : string;
  created_at : Z;
  updated_at : Z;
  due_date : option Z;
  tags : list string
}.

(** [CreateTaskRequest]; the handler tests every property for
    falsiness, so each may be missing. *)
Record CreateTaskRequest := mkCreateTaskRequest {
  cr_title : option string;
  cr_description : option string;
  cr_priority : option TaskPriority;
  cr_assignee_id : option string;
  cr_due_date : option Z;
  cr_tags : option (list string)
}.

Record GetTaskRequest := mkGetTaskRequest {
  gr_id : string
}.

Record DeleteTaskRequest := mkDeleteTaskRequest {
  dr_id : string
}.

Record UpdateTaskRequest := mkUpdateTaskRequest {
  ur_id : string;
  ur_title : option string;
  ur_description : option string;
  ur_status : option TaskStatus;
  ur_priority : option TaskPriority;
  ur_assignee_id : option string;
  ur_due_date : option Z;
  ur_tags : option (list string)
}.

Record ListTasksRequest := mkListTasksRequest {
  lr_page : option Z;
  lr_page_size : option Z;
  lr_status_filter : option TaskStatus;
  lr_priority_filter : option TaskPriority;
  lr_assignee_filter : option string
}.

Record ListTasksResponse := mkListTasksResponse {
  resp_tasks : list Task;
  resp_total_count : nat;
  resp_page : Z;
  resp_page_size : Z
}.

Inductive UpdateType := CREATED | UPDATED | DELETED.

Record TaskUpdate := mkTaskUpdate {
  type : UpdateType;
  task : Task;
  timestamp : Z
}.

Record SubscribeTaskUpdatesRequest := mkSubscribeTaskUpdatesRequest {
  sr_user_id : string;
  sr_task_ids : option (list string)
}.

Record JWTPayload := mkJWTPayload {
  user_id : string;
  username : string;
  iat : Z;
  exp : Z
}.

(** The argument of [DataStore.createTask]:
    [Omit<Task, 'id' | 'created_at' | 'updated_at'>]. *)
Record TaskData := mkTaskData {
  d_title : string;
  d_description : string;
  d_status : TaskStatus;
  d_priority : TaskPriority;
  d_assignee_id : string;
  d_due_date : option Z;
  d_tags : list string
}.

(** The argument of [DataStore.updateTask]:
    [Partial<Omit<Task, 'id' | 'created_at'>>]; [None] is a property
    that is not present. *)
Record TaskUpdates := mkTaskUpdates {
  upd_title : option string;
  upd_description : option string;
  upd_status : option TaskStatus;
  upd_priority : option TaskPriority;
  upd_assignee_id : option string;
  upd_updated_at : option Z;
  upd_due_date : option Z;
  upd_tags : option (list string)
}.

(** The filter object handed to [DataStore.listTasks]. *)
Record ListFilter := mkListFilter {
  f_page : Z;
  f_page_size : Z;
  f_status_filter : option TaskStatus;
  f_priority_filter : option TaskPriority;
  f_assignee_filter : option string
}.

(* ================================================================== *)
(** ** Runtime: callbacks, calls, the world, exceptions *)
(* ================================================================== *)

(** The functions registered as subscribers. A JavaScript [Set] compares
    functions by reference, so each is named by the call it belongs to.
    - [SessionSink c] is the closure built by [SubscribeTaskUpdates]:
      [(update) => { try { call.write(update) } catch (error) { log } }].
    - [RawSink c] is a callback handed to the store directly that writes
      to its stream without a guard, so a failing write escapes it. *)
Inductive callback :=
| SessionSink (call : nat)
| RawSink (call : nat).

Definition callback_eqb (a b : callback) : bool :=
  match a, b with
  | SessionSink x, SessionSink y => Nat.eqb x y
  | RawSink x, RawSink y => Nat.eqb x y
  | _, _ => false
  end.

(** Insertion-ordered [Set] of callbacks. *)
Module JsSet.

Definition has (x : callback) (s : list callback) : bool :=
  existsb (callback_eqb x) s.

(** [s.add(x)]: no effect when [x] is already a member. *)
Definition add (x : callback) (s : list callback) : list callback :=
  if has x s then s else s ++ [x].

(** [s.delete(x)]. *)
Definition delete (x : callback) (s : list callback) : list callback :=
  filter (fun y => negb (callback_eqb x y)) s.

(** [s.size]. *)
Definition size (s : list callback) : nat := List.length s.

End JsSet.

(** class [DataStore]: the task map and the subscriber map (the user
    map plays no part in the task and subscription operations). *)
Record DataStore := mkDataStore {
  tasks : list (string * Task);
  taskUpdateSubscribers : list (string * list callback)
}.

(** The gRPC status codes the handlers use. *)
Inductive StatusCode := INVALID_ARGUMENT | NOT_FOUND | UNAUTHENTICATED | INTERNAL.

Record ServiceError := mkServiceError {
  code : StatusCode;
  message : string
}.

(** What a unary handler passes to its [callback]: [callback(error)] or
    [callback(null, value)]. *)
Inductive reply (A : Type) :=
| Ok (value : A)
| Err (error : ServiceError).
Arguments Ok {A} value.
Arguments Err {A} error.

(** A call object: its identity, its metadata (header name to values,
    as [Metadata.get] reads it) and its request message. *)
Record Call (R : Type) := mkCall {
  call_id : nat;
  metadata : list (string * list string);
  request : R
}.
Arguments mkCall {R} call_id metadata request.
Arguments call_id {R} c.
Arguments metadata {R} c.
Arguments request {R} c.

(** The events a handler listens to on a streaming call. *)
Inductive CallEvent := ev_cancelled | ev_error.

Definition CallEvent_eqb (a b : CallEvent) : bool :=
  match a, b with
  | ev_cancelled, ev_cancelled | ev_error, ev_error => true
  | _, _ => false
  end.

(** The state every handler runs in.
    - [wire]: the messages written to streams, oldest first, each with
      the call it was written to.
    - [broken]: the calls whose [write] raises.
    - [listeners]: the [call.on] registrations; every listener the code
      registers is an unsubscribe closure, named by the key and callback
      it captured.
    - [ended]: the calls the transport ended with an error status (its
      answer to an emitted ['error']). *)
Record World := mkWorld {
  dataStore : DataStore;
  uuid_draws : nat;
  clock_reads : nat;
  wire : list (nat * TaskUpdate);
  broken : list nat;
  listeners : list (nat * CallEvent * (string * callback));
  ended : list (nat * ServiceError)
}.

Definition with_dataStore (s : DataStore) (w : World) : World :=
  mkWorld s (uuid_draws w) (clock_reads w) (wire w) (broken w) (listeners w) (ended w).

Definition with_tasks (t : list (string * Task)) (w : World) : World :=
  with_dataStore (mkDataStore t (taskUpdateSubscribers (dataStore w))) w.

Definition with_subscribers (r : list (string * list callback)) (w : World) : World :=
  with_dataStore (mkDataStore (tasks (dataStore w)) r) w.

(** The libraries the code calls: the [n]-th identifier [uuidv4()]
    returns, the [n]-th reading of the clock by [new Date()], and
    [jwt.verify(token, JWT_SECRET)] ([None] when it throws). *)
Record Platform := mkPlatform {
  uuidv4 : nat -> string;
  clock : nat -> Z;
  jwt_verify : string -> option JWTPayload
}.

Inductive exn :=
| WriteError (call : nat).

Inductive outcome (A : Type) :=
| Returned (a : A)
| Thrown (e : exn).
Arguments Returned {A} a.
Arguments Thrown {A} e.

(** Computations over the world that return or throw. *)
Definition M (A : Type) : Type := World -> outcome A * World.

Definition ret {A : Type} (a : A) : M A := fun w => (Returned a, w).

Definition bind {A B : Type} (c : M A) (k : A -> M B) : M B :=
  fun w =>
    match c w with
    | (Returned a, w') => k a w'
    | (Thrown e, w') => (Thrown e, w')
    end.

Definition throw {A : Type} (e : exn) : M A := fun w => (Thrown e, w).

(** [try { c } catch (e) { h e }]. *)
Definition try_catch {A : Type} (c : M A) (h : exn -> M A) : M A :=
  fun w =>
    match c w with
    | (Returned a, w') => (Returned a, w')
    | (Thrown e, w') => h e w'
    end.

Definition gets {A : Type} (f : World -> A) : M A := fun w => (Returned (f w), w).

Definition modify (f : World -> World) : M unit := fun w => (Returned tt, f w).

Declare Scope js_scope.
Delimit Scope js_scope with js.
Notation "x <- c ;; k" := (bind c (fun x => k))
  (at level 61, c at next level, right associativity) : js_scope.
Notation "c ;; k" := (bind c (fun _ => k))
  (at level 61, right associativity) : js_scope.
Local Open Scope js_scope.

(** [l.forEach(f)] / [for (const x of l) f(x)]: a throw ends the loop. *)
Fixpoint for_each {A : Type} (f : A -> M unit) (l : list A) : M unit :=
  match l with
  | [] => ret tt
  | x :: l' => f x ;; for_each f l'
  end.

(** [new Date()]. *)
Definition new_Date (P : Platform) : M Z :=
  fun w =>
    (Returned (clock P (clock_reads w)),
     mkWorld (dataStore w) (uuid_draws w) (S (clock_reads w)) (wire w)
             (broken w) (listeners w) (ended w)).

(** [uuidv4()]. *)
Definition draw_uuid (P : Platform) : M string :=
  fun w =>
    (Returned (uuidv4 P (uuid_draws w)),
     mkWorld (dataStore w) (S (uuid_draws w)) (clock_reads w) (wire w)
             (broken w) (listeners w) (ended w)).

(** Whether [write] raises on the stream of call [c]. *)
Definition is_broken (bs : list nat) (c : nat) : bool := existsb (Nat.eqb c) bs.

(** [call.write(update)] on the stream of call [c]. *)
Definition stream_write (c : nat) (update : TaskUpdate) : M unit :=
  fun w =>
    if is_broken (broken w) c then (Thrown (WriteError c), w)
    else (Returned tt,
          mkWorld (dataStore w) (uuid_draws w) (clock_reads w)
                  (wire w ++ [(c, update)]) (broken w) (listeners w) (ended w)).

(** Calling a registered callback with an update. *)
Definition invoke (cb : callback) (update : TaskUpdate) : M unit :=
  match cb with
  | SessionSink c => try_catch (stream_write c update) (fun _ => ret tt)
  | RawSink c => stream_write c update
  end.

(* ================================================================== *)
(** ** class [DataStore] *)
(* ================================================================== *)

(** The test [notifyTaskUpdate] applies to a subscriber key:
    a key without [':'] is a general subscription; otherwise the second
    [':']-separated piece is the comma-separated list of task ids. *)
Definition key_matches (key : string) (task_id : string) : bool :=
  if negb (Js.includes_char ":" key) then true
  else
    match nth_error (Js.split ":" key) 1 with
    | Some taskIds =>
        Js.truthy taskIds && Js.array_includes (Js.split "," taskIds) task_id
    | None => false
    end.

(** [notifyTaskUpdate(type, task)]. *)
Definition notifyTaskUpdate (P : Platform) (ty : UpdateType) (t : Task) : M unit :=
  now <- new_Date P ;;
  let update := mkTaskUpdate ty t now in
  entries <- gets (fun w => taskUpdateSubscribers (dataStore w)) ;;
  for_each
    (fun entry : string * list callback =>
       let (key, subscribers) := entry in
       if negb (Js.includes_char ":" key) then
         for_each (fun cb => invoke cb update) subscribers
       else
         match nth_error (Js.split ":" key) 1 with
         | Some taskIds =>
             if Js.truthy taskIds && Js.array_includes (Js.split "," taskIds) (id t)
             then for_each (fun cb => invoke cb update) subscribers
             else ret tt
         | None => ret tt
         end)
    entries.

(** [createTask(data)]. *)
Definition createTask (P : Platform) (data : TaskData) : M Task :=
  i <- draw_uuid P ;;
  c <- new_Date P ;;
  u <- new_Date P ;;
  let t :=
    mkTask i (d_title data) (d_description data) (d_status data)
           (d_priority data) (d_assignee_id data) c u (d_due_date data)
           (d_tags data) in
  modify (fun w => with_tasks (JsMap.set (id t) t (tasks (dataStore w))) w) ;;
  notifyTaskUpdate P CREATED t ;;
  ret t.

(** [getTask(id)]. *)
Definition getTask (i : string) (s : DataStore) : option Task :=
  JsMap.get i (tasks s).

Definition or_else {A : Type} (o : option A) (d : A) : A :=
  match o with
  | Some a => a
  | None => d
  end.

(** The object literal of [updateTask]:
    [{ ...task, ...updates, id: task.id, created_at: task.created_at,
       updated_at: now }]. *)
Definition merge (t : Task) (updates : TaskUpdates) (now : Z) : Task :=
  mkTask (id t)
         (or_else (upd_title updates) (title t))
         (or_else (upd_description updates) (description t))
         (or_else (upd_status updates) (status t))
         (or_else (upd_priority updates) (priority t))
         (or_else (upd_assignee_id updates) (assignee_id t))
         (created_at t)
         now
         (match upd_due_date updates with
          | Some d => Some d
          | None => due_date t
          end)
         (or_else (upd_tags updates) (tags t)).

(** [updateTask(id, updates)]; [None] is [undefined]. *)
Definition updateTask (P : Platform) (i : string) (updates : TaskUpdates)
  : M (option Task) :=
  found <- gets (fun w => JsMap.get i (tasks (dataStore w))) ;;
  match found with
  | None => ret None
  | Some t =>
      now <- new_Date P ;;
      let updatedTask := merge t updates now in
      modify (fun w => with_tasks (JsMap.set i updatedTask (tasks (dataStore w))) w) ;;
      notifyTaskUpdate P UPDATED updatedTask ;;
      ret (Some updatedTask)
  end.

(** [deleteTask(id)]. *)
Definition deleteTask (P : Platform) (i : string) : M bool :=
  found <- gets (fun w => JsMap.get i (tasks (dataStore w))) ;;
  match found with
  | None => ret false
  | Some t =>
      modify (fun w => with_tasks (JsMap.delete i (tasks (dataStore w))) w) ;;
      notifyTaskUpdate P DELETED t ;;
      ret true
  end.

(** [l.sort((a, b) => b.created_at.getTime() - a.created_at.getTime())]:
    the sort is stable, so it is the insertion of each record in front
    of the first one that is not strictly newer. *)
Fixpoint insert_by_created (x : Task) (l : list Task) : list Task :=
  match l with
  | [] => [x]
  | y :: l' =>
      if (created_at x <? created_at y)%Z then y :: insert_by_created x l'
      else x :: y :: l'
  end.

Fixpoint sort_by_created_desc (l : list Task) : list Task :=
  match l with
  | [] => []
  | x :: l' => insert_by_created x (sort_by_created_desc l')
  end.

(** The three optional filters of [listTasks], applied one after the
    other; a missing (or falsy) filter leaves the list as it is. *)
Definition apply_filters (f : ListFilter) (allTasks : list Task) : list Task :=
  let filtered1 :=
    match f_status_filter f with
    | Some st => filter (fun t => TaskStatus_eqb (status t) st) allTasks
    | None => allTasks
    end in
  let filtered2 :=
    match f_priority_filter f with
    | Some pr => filter (fun t => TaskPriority_eqb (priority t) pr) filtered1
    | None => filtered1
    end in
  match f_assignee_filter f with
  | Some a =>
      if Js.truthy a then filter (fun t => String.eqb (assignee_id t) a) filtered2
      else filtered2
  | None => filtered2
  end.

(** [listTasks(filter)]. *)
Definition listTasks (f : ListFilter) (s : DataStore) : ListTasksResponse :=
  let allTasks := JsMap.values (tasks s) in
  let filteredTasks := sort_by_created_desc (apply_filters f allTasks) in
  let totalCount := List.length filteredTasks in
  let startIndex := ((f_page f - 1) * f_page_size f)%Z in
  let endIndex := (startIndex + f_page_size f)%Z in
  let paginatedTasks := Js.slice filteredTasks startIndex endIndex in
  mkListTasksResponse paginatedTasks totalCount (f_page f) (f_page_size f).

(** The key [subscribeToTaskUpdates] files a subscription under:
    [taskIds ? `${userId}:${taskIds.join(',')}` : userId]
    (an array, even an empty one, is truthy). *)
Definition subscription_key (userId : string) (taskIds : option (list string)) : string :=
  match taskIds with
  | Some ids => userId ++ ":" ++ Js.join "," ids
  | None => userId
  end.

(** The registry after the body of [subscribeToTaskUpdates]. *)
Definition register (key : string) (cb : callback)
    (r : list (string * list callback)) : list (string * list callback) :=
  let r1 := if negb (JsMap.has key r) then JsMap.set key [] r else r in
  match JsMap.get key r1 with
  | Some subscribers => JsMap.set key (JsSet.add cb subscribers) r1
  | None => r1
  end.

(** The registry after a run of the closure [subscribeToTaskUpdates]
    returns. *)
Definition unregister (key : string) (cb : callback)
    (r : list (string * list callback)) : list (string * list callback) :=
  match JsMap.get key r with
  | Some subscribers =>
      let subscribers' := JsSet.delete cb subscribers in
      if Nat.eqb (JsSet.size subscribers') 0 then JsMap.delete key r
      else JsMap.set key subscribers' r
  | None => r
  end.

(** [subscribeToTaskUpdates(userId, callback, taskIds)]; the closure it
    returns is named by the key and callback it captures. *)
Definition subscribeToTaskUpdates (userId : string) (cb : callback)
    (taskIds : option (list string)) : M (string * callback) :=
  let key := subscription_key userId taskIds in
  modify (fun w => with_subscribers (register key cb (taskUpdateSubscribers (dataStore w))) w) ;;
  ret (key, cb).

(** Running the closure returned by [subscribeToTaskUpdates]. *)
Definition unsubscribe (handle : string * callback) : M unit :=
  modify (fun w =>
    with_subscribers
      (unregister (fst handle) (snd handle) (taskUpdateSubscribers (dataStore w))) w).

(* ================================================================== *)
(** ** [middleware/auth] *)
(* ================================================================== *)

(** [metadata.get(name)]: the values of a header, [[]] when it is not
    there. *)
Definition metadata_get (name : string) (md : list (string * list string)) : list string :=
  or_else (JsMap.get name md) [].

(** [extractTokenFromMetadata(metadata)]; [None] is [null]. *)
Definition extractTokenFromMetadata (md : list (string * list string)) : option string :=
  match metadata_get "authorization" md with
  | [] => None
  | token :: _ =>
      if Js.startsWith "Bearer " token then Some (Js.substring 7 token)
      else Some token
  end.

(** [AuthService.verifyToken(token)]: a throw of [jwt.verify] is caught
    and becomes [null]. *)
Definition verifyToken (P : Platform) (token : string) : option JWTPayload :=
  jwt_verify P token.

(** [authenticateCall(call)]. *)
Definition authenticateCall {R : Type} (P : Platform) (call : Call R) : option JWTPayload :=
  match extractTokenFromMetadata (metadata call) with
  | Some token => if Js.truthy token then verifyToken P token else None
  | None => None
  end.

(* ================================================================== *)
(** ** class [TaskServiceImpl] *)
(* ================================================================== *)

Definition authentication_required : ServiceError :=
  mkServiceError UNAUTHENTICATED "Authentication required".

Definition internal_server_error : ServiceError :=
  mkServiceError INTERNAL "Internal server error".

Definition task_not_found : ServiceError :=
  mkServiceError NOT_FOUND "Task not found".

(** [CreateTask(call, callback)]: the result is what [callback]
    receives. *)
Definition CreateTask (P : Platform) (call : Call CreateTaskRequest) : M (reply Task) :=
  try_catch
    (match authenticateCall P call with
     | None => ret (Err authentication_required)
     | Some user =>
         let request := request call in
         match cr_title request, cr_description request with
         | Some title, Some description =>
             if negb (Js.truthy title) || negb (Js.truthy description) then
               ret (Err (mkServiceError INVALID_ARGUMENT "Title and description are required"))
             else
               t <- createTask P
                      (mkTaskData title description PENDING
                         (or_else (cr_priority request) MEDIUM)
                         (Js.str_or (cr_assignee_id request) (user_id user))
                         (cr_due_date request)
                         (or_else (cr_tags request) [])) ;;
               ret (Ok t)
         | _, _ =>
             ret (Err (mkServiceError INVALID_ARGUMENT "Title and description are required"))
         end
     end)
    (fun _ => ret (Err internal_server_error)).

(** [GetTask(call, callback)]. *)
Definition GetTask (P : Platform) (call : Call GetTaskRequest) : M (reply Task) :=
  try_catch
    (match authenticateCall P call with
     | None => ret (Err authentication_required)
     | Some user =>
         found <- gets (fun w => getTask (gr_id (request call)) (dataStore w)) ;;
         match found with
         | None => ret (Err task_not_found)
         | Some t => ret (Ok t)
         end
     end)
    (fun _ => ret (Err internal_server_error)).

(** The [updates] object [UpdateTask] builds: one property for each
    request property that is not [undefined]. *)
Definition build_updates (request : UpdateTaskRequest) : TaskUpdates :=
  mkTaskUpdates (ur_title request) (ur_description request) (ur_status request)
                (ur_priority request) (ur_assignee_id request) None
                (ur_due_date request) (ur_tags request).

(** [UpdateTask(call, callback)]. *)
Definition UpdateTask (P : Platform) (call : Call UpdateTaskRequest) : M (reply Task) :=
  try_catch
    (match authenticateCall P call with
     | None => ret (Err authentication_required)
     | Some user =>
         let request := request call in
         existingTask <- gets (fun w => getTask (ur_id request) (dataStore w)) ;;
         match existingTask with
         | None => ret (Err task_not_found)
         | Some _ =>
             updatedTask <- updateTask P (ur_id request) (build_updates request) ;;
             match updatedTask with
             | None => ret (Err (mkServiceError INTERNAL "Failed to update task"))
             | Some t => ret (Ok t)
             end
         end
     end)
    (fun _ => ret (Err internal_server_error)).

(** [DeleteTask(call, callback)]. *)
Definition DeleteTask (P : Platform) (call : Call DeleteTaskRequest) : M (reply unit) :=
  try_catch
    (match authenticateCall P call with
     | None => ret (Err authentication_required)
     | Some user =>
         deleted <- deleteTask P (dr_id (request call)) ;;
         if negb deleted then ret (Err task_not_found) else ret (Ok tt)
     end)
    (fun _ => ret (Err internal_server_error)).

(** [ListTasks(call, callback)]. *)
Definition ListTasks (P : Platform) (call : Call ListTasksRequest)
  : M (reply ListTasksResponse) :=
  try_catch
    (match authenticateCall P call with
     | None => ret (Err authentication_required)
     | Some user =>
         let request := request call in
         let page := Js.num_or (lr_page request) 1 in
         let pageSize := Z.min (Js.num_or (lr_page_size request) 10) 100 in
         result <- gets (fun w =>
                     listTasks
                       (mkListFilter page pageSize (lr_status_filter request)
                          (lr_priority_filter request) (lr_assignee_filter request))
                       (dataStore w)) ;;
         ret (Ok result)
     end)
    (fun _ => ret (Err internal_server_error)).

(** [call.on(event, unsubscribe)]. *)
Definition call_on (c : nat) (ev : CallEvent) (handle : string * callback) : M unit :=
  modify (fun w =>
    mkWorld (dataStore w) (uuid_draws w) (clock_reads w) (wire w) (broken w)
            (listeners w ++ [(c, ev, handle)]) (ended w)).

(** The listeners of call [c] for event [ev], in registration order. *)
Definition listeners_of (c : nat) (ev : CallEvent)
    (ls : list (nat * CallEvent * (string * callback))) : list (string * callback) :=
  map snd
    (filter (fun l => Nat.eqb (fst (fst l)) c && CallEvent_eqb (snd (fst l)) ev) ls).

(** The transport delivering an event to a call: every listener
    registered for it runs. *)
Definition fire (c : nat) (ev : CallEvent) : M unit :=
  ls <- gets (fun w => listeners_of c ev (listeners w)) ;;
  for_each unsubscribe ls.

(** [call.emit('error', err)]: the transport ends the call with the
    status of [err], and the ['error'] listeners run. *)
Definition call_emit_error (c : nat) (err : ServiceError) : M unit :=
  modify (fun w =>
    mkWorld (dataStore w) (uuid_draws w) (clock_reads w) (wire w) (broken w)
            (listeners w) (ended w ++ [(c, err)])) ;;
  fire c ev_error.

(** The task of the message [SubscribeTaskUpdates] writes first. *)
Definition connection_task (assignee : string) (created updated : Z) : Task :=
  mkTask "connection" "Streaming connection established"
         "You are now subscribed to task updates" COMPLETED LOW assignee
         created updated None ["system"].

(** [SubscribeTaskUpdates(call)]. *)
Definition SubscribeTaskUpdates (P : Platform)
    (call : Call SubscribeTaskUpdatesRequest) : M unit :=
  try_catch
    (match authenticateCall P call with
     | None => call_emit_error (call_id call) authentication_required
     | Some user =>
         let request := request call in
         unsubscribe_handle <-
           subscribeToTaskUpdates (user_id user) (SessionSink (call_id call))
                                  (sr_task_ids request) ;;
         call_on (call_id call) ev_cancelled unsubscribe_handle ;;
         call_on (call_id call) ev_error unsubscribe_handle ;;
         c <- new_Date P ;;
         u <- new_Date P ;;
         ts <- new_Date P ;;
         stream_write (call_id call)
           (mkTaskUpdate CREATED (connection_task (user_id user) c u) ts)
     end)
    (fun _ => call_emit_error (call_id call) internal_server_error).

(* ================================================================== *)
(** ** Derived views of a broadcast *)
(* ================================================================== *)

(** The stream a callback writes to. *)
Definition stream_of (cb : callback) : nat :=
  match cb with
  | SessionSink c => c
  | RawSink c => c
  end.

(** The subscriptions [notifyTaskUpdate] calls for an event on task
    [task_id], in the order it calls them: each with its key. *)
Definition targets (r : list (string * list callback)) (task_id : string)
  : list (string * callback) :=
  flat_map
    (fun entry : string * list callback =>
       if key_matches (fst entry) task_id
       then map (fun cb => (fst entry, cb)) (snd entry)
       else [])
    r.

(** What calling the callbacks [cbs] in turn with [update] writes, and
    the exception that ends the run, if any. *)
Fixpoint deliver (bs : list nat) (update : TaskUpdate) (cbs : list callback)
  : list (nat * TaskUpdate) * option exn :=
  match cbs with
  | [] => ([], None)
  | SessionSink c :: rest =>
      if is_broken bs c then deliver bs update rest
      else ((c, update) :: fst (deliver bs update rest), snd (deliver bs update rest))
  | RawSink c :: rest =>
      if is_broken bs c then ([], Some (WriteError c))
      else ((c, update) :: fst (deliver bs update rest), snd (deliver bs update rest))
  end.

Definition add_wire (ms : list (nat * TaskUpdate)) (w : World) : World :=
  mkWorld (dataStore w) (uuid_draws w) (clock_reads w) (wire w ++ ms)
          (broken w) (listeners w) (ended w).

Definition tick (w : World) : World :=
  mkWorld (dataStore w) (uuid_draws w) (S (clock_reads w)) (wire w)
          (broken w) (listeners w) (ended w).

Definition drawn (w : World) : World :=
  mkWorld (dataStore w) (S (uuid_draws w)) (clock_reads w) (wire w)
          (broken w) (listeners w) (ended w).

(** The record [createTask] builds in world [w]. *)
Definition created_task (P : Platform) (data : TaskData) (w : World) : Task :=
  mkTask (uuidv4 P (uuid_draws w)) (d_title data) (d_description data)
         (d_status data) (d_priority data) (d_assignee_id data)
         (clock P (clock_reads w)) (clock P (S (clock_reads w)))
         (d_due_date data) (d_tags data).

(** A computation that returns rather than throws. *)
Definition completes {A : Type} (c : M A) (w : World) : Prop :=
  exists a, fst (c w) = Returned a.

Definition outcome_of (e : option exn) : outcome unit :=
  match e with
  | None => Returned tt
  | Some x => Thrown x
  end.

(** A subscription: callback [cb] is a member of the set filed under
    [key]. *)
Definition registered (key : string) (cb : callback)
    (r : list (string * list callback)) : Prop :=
  exists subscribers, In (key, subscribers) r /\ In cb subscribers.

Definition is_session_sink (cb : callback) : bool :=
  match cb with
  | SessionSink _ => true
  | RawSink _ => false
  end.

(** Every registered callback is the sink of a streaming session, as
    is the case when [SubscribeTaskUpdates] is the only caller of
    [subscribeToTaskUpdates]. *)
Definition session_sinks_only (r : list (string * list callback)) : Prop :=
  forallb (fun entry : string * list callback => forallb is_session_sink (snd entry)) r
  = true.

(** What holds of the subscriber map in every world of the server:
    one entry per key, and session sinks only. *)
Definition registry_invariant (r : list (string * list callback)) : Prop :=
  JsMap.wf r /\ session_sinks_only r.

(** The messages a world has on the wire beyond those of an earlier
    world. *)
Definition written_since (w w' : World) : list (nat * TaskUpdate) :=
  skipn (List.length (wire w)) (wire w').

(** The world after a computation, whatever its outcome. *)
Definition after {A : Type} (c : M A) (w : World) : World := snd (c w).

(** A store mutation, and the world after a sequence of them (a
    mutation that throws leaves what it did before the throw). *)
Inductive mutation :=
| Create (data : TaskData)
| Update (i : string) (updates : TaskUpdates)
| Delete (i : string).

Definition mutate (P : Platform) (m : mutation) (w : World) : World :=
  match m with
  | Create data => after (createTask P data) w
  | Update i updates => after (updateTask P i updates) w
  | Delete i => after (deleteTask P i) w
  end.

Definition mutate_all (P : Platform) (ms : list mutation) (w : World) : World :=
  fold_left (fun w' m => mutate P m w') ms w.

(** The messages on the wire for the stream of call [c]. *)
Definition received (c : nat) (w : World) : list TaskUpdate :=
  map snd (filter (fun m => Nat.eqb (fst m) c) (wire w)).

(* ================================================================== *)
(** ** Vocabulary of the properties *)
(* ================================================================== *)

(** The call carries no credential: no [authorization] value, or one
    that leaves an empty token. *)
Definition credential_absent {R : Type} (call : Call R) : Prop :=
  extractTokenFromMetadata (metadata call) = None \/
  extractTokenFromMetadata (metadata call) = Some EmptyString.

(** The call carries a credential that does not verify. *)
Definition credential_unverified {R : Type} (P : Platform) (call : Call R) : Prop :=
  exists token,
    extractTokenFromMetadata (metadata call) = Some token /\
    verifyToken P token = None.

(** The sink of call [c] is filed under [key]. *)
Definition serves (r : list (string * list callback)) (c : nat) (key : string) : Prop :=
  exists subscribers cb,
    In (key, subscribers) r /\ In cb subscribers /\ stream_of cb = c.

(** Whether a record passes a subscriber's filter, in the words of the
    specification: no identifier set passes every record, an identifier
    set passes its members. *)
Definition filter_matches (task_ids : option (list string)) (t : Task) : bool :=
  match task_ids with
  | None => true
  | Some ids => Js.array_includes ids (id t)
  end.

(** The seeding burst in the words of the specification: the records
    of the store that pass the subscriber's filter. *)
Definition seeding_snapshot (s : DataStore) (task_ids : option (list string)) : list Task :=
  filter (filter_matches task_ids) (JsMap.values (tasks s)).

(** Seeding as the specification states it: opening a subscription
    writes one snapshot event for each record of the seeding burst, and
    nothing else. *)
Definition seeding_burst_emitted (P : Platform)
    (call : Call SubscribeTaskUpdatesRequest) (w : World) : Prop :=
  Permutation
    (map (fun m => task (snd m))
         (written_since w (after (SubscribeTaskUpdates P call) w)))
    (seeding_snapshot (dataStore w) (sr_task_ids (request call))).

(** Dropping on failure as the specification states it, for one
    broadcast: a matching subscription whose stream is broken is gone
    from the registry afterwards, the broadcast returns, and every
    healthy matching subscription has the event on its stream. *)
Definition failed_sink_dropped (P : Platform) (ty : UpdateType) (t : Task) (w : World) : Prop :=
  let r := taskUpdateSubscribers (dataStore w) in
  let w' := after (notifyTaskUpdate P ty t) w in
  forall key cb,
    In (key, cb) (targets r (id t)) ->
    is_broken (broken w) (stream_of cb) = true ->
    ~ registered key cb (taskUpdateSubscribers (dataStore w')) /\
    fst (notifyTaskUpdate P ty t w) = Returned tt /\
    (forall key' cb',
        In (key', cb') (targets r (id t)) ->
        is_broken (broken w) (stream_of cb') = false ->
        In (stream_of cb') (map fst (written_since w w'))).

(** Determinism of listings as the specification states it: two stores
    that hold the same record under every identifier list alike. *)
Definition listing_determined_by_records (f : ListFilter) : Prop :=
  forall s1 s2 : DataStore,
    (forall i, getTask i s1 = getTask i s2) ->
    resp_tasks (listTasks f s1) = resp_tasks (listTasks f s2).

(** The empty identifier list as a filter that passes nothing: a
    subscription opened with it is never called by a broadcast. *)
Definition empty_set_never_delivered (userId : string) : Prop :=
  forall r cb task_id,
    ~ In (subscription_key userId (Some []), cb) (targets r task_id).

(** Partial update as the specification states it: for a stored record
    [updateTask] returns a record, the merged one, and that record is
    what the store holds afterwards. *)
Definition update_returns_merged_record (P : Platform) (i : string)
    (updates : TaskUpdates) (w : World) : Prop :=
  forall t,
    getTask i (dataStore w) = Some t ->
    exists m,
      fst (updateTask P i updates w) = Returned (Some m) /\
      getTask i (dataStore (after (updateTask P i updates) w)) = Some m.

(** [a] was created no earlier than [b]. *)
Definition newer_or_same (a b : Task) : Prop := (created_at b <= created_at a)%Z.

(** The records of a list created at the instant [ts], in list order. *)
Definition created_at_instant (ts : Z) (l : list Task) : list Task :=
  filter (fun t => (created_at t =? ts)%Z) l.

(** The world in which an authenticated [SubscribeTaskUpdates] writes
    its first message: the sink is registered, both listeners are in
    place, and three clock readings were taken. *)
Definition registered_world (call : Call SubscribeTaskUpdatesRequest)
    (user : JWTPayload) (w : World) : World :=
  let key := subscription_key (user_id user) (sr_task_ids (request call)) in
  mkWorld
    (mkDataStore (tasks (dataStore w))
       (register key (SessionSink (call_id call))
          (taskUpdateSubscribers (dataStore w))))
    (uuid_draws w) (S (S (S (clock_reads w)))) (wire w) (broken w)
    ((listeners w ++ [(call_id call, ev_cancelled, (key, SessionSink (call_id call)))])
       ++ [(call_id call, ev_error, (key, SessionSink (call_id call)))])
    (ended w).

(* ================================================================== *)
(** ** The worlds the server can be in *)
(* ================================================================== *)

(** A stream breaks. *)
Definition break_stream (c : nat) (w : World) : World :=
  mkWorld (dataStore w) (uuid_draws w) (clock_reads w) (wire w)
          (c :: broken w) (listeners w) (ended w).

(** One step of the server: a handler runs on a call, the transport
    reports a cancellation or an error on a call, or a stream breaks. *)
Inductive step (P : Platform) : World -> World -> Prop :=
| step_CreateTask call w : step P w (after (CreateTask P call) w)
| step_GetTask call w : step P w (after (GetTask P call) w)
| step_UpdateTask call w : step P w (after (UpdateTask P call) w)
| step_DeleteTask call w : step P w (after (DeleteTask P call) w)
| step_ListTasks call w : step P w (after (ListTasks P call) w)
| step_SubscribeTaskUpdates call w : step P w (after (SubscribeTaskUpdates P call) w)
| step_fire c ev w : step P w (after (fire c ev) w)
| step_break c w : step P w (break_stream c w).

(** The worlds reached from a store nobody has subscribed to yet (as
    it is after [init]). *)
Inductive reachable (P : Platform) : World -> Prop :=
| reachable_start w :
    taskUpdateSubscribers (dataStore w) = [] -> reachable P w
| reachable_step w w' :
    reachable P w -> step P w w' -> reachable P w'.

(* ================================================================== *)
(** ** A concrete platform and concrete worlds *)
(* ================================================================== *)

Fixpoint zeros (n : nat) : string :=
  match n with
  | O => EmptyString
  | S n' => String "0" (zeros n')
  end.

(** An identifier in the format of [uuidv4()], numbered by [n]. *)
Definition uuid_of_nat (n : nat) : string :=
  let digits := NilZero.string_of_uint (Nat.to_uint n) in
  "00000000-0000-4000-8000-" ++ zeros (12 - String.length digits) ++ digits.

Definition admin_payload : JWTPayload :=
  mkJWTPayload "6ec0bd7f-11c0-43da-975e-2a8ad9ebae0b" "admin"
               1700000000 1700003600.

(** Identifiers in sequence, a clock that advances one millisecond per
    reading, and one token that verifies. *)
Definition demo : Platform :=
  mkPlatform uuid_of_nat
             (fun n => (1700000000000 + Z.of_nat n)%Z)
             (fun token =>
                if String.eqb token "admin.jwt" then Some admin_payload else None).

(** A platform whose clock stands still, drawing the given
    identifiers in turn. *)
Definition frozen (ids : list string) : Platform :=
  mkPlatform (fun n => nth n ids EmptyString)
             (fun _ => 1700000000000%Z)
             (fun _ => None).

Definition empty_world : World :=
  mkWorld (mkDataStore [] []) 0 0 [] [] [] [].

Definition sample_data (name : string) : TaskData :=
  mkTaskData name "Description" PENDING MEDIUM "user1" None ["test"].

Definition authorized {R : Type} (c : nat) (req : R) : Call R :=
  mkCall c [("authorization", ["Bearer admin.jwt"])] req.

Definition anonymous {R : Type} (c : nat) (req : R) : Call R :=
  mkCall c [] req.

Definition subscribe_all : SubscribeTaskUpdatesRequest :=
  mkSubscribeTaskUpdatesRequest "admin" None.

(** A world holding two tasks and no subscriber. *)
Definition two_tasks : World :=
  mutate_all demo [Create (sample_data "Task 0"); Create (sample_data "Task 1")]
             empty_world.

(** A world holding [n] tasks. *)
Definition n_tasks (n : nat) : World :=
  mutate_all demo (repeat (Create (sample_data "Task")) n) empty_world.

(** A world with two streaming sessions of the same user, the first on
    a broken stream. *)
Definition two_sessions_first_broken : World :=
  let w1 := after (SubscribeTaskUpdates demo (authorized 1 subscribe_all)) empty_world in
  let w2 := after (SubscribeTaskUpdates demo (authorized 2 subscribe_all)) w1 in
  mkWorld (dataStore w2) (uuid_draws w2) (clock_reads w2) (wire w2) [1]
          (listeners w2) (ended w2).

Definition first_uuid : string := "1b9d6bcd-bbfd-4b2d-9b5d-ab8dfbbd4bed".
Definition second_uuid : string := "9b1deb4d-3b7d-4bad-9bdd-2b0d7b3dcb6d".

(** Two tasks created within one millisecond, the identifiers drawn
    in one order ... *)
Definition same_instant_ab : World :=
  mutate_all (frozen [first_uuid; second_uuid])
             [Create (sample_data "Task"); Create (sample_data "Task")] empty_world.

(** ... and in the other. *)
Definition same_instant_ba : World :=
  mutate_all (frozen [second_uuid; first_uuid])
             [Create (sample_data "Task"); Create (sample_data "Task")] empty_world.

Definition first_page : ListFilter := mkListFilter 1 10 None None None.

(** A requested identifier that holds a comma: some text, a comma,
    and the identifier of the first task of [two_tasks]. *)
Definition joined_id : string := "other," ++ uuid_of_nat 0.

Definition subscribe_joined : SubscribeTaskUpdatesRequest :=
  mkSubscribeTaskUpdatesRequest "admin" (Some [joined_id]).

(** The world after that subscription is opened on call 1, with two
    tasks stored. *)
Definition one_filtered_session : World :=
  after (SubscribeTaskUpdates demo (authorized 1 subscribe_joined)) two_tasks.

(** A user identifier that holds a [':']. *)
Definition colon_user : string := "ops:" ++ uuid_of_nat 0.

(** A listing request for page 1 with a negative page size. *)
Definition negative_page_size : ListTasksRequest :=
  mkListTasksRequest (Some 1%Z) (Some (-1)%Z) None None None.

(** The first task of [two_tasks]. *)
Definition task_zero : Task :=
  mkTask (uuid_of_nat 0) "Task 0" "Description" PENDING MEDIUM "user1"
         1700000000000 1700000000001 None ["test"].

Definition retitle : TaskUpdates :=
  mkTaskUpdates (Some "Updated Title") None (Some IN_PROGRESS) None None None None None.

Definition create_request : CreateTaskRequest :=
  mkCreateTaskRequest (Some "Write report") (Some "Quarterly numbers")
                      None None None None.

(** The record either run of [same_instant_ab] and [same_instant_ba]
    stores under identifier [i]. *)
Definition same_instant_task (i : string) : Task :=
  mkTask i "Task" "Description" PENDING MEDIUM "user1"
         1700000000000 1700000000000 None ["test"].

(** The world after one unfiltered subscription by the administrator
    on call 1. *)
Definition one_session : World :=
  after (SubscribeTaskUpdates demo (authorized 1 subscribe_all)) empty_world.

(** A world where a callback that writes without a guard was handed to
    the store first, on a broken stream, and a streaming session was
    opened after it. *)
Definition raw_sink_first_broken : World :=
  let w1 := after (subscribeToTaskUpdates "tester" (RawSink 1) None) empty_world in
  let w2 := after (SubscribeTaskUpdates demo (authorized 2 subscribe_all)) w1 in
  mkWorld (dataStore w2) (uuid_draws w2) (clock_reads w2) (wire w2) [1]
          (listeners w2) (ended w2).

(** Two tasks stored, and one callback that writes without a guard
    handed to the store, on a broken stream. *)
Definition two_tasks_raw_sink_broken : World :=
  let w1 := after (subscribeToTaskUpdates "tester" (RawSink 1) None) two_tasks in
  mkWorld (dataStore w1) (uuid_draws w1) (clock_reads w1) (wire w1) [1]
          (listeners w1) (ended w1).

(** The request that applies [retitle] to the first task of
    [two_tasks]. *)
Definition retitle_request : UpdateTaskRequest :=
  mkUpdateTaskRequest (uuid_of_nat 0) (Some "Updated Title") None (Some IN_PROGRESS)
                      None None None None.

(** Two tasks stored, and a subscription of [colon_user] with an
    explicit empty identifier list, on stream 1. *)
Definition colon_user_empty_list : World :=
  after (subscribeToTaskUpdates colon_user (RawSink 1) (Some [])) two_tasks.

(* ================================================================== *)
(** ** Vocabulary of the store and listing properties *)
(* ================================================================== *)

(** The task map is well formed and files every record under the
    record's own identifier. *)
Definition store_consistent (s : DataStore) : Prop :=
  JsMap.wf (tasks s) /\ forall k t, In (k, t) (tasks s) -> id t = k.

(** The filter object that differs from [f] in its page only. *)
Definition on_page (f : ListFilter) (p : Z) : ListFilter :=
  mkListFilter p (f_page_size f) (f_status_filter f) (f_priority_filter f)
               (f_assignee_filter f).

(** Whether a record passes the three optional filters of [f]. *)
Definition passes_filters (f : ListFilter) (t : Task) : Prop :=
  (forall st, f_status_filter f = Some st -> status t = st) /\
  (forall pr, f_priority_filter f = Some pr -> priority t = pr) /\
  (forall a, f_assignee_filter f = Some a -> Js.truthy a = true -> assignee_id t = a).

(** The call's credential is absent or does not verify. *)
Definition rejected {R : Type} (P : Platform) (call : Call R) : Prop :=
  credential_absent call \/ credential_unverified P call.

(** A string property that is missing or empty. *)
Definition falsy (o : option string) : Prop := o = None \/ o = Some EmptyString.

(** The world with one more call ended by the transport. *)
Definition with_ended (c : nat) (err : ServiceError) (w : World) : World :=
  mkWorld (dataStore w) (uuid_draws w) (clock_reads w) (wire w) (broken w)
          (listeners w) (ended w ++ [(c, err)]).

(* ================================================================== *)
(** ** Vocabulary of the delivery properties *)
(* ================================================================== *)

(** The number of subscriptions through which the stream of call [c]
    is called for an event on task [task_id]. *)
Definition subscriptions_of (r : list (string * list callback)) (c : nat)
    (task_id : string) : nat :=
  List.length
    (filter (fun cb => Nat.eqb (stream_of cb) c) (map snd (targets r task_id))).

(** The event a store mutation broadcasts in world [w], if any: the
    record as created, as merged, or as it was when deleted, stamped
    with the clock reading [notifyTaskUpdate] takes. *)
Definition event_of (P : Platform) (m : mutation) (w : World) : list TaskUpdate :=
  match m with
  | Create data =>
      [mkTaskUpdate CREATED (created_task P data w) (clock P (S (S (clock_reads w))))]
  | Update i updates =>
      match getTask i (dataStore w) with
      | Some t =>
          [mkTaskUpdate UPDATED (merge t updates (clock P (clock_reads w)))
                        (clock P (S (clock_reads w)))]
      | None => []
      end
  | Delete i =>
      match getTask i (dataStore w) with
      | Some t => [mkTaskUpdate DELETED t (clock P (clock_reads w))]
      | None => []
      end
  end.

(** The events of a sequence of mutations, each in the world the
    mutations before it leave. *)
Fixpoint events_of (P : Platform) (ms : list mutation) (w : World) : list TaskUpdate :=
  match ms with
  | [] => []
  | m :: ms' => event_of P m w ++ events_of P ms' (mutate P m w)
  end.

(* ================================================================== *)
(** ** Users and the authentication service *)
(* ================================================================== *)

(** [DataStore]'s user map with [createUser], [getUserByUsername] and
    [getUserById]; [AuthService] ([middleware/auth]) and
    [AuthServiceImpl] ([services/authService]). The user map lives
    beside the world of the task handlers and shares its identifier
    supply and its clock. *)
Module Accounts.

(** The gRPC status codes [AuthServiceImpl] uses. *)
Inductive status := INVALID_ARGUMENT | UNAUTHENTICATED | ALREADY_EXISTS | INTERNAL.

Record error := mkError {
  code : status;
  message : string
}.

Inductive reply (A : Type) :=
| Ok (value : A)
| Err (e : error).
Arguments Ok {A} value.
Arguments Err {A} e.

(** interface [User]. *)
Record User := mkUser {
  u_id : string;
  u_username : string;
  u_email : string;
  u_full_name : string;
  u_created_at : Z
}.

(** [User & { password: string }], the value type of the user map. *)
Record StoredUser := mkStoredUser {
  s_id : string;
  s_username : string;
  s_email : string;
  s_full_name : string;
  s_created_at : Z;
  s_password : string
}.

(** [const { password, ...userWithoutPassword } = user]. *)
Definition without_password (u : StoredUser) : User :=
  mkUser (s_id u) (s_username u) (s_email u) (s_full_name u) (s_created_at u).

Record LoginRequest := mkLoginRequest {
  lq_username : option string;
  lq_password : option string
}.

Record LoginResponse := mkLoginResponse {
  access_token : string;
  refresh_token : string;
  expires_at : Z
}.

Record RefreshTokenRequest := mkRefreshTokenRequest {
  rq_refresh_token : option string
}.

Record CreateUserRequest := mkCreateUserRequest {
  cq_username : option string;
  cq_password : option string;
  cq_email : option string;
  cq_full_name : option string
}.

(** The libraries the authentication code calls: [bcrypt.hash] (salted,
    so its [n]-th call is its own function) and [bcrypt.compare];
    [jwt.sign] with the access and the refresh secret (time-stamped, so
    indexed by call as well), the [exp] claim [jwt.decode] reads, and
    [jwt.verify] with the refresh secret ([None] when it throws, which
    [verifyRefreshToken] catches). The other calls are taken to return,
    so the [catch] blocks that answer INTERNAL are not modelled. *)
Record Libs := mkLibs {
  bcrypt_hash : nat -> string -> string;
  bcrypt_compare : string -> string -> bool;
  jwt_sign_access : nat -> string -> string -> string;
  jwt_sign_refresh : nat -> string -> string -> string;
  jwt_decode_exp : string -> Z;
  jwt_verify_refresh : string -> option JWTPayload
}.

(** The state of the authentication service: the world of the task
    handlers, the user map, and how often the salted and time-stamped
    library functions were called. *)
Record Server := mkServer {
  world : World;
  users : list (string * StoredUser);
  hashes : nat;
  signatures : nat
}.

(** [createUser(userData)]: the identifier and the creation time of
    the argument are overwritten. *)
Definition createUser (P : Platform) (userData : StoredUser) (s : Server)
  : User * Server :=
  let user :=
    mkStoredUser (uuidv4 P (uuid_draws (world s)))
                 (s_username userData) (s_email userData) (s_full_name userData)
                 (clock P (clock_reads (world s)))
                 (s_password userData) in
  (without_password user,
   mkServer (tick (drawn (world s))) (JsMap.set (s_id user) user (users s))
            (hashes s) (signatures s)).

(** [getUserByUsername(username)]: the first user, in insertion order,
    with that name. *)
Definition getUserByUsername (username : string) (s : Server) : option StoredUser :=
  find (fun user => String.eqb (s_username user) username) (JsMap.values (users s)).

(** [getUserById(id)]. *)
Definition getUserById (i : string) (s : Server) : option User :=
  match JsMap.get i (users s) with
  | Some user => Some (without_password user)
  | None => None
  end.

(** [AuthService.generateTokens(user)]. *)
Definition generateTokens (L : Libs) (user : User) (s : Server)
  : (string * string * Z) * Server :=
  let accessToken := jwt_sign_access L (signatures s) (u_id user) (u_username user) in
  let refreshToken :=
    jwt_sign_refresh L (S (signatures s)) (u_id user) (u_username user) in
  let expiresAt := (jwt_decode_exp L accessToken * 1000)%Z in
  ((accessToken, refreshToken, expiresAt),
   mkServer (world s) (users s) (hashes s) (S (S (signatures s)))).

(** [AuthService.login(request)]; [None] is [null]. The user map is
    read before the first [await], so the answer depends on the map as
    it is when [login] is called. *)
Definition login (L : Libs) (username password : string) (s : Server)
  : option LoginResponse * Server :=
  match getUserByUsername username s with
  | None => (None, s)
  | Some user =>
      if bcrypt_compare L password (s_password user) then
        let (tokens, s') := generateTokens L (without_password user) s in
        let '(accessToken, refreshToken, expiresAt) := tokens in
        (Some (mkLoginResponse accessToken refreshToken expiresAt), s')
      else (None, s)
  end.

(** [AuthService.refreshToken(refreshToken)]. *)
Definition refreshToken (L : Libs) (token : string) (s : Server)
  : option LoginResponse * Server :=
  match jwt_verify_refresh L token with
  | None => (None, s)
  | Some decoded =>
      match getUserById (user_id decoded) s with
      | None => (None, s)
      | Some user =>
          let (tokens, s') := generateTokens L user s in
          let '(accessToken, refreshToken, expiresAt) := tokens in
          (Some (mkLoginResponse accessToken refreshToken expiresAt), s')
      end
  end.

(** [AuthServiceImpl.Login(call, callback)]. *)
Definition Login (L : Libs) (request : LoginRequest) (s : Server)
  : reply LoginResponse * Server :=
  match lq_username request, lq_password request with
  | Some username, Some password =>
      if negb (Js.truthy username) || negb (Js.truthy password) then
        (Err (mkError INVALID_ARGUMENT "Username and password are required"), s)
      else
        match login L username password s with
        | (None, s') => (Err (mkError UNAUTHENTICATED "Invalid username or password"), s')
        | (Some loginResponse, s') => (Ok loginResponse, s')
        end
  | _, _ => (Err (mkError INVALID_ARGUMENT "Username and password are required"), s)
  end.

(** [AuthServiceImpl.RefreshToken(call, callback)]. *)
Definition RefreshToken (L : Libs) (request : RefreshTokenRequest) (s : Server)
  : reply LoginResponse * Server :=
  match rq_refresh_token request with
  | Some token =>
      if negb (Js.truthy token) then
        (Err (mkError INVALID_ARGUMENT "Refresh token is required"), s)
      else
        match refreshToken L token s with
        | (None, s') => (Err (mkError UNAUTHENTICATED "Invalid refresh token"), s')
        | (Some loginResponse, s') => (Ok loginResponse, s')
        end
  | None => (Err (mkError INVALID_ARGUMENT "Refresh token is required"), s)
  end.

(** The request of [CreateUser] once its four properties are known to
    be there. *)
Record NewUser := mkNewUser {
  n_username : string;
  n_password : string;
  n_email : string;
  n_full_name : string
}.

(** The part of [AuthServiceImpl.CreateUser] that runs before its
    [await]: validation and the check that the name is free. It
    answers with an error or lets the call go on. *)
Definition CreateUser_check (request : CreateUserRequest) (s : Server)
  : error + NewUser :=
  match cq_username request, cq_password request, cq_email request,
        cq_full_name request with
  | Some username, Some password, Some email, Some full_name =>
      if negb (Js.truthy username) || negb (Js.truthy password)
         || negb (Js.truthy email) || negb (Js.truthy full_name) then
        inl (mkError INVALID_ARGUMENT
               "Username, password, email, and full_name are required")
      else
        match getUserByUsername username s with
        | Some _ => inl (mkError ALREADY_EXISTS "Username already exists")
        | None => inr (mkNewUser username password email full_name)
        end
  | _, _, _, _ =>
      inl (mkError INVALID_ARGUMENT
             "Username, password, email, and full_name are required")
  end.

(** The part of [AuthServiceImpl.CreateUser] that runs after its
    [await], on the user map as it is by then: the password hashed in
    between is stored with the new user. *)
Definition CreateUser_store (P : Platform) (L : Libs) (n : NewUser) (s : Server)
  : reply User * Server :=
  let hashedPassword := bcrypt_hash L (hashes s) (n_password n) in
  let s1 := mkServer (tick (world s)) (users s) (S (hashes s)) (signatures s) in
  let (user, s2) :=
    createUser P
      (mkStoredUser EmptyString (n_username n) (n_email n) (n_full_name n)
                    (clock P (clock_reads (world s))) hashedPassword)
      s1 in
  (Ok user, s2).

(** [AuthServiceImpl.CreateUser(call, callback)] when nothing else runs
    during its [await]. *)
Definition CreateUser (P : Platform) (L : Libs) (request : CreateUserRequest)
    (s : Server) : reply User * Server :=
  match CreateUser_check request s with
  | inl e => (Err e, s)
  | inr n => CreateUser_store P L n s
  end.

(** No two users of the map have the same name. *)
Definition usernames_unique (s : Server) : Prop :=
  NoDup (map s_username (JsMap.values (users s))).

End Accounts.

(* ================================================================== *)
(** * The chat service of the example server
      (Code/lab02-servidor-grpc/services/ChatService.js) *)
(* ================================================================== *)

Module Chat.

(** The message [sendMessage] builds and [broadcast] writes. *)
Record ChatMessage := mkChatMessage {
  user : string;
  text : string;
  timestamp : Z
}.

(** A message as it arrives on the client stream: each property may be
    missing. *)
Record Incoming := mkIncoming {
  m_user : option string;
  m_text : option string;
  m_timestamp : option Z
}.

(** The reply of [sendMessage]. *)
Record Ack := mkAck {
  ok : bool;
  info : string
}.

(** The service and the streams around it: [this.subscribers] (a Set
    of calls, in insertion order), the streams whose [write] raises,
    what was written to which stream (oldest first), and how often
    [Date.now()] was read. *)
Record Service := mkService {
  subscribers : list nat;
  failing : list nat;
  written : list (nat * ChatMessage);
  now_reads : nat
}.

(** [Set.prototype.has], [add] and [delete] on a set of calls. *)
Definition has (c : nat) (s : list nat) : bool := existsb (Nat.eqb c) s.

Definition add (c : nat) (s : list nat) : list nat :=
  if has c s then s else s ++ [c].

Definition delete (c : nat) (s : list nat) : list nat :=
  filter (fun y => negb (Nat.eqb c y)) s.

(** [receiveMessages(call)]: the call joins the subscribers. The
    [cleanup] closure it registers for ['close'], ['end'] and ['error']
    is [cleanup] below. *)
Definition receiveMessages (call : nat) (st : Service) : Service :=
  mkService (add call (subscribers st)) (failing st) (written st) (now_reads st).

Definition cleanup (call : nat) (st : Service) : Service :=
  mkService (delete call (subscribers st)) (failing st) (written st) (now_reads st).

(** The body of the loop of [broadcast]:
    [try { subscriber.write(message) } catch (e) { this.subscribers.delete(subscriber) }]. *)
Definition write_or_drop (message : ChatMessage) (st : Service) (subscriber : nat)
  : Service :=
  if is_broken (failing st) subscriber then
    mkService (delete subscriber (subscribers st)) (failing st) (written st)
              (now_reads st)
  else
    mkService (subscribers st) (failing st)
              (written st ++ [(subscriber, message)]) (now_reads st).

(** [broadcast(message)]: the loop runs over [Array.from(this.subscribers)],
    the subscribers as they are when the broadcast starts. *)
Definition broadcast (message : ChatMessage) (st : Service) : Service :=
  fold_left (write_or_drop message) (subscribers st) st.

(** The [chatMsg] the ['data'] listener builds from [msg], and whether
    it read [Date.now()] for it. *)
Definition chat_message (P : Platform) (msg : Incoming) (reads : nat)
  : ChatMessage * nat :=
  match m_timestamp msg with
  | Some t =>
      if (0 <? t)%Z then
        (mkChatMessage (Js.str_or (m_user msg) "anon") (Js.str_or (m_text msg) "") t,
         reads)
      else
        (mkChatMessage (Js.str_or (m_user msg) "anon") (Js.str_or (m_text msg) "")
                       (clock P reads),
         S reads)
  | None =>
      (mkChatMessage (Js.str_or (m_user msg) "anon") (Js.str_or (m_text msg) "")
                     (clock P reads),
       S reads)
  end.

(** The ['data'] listener of [sendMessage]; [received] is the counter
    of the call. *)
Definition on_data (P : Platform) (state : Service * nat) (msg : Incoming)
  : Service * nat :=
  let (st, received) := state in
  let (chatMsg, reads) := chat_message P msg (now_reads st) in
  (broadcast chatMsg
     (mkService (subscribers st) (failing st) (written st) reads),
   S received).

(** The ['end'] listener of [sendMessage]: [`received=${received}`]. *)
Definition on_end (received : nat) : Ack :=
  mkAck true ("received=" ++ NilEmpty.string_of_uint (Nat.to_uint received)).

(** [sendMessage(call, callback)] on a client stream that delivers
    [msgs] and ends. *)
Definition sendMessage (P : Platform) (msgs : list Incoming) (st : Service)
  : Ack * Service :=
  let (st', received) := fold_left (on_data P) msgs (st, 0) in
  (on_end received, st').

(** The messages written to the stream of call [c], oldest first. *)
Definition delivered (c : nat) (st : Service) : list ChatMessage :=
  map snd (filter (fun p => Nat.eqb (fst p) c) (written st)).

(** Whether the timestamp of an arriving message is missing or not
    positive. *)
Definition unstamped (msg : Incoming) : bool :=
  match m_timestamp msg with
  | Some t => negb (0 <? t)%Z
  | None => true
  end.

(** The messages [sendMessage] builds from [msgs] when [Date.now()]
    was read [reads] times before. *)
Fixpoint chat_messages (P : Platform) (msgs : list Incoming) (reads : nat)
  : list ChatMessage :=
  match msgs with
  | [] => []
  | msg :: rest =>
      let (chatMsg, reads') := chat_message P msg reads in
      chatMsg :: chat_messages P rest reads'
  end.

End Chat.

(* ================================================================== *)
(** * Error mapping of the example server (utils/grpc.js) *)
(* ================================================================== *)

Module GrpcUtils.

(** The values of [grpc.status] that [mapError] uses. *)
Definition INVALID_ARGUMENT : Z := 3.
Definition NOT_FOUND : Z := 5.
Definition ALREADY_EXISTS : Z := 6.
Definition PERMISSION_DENIED : Z := 7.
Definition INTERNAL : Z := 13.
Definition UNAUTHENTICATED : Z := 16.

(** What [mapError] reads of the value it is given: [code] is there
    when [typeof err.code === 'number']. *)
Record JsError := mkJsError {
  name : option string;
  code : option Z;
  details : option string;
  message : option string
}.

(** [grpcError(status, message)] (no metadata). *)
Definition grpcError (status : Z) (message : option string) : JsError :=
  mkJsError (Some "Error") (Some status)
            (Some (Js.str_or message "gRPC error"))
            (Some (Js.str_or message "gRPC error")).

(** [err?.details || err?.message || 'Unexpected error']. *)
Definition error_text (err : option JsError) : string :=
  match err with
  | Some e => Js.str_or (details e) (Js.str_or (message e) "Unexpected error")
  | None => "Unexpected error"
  end.

(** [mapError(err)]; [None] is [null] or [undefined]. *)
Definition mapError (err : option JsError) : JsError :=
  match err with
  | Some (mkJsError _ (Some _) _ _ as e) => e
  | _ =>
      let msg := error_text err in
      match err with
      | Some e =>
          match name e with
          | Some n =>
              if String.eqb n "ValidationError" then grpcError INVALID_ARGUMENT (Some msg)
              else if String.eqb n "AuthError" then grpcError UNAUTHENTICATED (Some msg)
              else if String.eqb n "PermissionError" then
                     grpcError PERMISSION_DENIED (Some msg)
              else if String.eqb n "NotFoundError" then grpcError NOT_FOUND (Some msg)
              else if String.eqb n "ConflictError" then grpcError ALREADY_EXISTS (Some msg)
              else grpcError INTERNAL (Some msg)
          | None => grpcError INTERNAL (Some msg)
          end
      | None => grpcError INTERNAL (Some msg)
      end
  end.

End GrpcUtils.

(* ================================================================== *)
(** * Concrete requests, servers and a chat room *)
(* ================================================================== *)

Definition pending_first_page : ListFilter :=
  mkListFilter 1 10 (Some PENDING) None None.

Definition one_per_page : ListFilter := mkListFilter 1 1 None None None.

(** A request whose title is empty. *)
Definition untitled_request : CreateTaskRequest :=
  mkCreateTaskRequest (Some EmptyString) (Some "Quarterly numbers")
                      None None None None.

Definition delete_task_zero : DeleteTaskRequest :=
  mkDeleteTaskRequest (uuid_of_nat 0).

(** A subscription to the first task of [two_tasks] only. *)
Definition subscribe_task_zero : SubscribeTaskUpdatesRequest :=
  mkSubscribeTaskUpdatesRequest "admin" (Some [uuid_of_nat 0]).

Definition one_listed_session : World :=
  after (SubscribeTaskUpdates demo (authorized 1 subscribe_task_zero)) two_tasks.

Definition retitle_both : list mutation :=
  [Update (uuid_of_nat 0) retitle; Update (uuid_of_nat 1) retitle].

(** The event the first mutation of [retitle_both] broadcasts in
    [one_listed_session]. *)
Definition task_zero_retitled : TaskUpdate :=
  mkTaskUpdate UPDATED
    (merge task_zero retitle (clock demo (clock_reads one_listed_session)))
    (clock demo (S (clock_reads one_listed_session))).

(** A task created, changed and deleted. *)
Definition short_life : list mutation :=
  [Create (sample_data "Task 0"); Update (uuid_of_nat 0) retitle;
   Delete (uuid_of_nat 0)].

(** Libraries that hash without salt and sign without time stamp. *)
Definition demo_libs : Accounts.Libs :=
  Accounts.mkLibs
    (fun _ password => "bcrypt:" ++ password)
    (fun password hashed => String.eqb hashed ("bcrypt:" ++ password))
    (fun _ i _ => "access." ++ i)
    (fun _ i _ => "refresh." ++ i)
    (fun _ => 1700003600%Z)
    (fun _ => None).

Definition no_users : Accounts.Server := Accounts.mkServer empty_world [] 0 0.

Definition register_alice : Accounts.CreateUserRequest :=
  Accounts.mkCreateUserRequest (Some "alice") (Some "secret")
                               (Some "alice@example.com") (Some "Alice").

Definition register_alice_again : Accounts.CreateUserRequest :=
  Accounts.mkCreateUserRequest (Some "alice") (Some "other")
                               (Some "alice@example.org") (Some "Alice Two").

Definition alice : Accounts.NewUser :=
  Accounts.mkNewUser "alice" "secret" "alice@example.com" "Alice".

Definition second_alice : Accounts.NewUser :=
  Accounts.mkNewUser "alice" "other" "alice@example.org" "Alice Two".

(** The user [CreateUser] answers [register_alice] with on [no_users]. *)
Definition alice_user : Accounts.User :=
  Accounts.mkUser (uuid_of_nat 0) "alice" "alice@example.com" "Alice" 1700000000001.

(** The server after [register_alice]. *)
Definition one_user : Accounts.Server :=
  snd (Accounts.CreateUser demo demo_libs register_alice no_users).

(** User data handed to [createUser] directly, with a name in use. *)
Definition impostor : Accounts.StoredUser :=
  Accounts.mkStoredUser EmptyString "alice" "mallory@example.com" "Mallory" 0
                        "bcrypt:guess".

(** Three subscribers, the second on a stream whose write raises. *)
Definition chat_room : Chat.Service := Chat.mkService [1; 2; 3] [2] [] 0.

Definition greeting : Chat.ChatMessage :=
  Chat.mkChatMessage "alice" "hello" 1700000000000.

Definition two_lines : list Chat.Incoming :=
  [Chat.mkIncoming (Some "alice") (Some "hello") (Some 5%Z);
   Chat.mkIncoming None None None].

(* ================================================================== *)
(** ** Facts about the containers *)
(* ================================================================== *)

Section MapFacts.
Context {V : Type}.
Implicit Types (m : list (string * V)) (k : string) (v : V).

Lemma get_set_eq k v m : JsMap.get k (JsMap.set k v m) = Some v.
Proof.
  induction m as [|[k' v'] m IH]; simpl.
  - now rewrite String.eqb_refl.
  - destruct (String.eqb k k') eqn:E; simpl.
    + now rewrite String.eqb_refl.
    + now rewrite E.
Qed.

Lemma get_set_ne k k' v m :
  k <> k' -> JsMap.get k' (JsMap.set k v m) = JsMap.get k' m.
Proof.
  intros Hne. induction m as [|[k0 v0] m IH]; simpl.
  - destruct (String.eqb k' k) eqn:E; [|reflexivity].
    apply String.eqb_eq in E. congruence.
  - destruct (String.eqb k k0) eqn:E; simpl.
    + apply String.eqb_eq in E. subst k0.
      destruct (String.eqb k' k) eqn:E'; [|reflexivity].
      apply String.eqb_eq in E'. congruence.
    + now rewrite IH.
Qed.

Lemma get_None_not_key k m : JsMap.get k m = None <-> ~ In k (JsMap.keys m).
Proof.
  induction m as [|[k' v'] m IH]; simpl.
  - tauto.
  - destruct (String.eqb k k') eqn:E.
    + apply String.eqb_eq in E. subst. split; [discriminate | tauto].
    + apply String.eqb_neq in E. rewrite IH. split.
      * intros H [H1|H1]; [congruence | tauto].
      * tauto.
Qed.

Lemma get_Some_In k v m : JsMap.get k m = Some v -> In (k, v) m.
Proof.
  induction m as [|[k' v'] m IH]; simpl; [discriminate|].
  destruct (String.eqb k k') eqn:E.
  - apply String.eqb_eq in E. intros [= ->]. subst. now left.
  - intros H. right. now apply IH.
Qed.

Lemma In_get_wf k v m : JsMap.wf m -> In (k, v) m -> JsMap.get k m = Some v.
Proof.
  unfold JsMap.wf, JsMap.keys.
  induction m as [|[k' v'] m IH]; simpl; [tauto|].
  intros Hnd [H|H].
  - injection H as -> ->. now rewrite String.eqb_refl.
  - inversion Hnd as [|? ? Hk Hnd']; subst.
    destruct (String.eqb k k') eqn:E.
    + apply String.eqb_eq in E. subst k'. exfalso. apply Hk.
      change k with (fst (k, v)). now apply in_map.
    + now apply IH.
Qed.

Lemma keys_set_present k v m :
  In k (JsMap.keys m) -> JsMap.keys (JsMap.set k v m) = JsMap.keys m.
Proof.
  unfold JsMap.keys. induction m as [|[k' v'] m IH]; simpl; [tauto|].
  intros H. destruct (String.eqb k k') eqn:E; simpl.
  - apply String.eqb_eq in E. now subst.
  - f_equal. apply IH. destruct H as [H|H]; [|exact H].
    apply String.eqb_neq in E. congruence.
Qed.

Lemma keys_set_absent k v m :
  ~ In k (JsMap.keys m) -> JsMap.keys (JsMap.set k v m) = (JsMap.keys m ++ [k])%list.
Proof.
  unfold JsMap.keys. induction m as [|[k' v'] m IH]; simpl; [reflexivity|].
  intros H. destruct (String.eqb k k') eqn:E; simpl.
  - apply String.eqb_eq in E. subst. tauto.
  - f_equal. apply IH. tauto.
Qed.

Lemma wf_set k v m : JsMap.wf m -> JsMap.wf (JsMap.set k v m).
Proof.
  unfold JsMap.wf. intros Hwf.
  destruct (in_dec string_dec k (JsMap.keys m)) as [Hin|Hnin].
  - now rewrite keys_set_present.
  - rewrite keys_set_absent by assumption.
    apply NoDup_app; [assumption | repeat constructor; simpl; tauto |].
    intros x Hx [<-|[]]. tauto.
Qed.

Lemma In_delete k k' v m : In (k', v) (JsMap.delete k m) -> In (k', v) m.
Proof.
  induction m as [|[k0 v0] m IH]; simpl; [tauto|].
  destruct (String.eqb k k0); simpl; [tauto|].
  intros [H|H]; [now left | right; now apply IH].
Qed.

Lemma keys_delete_not_in k m : JsMap.wf m -> ~ In k (JsMap.keys (JsMap.delete k m)).
Proof.
  unfold JsMap.wf, JsMap.keys. induction m as [|[k0 v0] m IH]; simpl; [tauto|].
  intros Hnd. inversion Hnd as [|? ? Hk Hnd']; subst.
  destruct (String.eqb k k0) eqn:E; simpl.
  - apply String.eqb_eq in E. now subst.
  - apply String.eqb_neq in E. intros [H|H]; [congruence|]. now apply IH.
Qed.

Lemma wf_delete k m : JsMap.wf m -> JsMap.wf (JsMap.delete k m).
Proof.
  unfold JsMap.wf, JsMap.keys. induction m as [|[k0 v0] m IH]; simpl; [constructor|].
  intros Hnd. inversion Hnd as [|? ? Hk Hnd']; subst.
  destruct (String.eqb k k0); simpl; [assumption|].
  constructor; [|now apply IH].
  intros Hin. apply Hk. apply in_map_iff in Hin as [[k1 v1] [Hf Hin]].
  simpl in Hf. subst k1. apply In_delete in Hin.
  change k0 with (fst (k0, v1)). now apply in_map.
Qed.

End MapFacts.

(* ================================================================== *)
(** ** What a broadcast does *)
(* ================================================================== *)

Lemma add_wire_nil w : add_wire [] w = w.
Proof. destruct w. unfold add_wire. simpl. now rewrite app_nil_r. Qed.

Lemma add_wire_app a b w : add_wire (a ++ b) w = add_wire b (add_wire a w).
Proof. unfold add_wire. simpl. now rewrite app_assoc. Qed.

Lemma broken_add_wire ms w : broken (add_wire ms w) = broken w.
Proof. reflexivity. Qed.

Lemma deliver_app bs u a b :
  deliver bs u (a ++ b) =
  match snd (deliver bs u a) with
  | None => ((fst (deliver bs u a) ++ fst (deliver bs u b))%list, snd (deliver bs u b))
  | Some e => deliver bs u a
  end.
Proof.
  induction a as [|[c|c] a IH]; simpl.
  - now destruct (deliver bs u b).
  - destruct (is_broken bs c); [exact IH|]. rewrite IH.
    destruct (deliver bs u a) as [ms [e|]]; reflexivity.
  - destruct (is_broken bs c); [reflexivity|]. rewrite IH.
    destruct (deliver bs u a) as [ms [e|]]; reflexivity.
Qed.

(** [subscribers.forEach(callback => callback(update))]. *)
Lemma for_each_invoke u cbs w :
  for_each (fun cb => invoke cb u) cbs w =
  (outcome_of (snd (deliver (broken w) u cbs)),
   add_wire (fst (deliver (broken w) u cbs)) w).
Proof.
  revert w. induction cbs as [|[c|c] cbs IH]; intros w; simpl.
  - now rewrite add_wire_nil.
  - unfold bind, invoke, try_catch, stream_write.
    destruct (is_broken (broken w) c) eqn:E; simpl.
    + apply IH.
    + rewrite IH. simpl. f_equal.
      unfold add_wire. simpl. now rewrite <- app_assoc.
  - unfold bind, invoke, stream_write.
    destruct (is_broken (broken w) c) eqn:E; simpl.
    + now rewrite add_wire_nil.
    + rewrite IH. simpl. f_equal.
      unfold add_wire. simpl. now rewrite <- app_assoc.
Qed.

Lemma key_matches_unfold key task_id :
  key_matches key task_id =
  if negb (Js.includes_char ":" key) then true
  else match nth_error (Js.split ":" key) 1 with
       | Some taskIds =>
           Js.truthy taskIds && Js.array_includes (Js.split "," taskIds) task_id
       | None => false
       end.
Proof. reflexivity. Qed.

(** The loop of [notifyTaskUpdate] over the entries of the subscriber
    map calls exactly the callbacks of [targets], in that order. *)
Lemma for_each_entries u task_id r w :
  for_each
    (fun entry : string * list callback =>
       let (key, subscribers) := entry in
       if negb (Js.includes_char ":" key) then
         for_each (fun cb => invoke cb u) subscribers
       else
         match nth_error (Js.split ":" key) 1 with
         | Some taskIds =>
             if Js.truthy taskIds && Js.array_includes (Js.split "," taskIds) task_id
             then for_each (fun cb => invoke cb u) subscribers
             else ret tt
         | None => ret tt
         end) r w =
  (outcome_of (snd (deliver (broken w) u (map snd (targets r task_id)))),
   add_wire (fst (deliver (broken w) u (map snd (targets r task_id)))) w).
Proof.
  revert w. induction r as [|[key subs] r IH]; intros w.
  - simpl. now rewrite add_wire_nil.
  - assert (Hskip : forall w0 (c : M unit),
      c = for_each
        (fun entry : string * list callback =>
           let (key, subscribers) := entry in
           if negb (Js.includes_char ":" key) then
             for_each (fun cb => invoke cb u) subscribers
           else
             match nth_error (Js.split ":" key) 1 with
             | Some taskIds =>
                 if Js.truthy taskIds && Js.array_includes (Js.split "," taskIds) task_id
                 then for_each (fun cb => invoke cb u) subscribers
                 else ret tt
             | None => ret tt
             end) r ->
      bind (ret tt) (fun _ => c) w0 =
      (outcome_of (snd (deliver (broken w0) u (map snd ([] ++ targets r task_id)))),
       add_wire (fst (deliver (broken w0) u (map snd ([] ++ targets r task_id)))) w0)).
    { intros w0 c ->. unfold bind, ret. apply IH. }
    assert (Hcall : forall w0 (c : M unit),
      c = for_each
        (fun entry : string * list callback =>
           let (key, subscribers) := entry in
           if negb (Js.includes_char ":" key) then
             for_each (fun cb => invoke cb u) subscribers
           else
             match nth_error (Js.split ":" key) 1 with
             | Some taskIds =>
                 if Js.truthy taskIds && Js.array_includes (Js.split "," taskIds) task_id
                 then for_each (fun cb => invoke cb u) subscribers
                 else ret tt
             | None => ret tt
             end) r ->
      bind (for_each (fun cb => invoke cb u) subs) (fun _ => c) w0 =
      (outcome_of (snd (deliver (broken w0) u
         (map snd (map (fun cb => (key, cb)) subs ++ targets r task_id)))),
       add_wire (fst (deliver (broken w0) u
         (map snd (map (fun cb => (key, cb)) subs ++ targets r task_id)))) w0)).
    { intros w0 c ->. unfold bind.
      rewrite for_each_invoke, map_app, map_map. cbn [snd].
      rewrite map_id, deliver_app.
      destruct (snd (deliver (broken w0) u subs)) eqn:E; simpl.
      - now rewrite E.
      - rewrite IH. rewrite broken_add_wire. simpl. now rewrite add_wire_app. }
    cbn [for_each targets flat_map fst snd]. fold (targets r task_id).
    rewrite key_matches_unfold.
    destruct (negb (Js.includes_char ":" key)).
    + now apply Hcall.
    + destruct (nth_error (Js.split ":" key) 1) as [taskIds|].
      * destruct (Js.truthy taskIds && Js.array_includes (Js.split "," taskIds) task_id).
        -- now apply Hcall.
        -- now apply Hskip.
      * now apply Hskip.
Qed.

(** Which subscriptions a broadcast calls. *)
Lemma In_targets key cb r task_id :
  In (key, cb) (targets r task_id) <->
  (exists subscribers, In (key, subscribers) r /\ In cb subscribers) /\
  key_matches key task_id = true.
Proof.
  unfold targets. rewrite in_flat_map. split.
  - intros [[k subs] [Hin Hc]]. simpl in Hc.
    destruct (key_matches k task_id) eqn:E; [|destruct Hc].
    apply in_map_iff in Hc as [cb' [[= <- <-] Hcb]].
    split; [now exists subs | exact E].
  - intros [[subs [Hin Hcb]] Hm]. exists (key, subs). split; [exact Hin|].
    simpl. rewrite Hm. apply in_map_iff. now exists cb.
Qed.

(** Session sinks never throw: a broken stream is skipped, a healthy
    one gets the update, and the run goes on to the end. *)
Lemma deliver_session_sinks bs u cbs :
  (forall cb, In cb cbs -> is_session_sink cb = true) ->
  deliver bs u cbs =
  (map (fun cb => (stream_of cb, u))
       (filter (fun cb => negb (is_broken bs (stream_of cb))) cbs),
   None).
Proof.
  induction cbs as [|[c|c] cbs IH]; intros Hall; simpl.
  - reflexivity.
  - rewrite IH by (intros cb Hcb; apply Hall; now right).
    now destruct (is_broken bs c).
  - specialize (Hall (RawSink c) (or_introl eq_refl)). discriminate.
Qed.

Lemma session_sinks_targets r task_id :
  session_sinks_only r ->
  forall cb, In cb (map snd (targets r task_id)) -> is_session_sink cb = true.
Proof.
  intros Hs cb Hin. apply in_map_iff in Hin as [[key cb'] [<- Hin]].
  apply In_targets in Hin as [[subs [H1 H2]] _].
  unfold session_sinks_only in Hs. rewrite forallb_forall in Hs.
  specialize (Hs (key, subs) H1). simpl in Hs.
  rewrite forallb_forall in Hs. now apply Hs.
Qed.

(** A raw callback on a broken stream ends the run where it stands. *)
Lemma deliver_raw_broken bs u c rest :
  is_broken bs c = true ->
  deliver bs u (RawSink c :: rest) = ([], Some (WriteError c)).
Proof. intros H. simpl. now rewrite H. Qed.

Section Broadcast.
Variable P : Platform.

(** [notifyTaskUpdate] reads the clock once, calls the callbacks of
    [targets] in order, and stops at the first that throws. *)
Lemma notifyTaskUpdate_run ty t w :
  let u := mkTaskUpdate ty t (clock P (clock_reads w)) in
  let d := deliver (broken w) u
             (map snd (targets (taskUpdateSubscribers (dataStore w)) (id t))) in
  notifyTaskUpdate P ty t w = (outcome_of (snd d), add_wire (fst d) (tick w)).
Proof.
  intros u d. unfold notifyTaskUpdate, bind, new_Date, gets. simpl.
  fold (tick w).
  exact (for_each_entries u (id t) (taskUpdateSubscribers (dataStore w)) (tick w)).
Qed.

Lemma notifyTaskUpdate_dataStore ty t w :
  dataStore (after (notifyTaskUpdate P ty t) w) = dataStore w.
Proof. unfold after. now rewrite notifyTaskUpdate_run. Qed.

Lemma notifyTaskUpdate_frame ty t w :
  let w' := after (notifyTaskUpdate P ty t) w in
  uuid_draws w' = uuid_draws w /\ clock_reads w' = S (clock_reads w) /\
  broken w' = broken w /\ listeners w' = listeners w /\ ended w' = ended w.
Proof. unfold after. rewrite notifyTaskUpdate_run. simpl. tauto. Qed.

(** [createTask]: the record is stored before the broadcast, and the
    call returns it unless the broadcast throws. *)
Lemma createTask_run data w :
  let t := created_task P data w in
  let w1 := with_tasks (JsMap.set (id t) t (tasks (dataStore w)))
              (tick (tick (drawn w))) in
  createTask P data w =
  (match fst (notifyTaskUpdate P CREATED t w1) with
   | Returned _ => Returned t
   | Thrown e => Thrown e
   end,
   after (notifyTaskUpdate P CREATED t) w1).
Proof.
  intros t w1. subst t w1.
  unfold createTask, bind, draw_uuid, new_Date, modify, ret, after,
    created_task, with_tasks, with_dataStore, tick, drawn.
  simpl.
  now destruct (notifyTaskUpdate P CREATED _ _) as [[[]|e] w2].
Qed.

Lemma updateTask_run i updates w t :
  JsMap.get i (tasks (dataStore w)) = Some t ->
  let updatedTask := merge t updates (clock P (clock_reads w)) in
  let w1 := with_tasks (JsMap.set i updatedTask (tasks (dataStore w))) (tick w) in
  updateTask P i updates w =
  (match fst (notifyTaskUpdate P UPDATED updatedTask w1) with
   | Returned _ => Returned (Some updatedTask)
   | Thrown e => Thrown e
   end,
   after (notifyTaskUpdate P UPDATED updatedTask) w1).
Proof.
  intros Hget m w1. subst m w1.
  unfold updateTask, bind, gets, new_Date, modify, ret, after,
    with_tasks, with_dataStore, tick.
  rewrite Hget. simpl.
  now destruct (notifyTaskUpdate P UPDATED _ _) as [[[]|e] w2].
Qed.

Lemma updateTask_absent i updates w :
  JsMap.get i (tasks (dataStore w)) = None ->
  updateTask P i updates w = (Returned None, w).
Proof.
  intros Hget. unfold updateTask, bind, gets, ret. now rewrite Hget.
Qed.

Lemma deleteTask_run i w t :
  JsMap.get i (tasks (dataStore w)) = Some t ->
  let w1 := with_tasks (JsMap.delete i (tasks (dataStore w))) w in
  deleteTask P i w =
  (match fst (notifyTaskUpdate P DELETED t w1) with
   | Returned _ => Returned true
   | Thrown e => Thrown e
   end,
   after (notifyTaskUpdate P DELETED t) w1).
Proof.
  intros Hget w1. subst w1.
  unfold deleteTask, bind, gets, modify, ret, after, with_tasks, with_dataStore.
  rewrite Hget. simpl.
  now destruct (notifyTaskUpdate P DELETED _ _) as [[[]|e] w2].
Qed.

Lemma deleteTask_absent i w :
  JsMap.get i (tasks (dataStore w)) = None ->
  deleteTask P i w = (Returned false, w).
Proof.
  intros Hget. unfold deleteTask, bind, gets, ret. now rewrite Hget.
Qed.

(** No store mutation touches the subscriber map, the set of broken
    streams or the listeners. *)
Lemma mutate_registry m w :
  taskUpdateSubscribers (dataStore (mutate P m w)) =
  taskUpdateSubscribers (dataStore w) /\
  broken (mutate P m w) = broken w.
Proof.
  destruct m as [data|i updates|i]; unfold mutate, after.
  - rewrite createTask_run. cbn [snd].
    rewrite notifyTaskUpdate_dataStore.
    now destruct (notifyTaskUpdate_frame CREATED (created_task P data w)
      (with_tasks (JsMap.set (id (created_task P data w)) (created_task P data w)
         (tasks (dataStore w))) (tick (tick (drawn w))))) as (_ & _ & -> & _).
  - destruct (JsMap.get i (tasks (dataStore w))) as [t|] eqn:Hget.
    + rewrite (updateTask_run i updates w t Hget). cbn [snd].
      rewrite notifyTaskUpdate_dataStore.
      now destruct (notifyTaskUpdate_frame UPDATED
        (merge t updates (clock P (clock_reads w)))
        (with_tasks (JsMap.set i (merge t updates (clock P (clock_reads w)))
           (tasks (dataStore w))) (tick w))) as (_ & _ & -> & _).
    + now rewrite updateTask_absent.
  - destruct (JsMap.get i (tasks (dataStore w))) as [t|] eqn:Hget.
    + rewrite (deleteTask_run i w t Hget). cbn [snd].
      rewrite notifyTaskUpdate_dataStore.
      now destruct (notifyTaskUpdate_frame DELETED t
        (with_tasks (JsMap.delete i (tasks (dataStore w))) w)) as (_ & _ & -> & _).
    + now rewrite deleteTask_absent.
Qed.

End Broadcast.

(* ================================================================== *)
(** ** The record store behind the unary handlers *)
(* ================================================================== *)

Section RecordStore.
Variable P : Platform.

Lemma authenticateCall_rejected {R : Type} (call : Call R) :
  credential_absent call \/ credential_unverified P call ->
  authenticateCall P call = None.
Proof.
  unfold credential_absent, credential_unverified, authenticateCall.
  intros [[H|H]|[token [H Hv]]]; rewrite H; try reflexivity.
  rewrite Hv. now destruct (Js.truthy token).
Qed.

(** C5. A [CreateTask] call whose credential is absent or does not
    verify is answered UNAUTHENTICATED, and the world after it is the
    world before it: the same task map (no record added), the same
    number of identifiers drawn, the same messages on the wire (no
    event broadcast), and the same total count for every listing. *)
Theorem CreateTask_unauthenticated_no_mutation (call : Call CreateTaskRequest) w :
  credential_absent call \/ credential_unverified P call ->
  let r := CreateTask P call w in
  fst r = Returned (Err authentication_required) /\
  code authentication_required = UNAUTHENTICATED /\
  snd r = w /\
  tasks (dataStore (snd r)) = tasks (dataStore w) /\
  uuid_draws (snd r) = uuid_draws w /\
  wire (snd r) = wire w /\
  forall f, resp_total_count (listTasks f (dataStore (snd r))) =
            resp_total_count (listTasks f (dataStore w)).
Proof.
  intros Hrej r.
  assert (Hr : r = (Returned (Err authentication_required), w)).
  { subst r. unfold CreateTask, try_catch.
    now rewrite (authenticateCall_rejected call Hrej). }
  rewrite Hr. simpl. repeat split; reflexivity.
Qed.

(** The record a successful [CreateTask] answers with, and where it
    is stored. *)
Lemma CreateTask_success (call : Call CreateTaskRequest) w t w' :
  CreateTask P call w = (Returned (Ok t), w') ->
  exists user title description,
    authenticateCall P call = Some user /\
    cr_title (request call) = Some title /\
    cr_description (request call) = Some description /\
    t = created_task P
          (mkTaskData title description PENDING
             (or_else (cr_priority (request call)) MEDIUM)
             (Js.str_or (cr_assignee_id (request call)) (user_id user))
             (cr_due_date (request call))
             (or_else (cr_tags (request call)) [])) w /\
    tasks (dataStore w') = JsMap.set (id t) t (tasks (dataStore w)).
Proof.
  unfold CreateTask, try_catch.
  destruct (authenticateCall P call) as [user|]; [|discriminate].
  destruct (cr_title (request call)) as [ti|]; [|discriminate].
  destruct (cr_description (request call)) as [de|]; [|discriminate].
  destruct (negb (Js.truthy ti) || negb (Js.truthy de)); [discriminate|].
  unfold bind. rewrite createTask_run.
  set (data := mkTaskData ti de PENDING _ _ _ _).
  set (t0 := created_task P data w).
  set (w1 := with_tasks _ _).
  pose proof (notifyTaskUpdate_dataStore P CREATED t0 w1) as Hds.
  unfold after in *.
  destruct (notifyTaskUpdate P CREATED t0 w1) as [[[]|e] w2]; simpl in *;
    [|discriminate].
  intros [= <- <-]. exists user, ti, de. repeat split; try reflexivity.
  now rewrite Hds.
Qed.

(** C10. A successful [CreateTask] stores a record whose status is
    PENDING whatever the request holds, whose priority is the
    requested one, or MEDIUM when the request has none, and whose tags
    are the requested ones, or none when the request has no tag
    list. *)
Theorem CreateTask_initial_status_priority_tags (call : Call CreateTaskRequest) w t w' :
  CreateTask P call w = (Returned (Ok t), w') ->
  getTask (id t) (dataStore w') = Some t /\
  status t = PENDING /\
  priority t = match cr_priority (request call) with
               | Some p => p
               | None => MEDIUM
               end /\
  tags t = match cr_tags (request call) with
           | Some l => l
           | None => []
           end.
Proof.
  intros H. apply CreateTask_success in H
    as (user & ti & de & _ & _ & _ & Ht & Hst).
  unfold getTask. rewrite Hst, get_set_eq. subst t. simpl.
  repeat split.
Qed.

End RecordStore.

(* ================================================================== *)
(** ** Delivery failures *)
(* ================================================================== *)

Section DeliveryFailure.
Variable P : Platform.

Lemma notifyTaskUpdate_session_sinks ty t w :
  session_sinks_only (taskUpdateSubscribers (dataStore w)) ->
  notifyTaskUpdate P ty t w =
  (Returned tt,
   add_wire
     (map (fun cb => (stream_of cb, mkTaskUpdate ty t (clock P (clock_reads w))))
        (filter (fun cb => negb (is_broken (broken w) (stream_of cb)))
           (map snd (targets (taskUpdateSubscribers (dataStore w)) (id t)))))
     (tick w)).
Proof.
  intros Hs. rewrite notifyTaskUpdate_run.
  rewrite deliver_session_sinks by now apply session_sinks_targets.
  reflexivity.
Qed.

Lemma createTask_completes data w :
  session_sinks_only (taskUpdateSubscribers (dataStore w)) ->
  fst (createTask P data w) = Returned (created_task P data w).
Proof.
  intros Hs. rewrite createTask_run. cbn [fst].
  now rewrite notifyTaskUpdate_session_sinks.
Qed.

Lemma updateTask_completes i updates w t :
  JsMap.get i (tasks (dataStore w)) = Some t ->
  session_sinks_only (taskUpdateSubscribers (dataStore w)) ->
  fst (updateTask P i updates w) =
  Returned (Some (merge t updates (clock P (clock_reads w)))).
Proof.
  intros Hget Hs. rewrite (updateTask_run P i updates w t Hget). cbn [fst].
  now rewrite notifyTaskUpdate_session_sinks.
Qed.

Lemma deleteTask_completes i w :
  session_sinks_only (taskUpdateSubscribers (dataStore w)) ->
  completes (deleteTask P i) w.
Proof.
  intros Hs. unfold completes.
  destruct (JsMap.get i (tasks (dataStore w))) as [t|] eqn:Hget.
  - rewrite (deleteTask_run P i w t Hget). cbn [fst].
    rewrite notifyTaskUpdate_session_sinks by exact Hs. now exists true.
  - rewrite deleteTask_absent by exact Hget. now exists false.
Qed.

(** C2 (as amended). When the registered callbacks are the sinks of
    streaming sessions, a write that fails is caught inside the sink:
    the broadcast returns normally, so nothing reaches the mutation
    that triggered it ([createTask], [updateTask] and [deleteTask]
    return); every matching subscription whose stream is healthy gets
    the event, in registration order, whatever failed before it; and
    the broadcast leaves the store and its subscriber map as they
    were, so the subscription whose write failed stays registered. *)
Theorem broadcast_failure_is_caught_not_dropped ty t w :
  session_sinks_only (taskUpdateSubscribers (dataStore w)) ->
  let u := mkTaskUpdate ty t (clock P (clock_reads w)) in
  let r := notifyTaskUpdate P ty t w in
  fst r = Returned tt /\
  wire (snd r) =
    (wire w ++
     map (fun cb => (stream_of cb, u))
       (filter (fun cb => negb (is_broken (broken w) (stream_of cb)))
          (map snd (targets (taskUpdateSubscribers (dataStore w)) (id t)))))%list /\
  dataStore (snd r) = dataStore w /\
  (forall key cb,
      registered key cb (taskUpdateSubscribers (dataStore w)) ->
      registered key cb (taskUpdateSubscribers (dataStore (snd r)))) /\
  (forall data, completes (createTask P data) w) /\
  (forall i updates, completes (updateTask P i updates) w) /\
  (forall i, completes (deleteTask P i) w).
Proof.
  intros Hs u r. subst r u.
  rewrite notifyTaskUpdate_session_sinks by exact Hs. cbn [fst snd].
  repeat split.
  - intros key cb H. exact H.
  - intros data. unfold completes. rewrite createTask_completes by exact Hs.
    now eexists.
  - intros i updates. unfold completes.
    destruct (JsMap.get i (tasks (dataStore w))) as [t0|] eqn:Hget.
    + rewrite (updateTask_completes i updates w t0 Hget Hs). now eexists.
    + rewrite updateTask_absent by exact Hget. now eexists.
  - intros i. now apply deleteTask_completes.
Qed.

End DeliveryFailure.

(* ================================================================== *)
(** ** Opening a streaming session *)
(* ================================================================== *)

Lemma register_registered key cb r : registered key cb (register key cb r).
Proof.
  unfold register, registered.
  set (r1 := if negb (JsMap.has key r) then JsMap.set key [] r else r).
  assert (Hex : exists subs, JsMap.get key r1 = Some subs).
  { subst r1. unfold JsMap.has.
    destruct (JsMap.get key r) as [subs|] eqn:E; simpl.
    - now exists subs.
    - exists []. apply get_set_eq. }
  destruct Hex as [subs Hsubs]. rewrite Hsubs.
  exists (JsSet.add cb subs). split.
  - apply get_Some_In. apply get_set_eq.
  - unfold JsSet.add, JsSet.has.
    destruct (existsb (callback_eqb cb) subs) eqn:E.
    + apply existsb_exists in E as [x [Hx Heq]].
      assert (cb = x) as ->; [|exact Hx].
      destruct cb, x; simpl in Heq; try discriminate;
        apply Nat.eqb_eq in Heq; now subst.
    + apply in_or_app. right. now left.
Qed.

Lemma written_since_app w ms w' :
  wire w' = (wire w ++ ms)%list -> written_since w w' = ms.
Proof.
  intros H. unfold written_since. rewrite H.
  rewrite skipn_app, skipn_all, Nat.sub_diag. reflexivity.
Qed.

Section Session.
Variable P : Platform.

Lemma SubscribeTaskUpdates_run (call : Call SubscribeTaskUpdatesRequest) w user :
  authenticateCall P call = Some user ->
  SubscribeTaskUpdates P call w =
  if is_broken (broken w) (call_id call)
  then call_emit_error (call_id call) internal_server_error
         (registered_world call user w)
  else
    (Returned tt,
     add_wire
       [(call_id call,
         mkTaskUpdate CREATED
           (connection_task (user_id user) (clock P (clock_reads w))
              (clock P (S (clock_reads w))))
           (clock P (S (S (clock_reads w)))))]
       (registered_world call user w)).
Proof.
  intros Hauth. unfold SubscribeTaskUpdates, try_catch. rewrite Hauth.
  destruct w as [[ts subs] draws reads out bs ls en].
  unfold registered_world, add_wire. cbn [broken].
  destruct (is_broken bs (call_id call)) eqn:Hb.
  - cbv [bind subscribeToTaskUpdates call_on new_Date stream_write modify ret
         with_subscribers with_dataStore broken clock_reads dataStore uuid_draws
         wire listeners ended tasks taskUpdateSubscribers].
    now rewrite Hb.
  - cbv [bind subscribeToTaskUpdates call_on new_Date stream_write modify ret
         with_subscribers with_dataStore broken clock_reads dataStore uuid_draws
         wire listeners ended tasks taskUpdateSubscribers].
    now rewrite Hb.
Qed.

(** C1 (as amended). An authenticated [SubscribeTaskUpdates] on a
    healthy stream files the session's sink in the subscriber map and
    then writes exactly one message to its stream: a CREATED event
    for the made-up task ['connection'], assigned to the caller and
    stamped with the next three clock readings. The message is the
    same whatever the store holds, no stored record is sent, and the
    task map is left as it was. *)
Theorem SubscribeTaskUpdates_registers_then_confirms
    (call : Call SubscribeTaskUpdatesRequest) w user :
  authenticateCall P call = Some user ->
  is_broken (broken w) (call_id call) = false ->
  let r := SubscribeTaskUpdates P call w in
  let key := subscription_key (user_id user) (sr_task_ids (request call)) in
  let confirmation :=
    mkTaskUpdate CREATED
      (connection_task (user_id user) (clock P (clock_reads w))
         (clock P (S (clock_reads w))))
      (clock P (S (S (clock_reads w)))) in
  fst r = Returned tt /\
  taskUpdateSubscribers (dataStore (snd r)) =
    register key (SessionSink (call_id call)) (taskUpdateSubscribers (dataStore w)) /\
  registered key (SessionSink (call_id call))
    (taskUpdateSubscribers (dataStore (snd r))) /\
  written_since w (snd r) = [(call_id call, confirmation)] /\
  id (task confirmation) = "connection" /\
  tasks (dataStore (snd r)) = tasks (dataStore w).
Proof.
  intros Hauth Hok r key confirmation. subst r.
  rewrite (SubscribeTaskUpdates_run call w user Hauth), Hok.
  cbn [fst snd]. unfold add_wire, registered_world.
  cbn [dataStore taskUpdateSubscribers tasks wire].
  repeat split.
  - apply register_registered.
  - now apply written_since_app.
Qed.

End Session.

(* ================================================================== *)
(** ** Streams that stay silent *)
(* ================================================================== *)

Lemma deliver_streams bs u cbs c u' :
  In (c, u') (fst (deliver bs u cbs)) ->
  exists cb, In cb cbs /\ stream_of cb = c.
Proof.
  induction cbs as [|[c0|c0] cbs IH]; simpl; [tauto| |].
  - destruct (is_broken bs c0).
    + intros H. destruct (IH H) as [cb [H1 H2]]. exists cb. tauto.
    + simpl. intros [[= <- _]|H].
      * exists (SessionSink c0). tauto.
      * destruct (IH H) as [cb [H1 H2]]. exists cb. tauto.
  - destruct (is_broken bs c0); simpl; [tauto|].
    intros [[= <- _]|H].
    + exists (RawSink c0). tauto.
    + destruct (IH H) as [cb [H1 H2]]. exists cb. tauto.
Qed.

Lemma received_add_wire_silent c ms w :
  (forall m, In m ms -> fst m <> c) ->
  received c (add_wire ms w) = received c w.
Proof.
  intros H. unfold received, add_wire. simpl. rewrite filter_app.
  replace (filter (fun m : nat * TaskUpdate => Nat.eqb (fst m) c) ms) with
    (@nil (nat * TaskUpdate)).
  - now rewrite app_nil_r.
  - symmetry. induction ms as [|m ms IH]; simpl; [reflexivity|].
    destruct (Nat.eqb (fst m) c) eqn:E.
    + apply Nat.eqb_eq in E. exfalso. apply (H m); [now left | exact E].
    + apply IH. intros m' Hm'. apply H. now right.
Qed.

Section Silence.
Variable P : Platform.

(** A stream none of whose subscriptions matches the task of an
    event gets nothing from its broadcast. *)
Lemma notifyTaskUpdate_silent c ty t w :
  (forall key, serves (taskUpdateSubscribers (dataStore w)) c key ->
               key_matches key (id t) = false) ->
  received c (after (notifyTaskUpdate P ty t) w) = received c w.
Proof.
  intros Hq. unfold after. rewrite notifyTaskUpdate_run. cbn [snd].
  rewrite received_add_wire_silent; [reflexivity|].
  intros [c' u'] Hin Heq. simpl in Heq. subst c'.
  apply deliver_streams in Hin as [cb [Hcb Hs]].
  apply in_map_iff in Hcb as [[key cb'] [Hsnd Hin]]. simpl in Hsnd. subst cb'.
  apply In_targets in Hin as [[subs [H1 H2]] Hm].
  rewrite Hq in Hm; [discriminate|]. now exists subs, cb.
Qed.

Lemma mutate_silent c m w :
  (forall key task_id,
      serves (taskUpdateSubscribers (dataStore w)) c key ->
      key_matches key task_id = false) ->
  received c (mutate P m w) = received c w.
Proof.
  intros Hq. destruct m as [data|i updates|i]; unfold mutate, after.
  - rewrite createTask_run. cbn [snd].
    rewrite notifyTaskUpdate_silent; [reflexivity|].
    intros key. apply Hq.
  - destruct (JsMap.get i (tasks (dataStore w))) as [t|] eqn:Hget.
    + rewrite (updateTask_run P i updates w t Hget). cbn [snd].
      rewrite notifyTaskUpdate_silent; [reflexivity|].
      intros key. apply Hq.
    + now rewrite updateTask_absent.
  - destruct (JsMap.get i (tasks (dataStore w))) as [t|] eqn:Hget.
    + rewrite (deleteTask_run P i w t Hget). cbn [snd].
      rewrite notifyTaskUpdate_silent; [reflexivity|].
      intros key. apply Hq.
    + now rewrite deleteTask_absent.
Qed.

Lemma mutate_all_registry ms w :
  taskUpdateSubscribers (dataStore (mutate_all P ms w)) =
  taskUpdateSubscribers (dataStore w).
Proof.
  unfold mutate_all. revert w. induction ms as [|m ms IH]; intros w; simpl.
  - reflexivity.
  - rewrite IH. apply mutate_registry.
Qed.

(** ... and from any sequence of store mutations. *)
Lemma mutate_all_silent c ms w :
  (forall key task_id,
      serves (taskUpdateSubscribers (dataStore w)) c key ->
      key_matches key task_id = false) ->
  received c (mutate_all P ms w) = received c w.
Proof.
  unfold mutate_all. revert w. induction ms as [|m ms IH]; intros w Hq; simpl.
  - reflexivity.
  - rewrite IH.
    + now apply mutate_silent.
    + intros key task_id Hs. apply Hq.
      now rewrite (proj1 (mutate_registry P m w)) in Hs.
Qed.

End Silence.

(* ================================================================== *)
(** ** Unsubscribing *)
(* ================================================================== *)

Lemma callback_eqb_eq a b : callback_eqb a b = true <-> a = b.
Proof.
  destruct a, b; simpl; split; intros H; try discriminate;
    try (apply Nat.eqb_eq in H; now subst);
    injection H as ->; apply Nat.eqb_refl.
Qed.

Lemma set_delete_not_in cb s : ~ In cb (JsSet.delete cb s).
Proof.
  unfold JsSet.delete. intros H. apply filter_In in H as [_ H].
  rewrite (proj2 (callback_eqb_eq cb cb) eq_refl) in H. discriminate.
Qed.

Lemma set_delete_idempotent cb s :
  JsSet.delete cb (JsSet.delete cb s) = JsSet.delete cb s.
Proof.
  unfold JsSet.delete. induction s as [|x s IH]; simpl; [reflexivity|].
  destruct (callback_eqb cb x) eqn:E; simpl; [exact IH|].
  rewrite E. simpl. now rewrite IH.
Qed.

Lemma map_set_set {V : Type} k (v : V) m :
  JsMap.set k v (JsMap.set k v m) = JsMap.set k v m.
Proof.
  induction m as [|[k' v'] m IH]; simpl.
  - now rewrite String.eqb_refl.
  - destruct (String.eqb k k') eqn:E; simpl.
    + now rewrite String.eqb_refl.
    + now rewrite E, IH.
Qed.

Lemma no_entry_after_delete {V : Type} k (v : V) m :
  JsMap.wf m -> ~ In (k, v) (JsMap.delete k m).
Proof.
  intros Hwf Hin. apply (keys_delete_not_in k m Hwf).
  unfold JsMap.keys. change k with (fst (k, v)). now apply in_map.
Qed.

Lemma unregister_wf key cb r : JsMap.wf r -> JsMap.wf (unregister key cb r).
Proof.
  intros Hwf. unfold unregister.
  destruct (JsMap.get key r) as [subs|]; [|exact Hwf].
  destruct (Nat.eqb (JsSet.size (JsSet.delete cb subs)) 0).
  - now apply wf_delete.
  - now apply wf_set.
Qed.

Lemma register_wf key cb r : JsMap.wf r -> JsMap.wf (register key cb r).
Proof.
  intros Hwf. unfold register.
  set (r1 := if negb (JsMap.has key r) then JsMap.set key [] r else r).
  assert (Hwf1 : JsMap.wf r1).
  { subst r1. destruct (negb (JsMap.has key r)); [now apply wf_set | exact Hwf]. }
  destruct (JsMap.get key r1); [now apply wf_set | exact Hwf1].
Qed.

Lemma unregister_not_registered key cb r :
  JsMap.wf r -> ~ registered key cb (unregister key cb r).
Proof.
  intros Hwf [subs' [Hin Hcb]]. unfold unregister in Hin.
  destruct (JsMap.get key r) as [subs|] eqn:Hget.
  - destruct (Nat.eqb (JsSet.size (JsSet.delete cb subs)) 0).
    + now apply (no_entry_after_delete key subs' r Hwf).
    + apply In_get_wf in Hin; [|now apply wf_set].
      rewrite get_set_eq in Hin. injection Hin as <-.
      now apply (set_delete_not_in cb subs).
  - apply get_None_not_key in Hget. apply Hget.
    unfold JsMap.keys. change key with (fst (key, subs')). now apply in_map.
Qed.

Lemma unregister_idempotent key cb r :
  JsMap.wf r -> unregister key cb (unregister key cb r) = unregister key cb r.
Proof.
  intros Hwf.
  destruct (JsMap.get key r) as [subs|] eqn:Hget.
  - destruct (Nat.eqb (JsSet.size (JsSet.delete cb subs)) 0) eqn:Hsz.
    + assert (E : unregister key cb r = JsMap.delete key r)
        by (unfold unregister; now rewrite Hget, Hsz).
      rewrite E. unfold unregister.
      assert (Hnone : JsMap.get key (JsMap.delete key r) = None).
      { apply get_None_not_key. now apply keys_delete_not_in. }
      now rewrite Hnone.
    + assert (E : unregister key cb r = JsMap.set key (JsSet.delete cb subs) r)
        by (unfold unregister; now rewrite Hget, Hsz).
      rewrite E. unfold unregister.
      rewrite get_set_eq, set_delete_idempotent, Hsz.
      apply map_set_set.
  - assert (E : unregister key cb r = r)
      by (unfold unregister; now rewrite Hget).
    now rewrite !E.
Qed.

(** Whatever is registered after an unsubscribe was registered
    before it. *)
Lemma unregister_registered_inv key cb key' cb' r :
  JsMap.wf r ->
  registered key' cb' (unregister key cb r) -> registered key' cb' r.
Proof.
  intros Hwf [subs' [Hin Hcb]]. unfold unregister in Hin.
  destruct (JsMap.get key r) as [subs|] eqn:Hget; [|now exists subs'].
  destruct (Nat.eqb (JsSet.size (JsSet.delete cb subs)) 0).
  - apply In_delete in Hin. now exists subs'.
  - destruct (string_dec key' key) as [->|Hne].
    + apply In_get_wf in Hin; [|now apply wf_set].
      rewrite get_set_eq in Hin. injection Hin as <-.
      exists subs. split; [now apply get_Some_In|].
      unfold JsSet.delete in Hcb. now apply filter_In in Hcb as [Hcb _].
    + apply In_get_wf in Hin; [|now apply wf_set].
      rewrite get_set_ne in Hin by congruence.
      exists subs'. split; [now apply get_Some_In | exact Hcb].
Qed.

Section Unsubscribe.
Variable P : Platform.

Lemma unsubscribe_run handle w :
  unsubscribe handle w =
  (Returned tt,
   with_subscribers
     (unregister (fst handle) (snd handle) (taskUpdateSubscribers (dataStore w))) w).
Proof. reflexivity. Qed.

Lemma unsubscribe_twice key cb w :
  JsMap.wf (taskUpdateSubscribers (dataStore w)) ->
  after (unsubscribe (key, cb)) (after (unsubscribe (key, cb)) w) =
  after (unsubscribe (key, cb)) w.
Proof.
  intros Hwf. unfold after. rewrite !unsubscribe_run. cbn [fst snd].
  unfold with_subscribers, with_dataStore. simpl.
  now rewrite unregister_idempotent.
Qed.

(** C8. The closure returned by [subscribeToTaskUpdates] never
    throws, in any world, so it can be run any number of times. Its
    first run removes the subscription: the callback is no longer
    filed under the key, no broadcast after any later store mutations
    calls it for that subscription, and when the callback's stream
    had no other subscription the stream receives nothing more.
    Running it again, any number of times, leaves the world exactly
    as the first run left it. *)
Theorem unsubscribe_idempotent key cb w :
  JsMap.wf (taskUpdateSubscribers (dataStore w)) ->
  let once := after (unsubscribe (key, cb)) w in
  (forall w0, fst (unsubscribe (key, cb) w0) = Returned tt) /\
  ~ registered key cb (taskUpdateSubscribers (dataStore once)) /\
  (forall ms task_id,
      ~ In (key, cb)
           (targets (taskUpdateSubscribers (dataStore (mutate_all P ms once))) task_id)) /\
  (forall n, Nat.iter (S n) (after (unsubscribe (key, cb))) w = once) /\
  ((forall key' cb',
       registered key' cb' (taskUpdateSubscribers (dataStore w)) ->
       stream_of cb' = stream_of cb -> key' = key /\ cb' = cb) ->
   forall ms,
     received (stream_of cb) (mutate_all P ms once) = received (stream_of cb) once).
Proof.
  intros Hwf once.
  assert (Hreg : taskUpdateSubscribers (dataStore once) =
                 unregister key cb (taskUpdateSubscribers (dataStore w))).
  { subst once. unfold after. now rewrite unsubscribe_run. }
  assert (Hgone : ~ registered key cb (taskUpdateSubscribers (dataStore once))).
  { rewrite Hreg. now apply unregister_not_registered. }
  split; [reflexivity|].
  split; [exact Hgone|].
  split.
  { intros ms task_id Hin. rewrite mutate_all_registry in Hin.
    apply In_targets in Hin as [Hr _]. now apply Hgone. }
  split.
  { induction n as [|n IH].
    - reflexivity.
    - change (Nat.iter (S (S n)) (after (unsubscribe (key, cb))) w)
        with (after (unsubscribe (key, cb))
                (Nat.iter (S n) (after (unsubscribe (key, cb))) w)).
      rewrite IH. subst once. now apply unsubscribe_twice. }
  intros Hex ms. apply mutate_all_silent.
  intros key' task_id (subs & cb' & Hin & Hcb & Hs). exfalso.
  assert (Hr' : registered key' cb' (taskUpdateSubscribers (dataStore once)))
    by now exists subs.
  rewrite Hreg in Hr'.
  pose proof (unregister_registered_inv key cb key' cb' _ Hwf Hr') as Hbefore.
  destruct (Hex key' cb' Hbefore Hs) as [-> ->].
  rewrite <- Hreg in Hr'. now apply Hgone.
Qed.

End Unsubscribe.

(* ================================================================== *)
(** ** The key a subscription is filed under *)
(* ================================================================== *)

Lemma includes_char_app c a b :
  Js.includes_char c (a ++ b) = Js.includes_char c a || Js.includes_char c b.
Proof.
  induction a as [|x a IH]; simpl; [reflexivity|].
  now rewrite IH, orb_assoc.
Qed.

Lemma split_free sep s : Js.includes_char sep s = false -> Js.split sep s = [s].
Proof.
  induction s as [|x s IH]; simpl; [reflexivity|].
  destruct (Ascii.eqb x sep); simpl; [discriminate|].
  intros H. now rewrite IH.
Qed.

Lemma split_app sep a b :
  Js.includes_char sep a = false ->
  Js.split sep (a ++ String sep b) = a :: Js.split sep b.
Proof.
  induction a as [|x a IH]; simpl.
  - now rewrite Ascii.eqb_refl.
  - destruct (Ascii.eqb x sep); simpl; [discriminate|].
    intros H. now rewrite IH.
Qed.

Lemma split_join ids :
  ids <> [] ->
  (forall x, In x ids -> Js.includes_char "," x = false) ->
  Js.split "," (Js.join "," ids) = ids.
Proof.
  induction ids as [|x ids IH]; [congruence|].
  intros _ Hfree. destruct ids as [|y ids].
  - simpl. apply split_free. apply Hfree. now left.
  - change (Js.join "," (x :: y :: ids))
      with (x ++ String "," (Js.join "," (y :: ids))).
    rewrite split_app by (apply Hfree; now left).
    rewrite IH; [reflexivity | discriminate |].
    intros z Hz. apply Hfree. now right.
Qed.

Lemma join_free c ids :
  c <> ","%char ->
  (forall x, In x ids -> Js.includes_char c x = false) ->
  Js.includes_char c (Js.join "," ids) = false.
Proof.
  intros Hc. induction ids as [|x ids IH]; intros Hfree; [reflexivity|].
  destruct ids as [|y ids].
  - apply Hfree. now left.
  - change (Js.join "," (x :: y :: ids))
      with (x ++ String "," (Js.join "," (y :: ids))).
    assert (Hs : forall s, Js.includes_char c (String "," s) = Js.includes_char c s).
    { intros s.
      change (Js.includes_char c (String "," s))
        with (Ascii.eqb "," c || Js.includes_char c s).
      destruct (Ascii.eqb "," c) eqn:E; [|reflexivity].
      apply Ascii.eqb_eq in E. congruence. }
    rewrite includes_char_app, (Hfree x (or_introl eq_refl)), Hs.
    apply IH. intros z Hz. apply Hfree. now right.
Qed.

Lemma array_includes_In l x : Js.array_includes l x = true <-> In x l.
Proof.
  unfold Js.array_includes. rewrite existsb_exists. split.
  - intros [y [Hy E]]. apply String.eqb_eq in E. now subst.
  - intros H. exists x. split; [exact H | apply String.eqb_refl].
Qed.

(** A subscription opened without an identifier list by a user whose
    identifier has no [':'] matches every event. *)
Lemma key_matches_general userId task_id :
  Js.includes_char ":" userId = false ->
  key_matches (subscription_key userId None) task_id = true.
Proof. intros H. unfold key_matches, subscription_key. now rewrite H. Qed.

(** The test applied to the key of a subscription opened with an
    identifier list: only the part of the joined list before its first
    [':'] is looked at, cut at every [',']. *)
Lemma key_matches_filtered userId ids task_id :
  Js.includes_char ":" userId = false ->
  key_matches (subscription_key userId (Some ids)) task_id =
  match Js.split ":" (Js.join "," ids) with
  | taskIds :: _ =>
      Js.truthy taskIds && Js.array_includes (Js.split "," taskIds) task_id
  | [] => false
  end.
Proof.
  intros H. unfold key_matches, subscription_key.
  change (userId ++ ":" ++ Js.join "," ids)
    with (userId ++ String ":" (Js.join "," ids)).
  assert (Hk : Js.includes_char ":" (userId ++ String ":" (Js.join "," ids)) = true).
  { rewrite includes_char_app. simpl. apply orb_true_r. }
  rewrite Hk, split_app by exact H. simpl.
  now destruct (Js.split ":" (Js.join "," ids)).
Qed.

(** When neither the user identifier nor the requested identifiers
    hold a separator, a subscription opened with an identifier list
    matches only events about its members. *)
Lemma key_matches_filtered_sound userId ids task_id :
  Js.includes_char ":" userId = false ->
  (forall x, In x ids -> Js.includes_char ":" x = false) ->
  (forall x, In x ids -> Js.includes_char "," x = false) ->
  key_matches (subscription_key userId (Some ids)) task_id = true ->
  In task_id ids.
Proof.
  intros Hu Hc Hm. rewrite key_matches_filtered by exact Hu.
  rewrite split_free by (apply join_free; [discriminate | exact Hc]).
  destruct ids as [|x ids]; [discriminate|].
  rewrite split_join by (try discriminate; exact Hm).
  intros H. apply andb_prop in H as [_ H]. now apply array_includes_In.
Qed.

Section EmptyIdentifierList.
Variable P : Platform.

(** For a user whose identifier has no [':'], a subscription opened
    with an empty identifier list is filed under
    a key of its own, with a [':'], whose match test fails for every
    task: no broadcast ever calls it, and a stream served only by
    that subscription receives nothing from any sequence of store
    mutations. An empty list is not the absence of a list. *)
Theorem empty_id_list_never_delivered userId :
  Js.includes_char ":" userId = false ->
  let key := subscription_key userId (Some []) in
  key <> subscription_key userId None /\
  Js.includes_char ":" key = true /\
  (forall task_id, key_matches key task_id = false) /\
  empty_set_never_delivered userId /\
  (forall w c ms,
      (forall key', serves (taskUpdateSubscribers (dataStore w)) c key' -> key' = key) ->
      received c (mutate_all P ms w) = received c w).
Proof.
  intros Hu key.
  assert (Hinc : Js.includes_char ":" key = true).
  { subst key. unfold subscription_key. rewrite includes_char_app. simpl.
    apply orb_true_r. }
  assert (Hnever : forall task_id, key_matches key task_id = false).
  { intros task_id. subst key. now rewrite key_matches_filtered. }
  split.
  { intros Heq. unfold subscription_key in Heq. subst key.
    rewrite Heq in Hinc. simpl in Hinc. congruence. }
  split; [exact Hinc|].
  split; [exact Hnever|].
  split.
  { intros r cb task_id Hin. apply In_targets in Hin as [_ Hm].
    fold key in Hm. rewrite Hnever in Hm. discriminate. }
  intros w c ms Hex. apply mutate_all_silent.
  intros key' task_id Hs. rewrite (Hex key' Hs). apply Hnever.
Qed.

End EmptyIdentifierList.

(* ================================================================== *)
(** ** Listing *)
(* ================================================================== *)

Lemma insert_by_created_perm x l : Permutation (insert_by_created x l) (x :: l).
Proof.
  induction l as [|y l IH]; simpl; [reflexivity|].
  destruct (created_at x <? created_at y)%Z; [|reflexivity].
  rewrite IH. apply perm_swap.
Qed.

Lemma sort_by_created_desc_perm l : Permutation (sort_by_created_desc l) l.
Proof.
  induction l as [|x l IH]; simpl; [reflexivity|].
  rewrite insert_by_created_perm. now constructor.
Qed.

Lemma sort_by_created_desc_length l :
  List.length (sort_by_created_desc l) = List.length l.
Proof. apply Permutation_length, sort_by_created_desc_perm. Qed.

Lemma insert_by_created_sorted x l :
  StronglySorted newer_or_same l ->
  StronglySorted newer_or_same (insert_by_created x l).
Proof.
  induction l as [|y l IH]; intros Hs; simpl.
  - repeat constructor.
  - inversion Hs as [|? ? Hl Hy]; subst.
    destruct (created_at x <? created_at y)%Z eqn:E.
    + apply Z.ltb_lt in E. constructor; [now apply IH|].
      eapply Permutation_Forall.
      * symmetry. apply insert_by_created_perm.
      * constructor; [unfold newer_or_same; lia | exact Hy].
    + apply Z.ltb_ge in E. constructor; [exact Hs|].
      constructor; [exact E|].
      eapply Forall_impl; [|exact Hy].
      unfold newer_or_same. intros z Hz. lia.
Qed.

Lemma sort_by_created_desc_sorted l :
  StronglySorted newer_or_same (sort_by_created_desc l).
Proof.
  induction l as [|x l IH]; simpl; [constructor|].
  now apply insert_by_created_sorted.
Qed.

Lemma insert_by_created_stable ts x l :
  created_at_instant ts (insert_by_created x l) = created_at_instant ts (x :: l).
Proof.
  unfold created_at_instant. induction l as [|y l IH]; [reflexivity|].
  simpl insert_by_created.
  destruct (created_at x <? created_at y)%Z eqn:E; [|reflexivity].
  apply Z.ltb_lt in E. simpl in *. rewrite IH.
  destruct (created_at x =? ts)%Z eqn:Ex, (created_at y =? ts)%Z eqn:Ey;
    try reflexivity.
  apply Z.eqb_eq in Ex, Ey. lia.
Qed.

(** The sort is stable: records created at the same instant keep the
    order they had. *)
Lemma sort_by_created_desc_stable ts l :
  created_at_instant ts (sort_by_created_desc l) = created_at_instant ts l.
Proof.
  induction l as [|x l IH]; [reflexivity|].
  simpl sort_by_created_desc. rewrite insert_by_created_stable.
  unfold created_at_instant in *. simpl. now rewrite IH.
Qed.

Lemma StronglySorted_skipn {A : Type} (R : A -> A -> Prop) n l :
  StronglySorted R l -> StronglySorted R (skipn n l).
Proof.
  revert l. induction n as [|n IH]; intros l Hs; [exact Hs|].
  destruct l as [|x l]; [constructor|].
  simpl. apply IH. now inversion Hs.
Qed.

Lemma StronglySorted_firstn {A : Type} (R : A -> A -> Prop) n l :
  StronglySorted R l -> StronglySorted R (firstn n l).
Proof.
  revert l. induction n as [|n IH]; intros l Hs; [constructor|].
  destruct l as [|x l]; [constructor|].
  simpl. inversion Hs as [|? ? Hl Hx]; subst. constructor; [now apply IH|].
  apply Forall_forall. intros y Hy.
  rewrite Forall_forall in Hx. apply Hx.
  rewrite <- (firstn_skipn n l). apply in_or_app. now left.
Qed.

Lemma slice_sorted {A : Type} (R : A -> A -> Prop) (l : list A) a b :
  StronglySorted R l -> StronglySorted R (Js.slice l a b).
Proof.
  intros Hs. unfold Js.slice. now apply StronglySorted_firstn, StronglySorted_skipn.
Qed.

(** A slice is a run of consecutive elements. *)
Lemma slice_segment {A : Type} (l : list A) a b :
  exists front back, l = (front ++ Js.slice l a b ++ back)%list.
Proof.
  unfold Js.slice. cbv zeta.
  match goal with
  | |- context [firstn ?n (skipn ?k l)] =>
      exists (firstn k l), (skipn n (skipn k l));
      now rewrite (firstn_skipn n (skipn k l)), firstn_skipn
  end.
Qed.

(** A slice of non-negative width holds at most that many elements. *)
Lemma slice_length {A : Type} (l : list A) start size :
  (0 <= size)%Z ->
  (Z.of_nat (List.length (Js.slice l start (start + size))) <= size)%Z.
Proof.
  intros Hsz. unfold Js.slice.
  set (len := Z.of_nat (List.length l)).
  set (k := if (start <? 0)%Z then _ else _).
  set (final := if (start + size <? 0)%Z then _ else _).
  assert (Hle : (final - k <= size)%Z).
  { subst k final.
    destruct (start <? 0)%Z eqn:E1, (start + size <? 0)%Z eqn:E2;
      try apply Z.ltb_lt in E1; try apply Z.ltb_ge in E1;
      try apply Z.ltb_lt in E2; try apply Z.ltb_ge in E2; subst len; lia. }
  pose proof (firstn_le_length (Z.to_nat (final - k)) (skipn (Z.to_nat k) l)) as H.
  lia.
Qed.

(** The total count of a listing is the number of records that pass
    the filters. *)
Lemma listTasks_total_count f s :
  resp_total_count (listTasks f s) =
  List.length (apply_filters f (JsMap.values (tasks s))).
Proof. unfold listTasks. simpl. apply sort_by_created_desc_length. Qed.

(** C6 (as amended). The page [listTasks] returns is a run of
    consecutive records of the matching records put newest first;
    records created at the same instant keep the order in which the
    store holds them (its insertion order), not the order of their
    identifiers. *)
Theorem listTasks_newest_first_ties_in_insertion_order f s :
  let matching := apply_filters f (JsMap.values (tasks s)) in
  let page := resp_tasks (listTasks f s) in
  exists sorted,
    Permutation sorted matching /\
    StronglySorted newer_or_same sorted /\
    (forall ts, created_at_instant ts sorted = created_at_instant ts matching) /\
    (exists front back, sorted = (front ++ page ++ back)%list) /\
    StronglySorted newer_or_same page.
Proof.
  intros matching page. exists (sort_by_created_desc matching).
  split; [apply sort_by_created_desc_perm|].
  split; [apply sort_by_created_desc_sorted|].
  split; [intros ts; apply sort_by_created_desc_stable|].
  split.
  - subst page. unfold listTasks. simpl. apply slice_segment.
  - subst page. unfold listTasks. simpl. apply slice_sorted.
    apply sort_by_created_desc_sorted.
Qed.

Section Paging.
Variable P : Platform.

Lemma ListTasks_run (call : Call ListTasksRequest) w user :
  authenticateCall P call = Some user ->
  ListTasks P call w =
  (Returned
     (Ok (listTasks
            (mkListFilter (Js.num_or (lr_page (request call)) 1)
               (Z.min (Js.num_or (lr_page_size (request call)) 10) 100)
               (lr_status_filter (request call))
               (lr_priority_filter (request call))
               (lr_assignee_filter (request call)))
            (dataStore w))),
   w).
Proof.
  intros Hauth. unfold ListTasks, try_catch. now rewrite Hauth.
Qed.

(** For a page size that is not negative, the page holds at most
    100 records and at most the effective page size, and the total
    count is the number of records passing the filters. *)
Lemma ListTasks_page_bounded (call : Call ListTasksRequest) w user resp w' :
  authenticateCall P call = Some user ->
  (0 <= Js.num_or (lr_page_size (request call)) 10)%Z ->
  ListTasks P call w = (Returned (Ok resp), w') ->
  (Z.of_nat (List.length (resp_tasks resp)) <= resp_page_size resp)%Z /\
  (resp_page_size resp <= 100)%Z /\
  resp_total_count resp =
    List.length
      (apply_filters
         (mkListFilter (resp_page resp) (resp_page_size resp)
            (lr_status_filter (request call))
            (lr_priority_filter (request call))
            (lr_assignee_filter (request call)))
         (JsMap.values (tasks (dataStore w)))).
Proof.
  intros Hauth Hsz. rewrite (ListTasks_run call w user Hauth).
  intros [= <- <-]. rewrite listTasks_total_count.
  unfold listTasks. cbn [resp_tasks resp_page_size resp_page f_page f_page_size].
  split; [|split; [lia | reflexivity]].
  apply slice_length. lia.
Qed.

End Paging.

(* ================================================================== *)
(** ** Invariants of the subscriber map *)
(* ================================================================== *)

Lemma session_sinks_only_spec r :
  session_sinks_only r <->
  (forall key subscribers cb,
      In (key, subscribers) r -> In cb subscribers -> is_session_sink cb = true).
Proof.
  unfold session_sinks_only. rewrite forallb_forall. split.
  - intros H key subs cb Hin Hcb. specialize (H (key, subs) Hin). simpl in H.
    rewrite forallb_forall in H. now apply H.
  - intros H [key subs] Hin. simpl. apply forallb_forall. intros cb Hcb.
    now apply (H key subs).
Qed.

Lemma In_set_inv {V : Type} k (v : V) k' v' m :
  In (k', v') (JsMap.set k v m) -> (k' = k /\ v' = v) \/ In (k', v') m.
Proof.
  induction m as [|[k0 v0] m IH]; simpl.
  - intros [[= <- <-]|[]]. now left.
  - destruct (String.eqb k k0); simpl.
    + intros [[= <- <-]|H]; [now left | right; now right].
    + intros [H|H]; [right; now left|].
      destruct (IH H) as [H'|H']; [now left | right; now right].
Qed.

Lemma register_session_sinks key c r :
  session_sinks_only r -> session_sinks_only (register key (SessionSink c) r).
Proof.
  rewrite !session_sinks_only_spec. intros Hs. unfold register.
  set (r1 := if negb (JsMap.has key r) then JsMap.set key [] r else r).
  assert (Hs1 : forall k subs cb, In (k, subs) r1 -> In cb subs ->
                                  is_session_sink cb = true).
  { subst r1. destruct (negb (JsMap.has key r)); [|exact Hs].
    intros k subs cb Hin Hcb.
    apply In_set_inv in Hin as [[_ ->]|Hin]; [destruct Hcb | now apply (Hs k subs)]. }
  destruct (JsMap.get key r1) as [subs|] eqn:Hget; [|exact Hs1].
  intros k subs' cb Hin Hcb.
  apply In_set_inv in Hin as [[_ ->]|Hin]; [|now apply (Hs1 k subs')].
  unfold JsSet.add in Hcb. apply get_Some_In in Hget.
  destruct (JsSet.has (SessionSink c) subs); [now apply (Hs1 key subs)|].
  apply in_app_or in Hcb as [Hcb|[<-|[]]]; [now apply (Hs1 key subs) | reflexivity].
Qed.

Lemma unregister_session_sinks key cb r :
  session_sinks_only r -> session_sinks_only (unregister key cb r).
Proof.
  rewrite !session_sinks_only_spec. intros Hs. unfold unregister.
  destruct (JsMap.get key r) as [subs|] eqn:Hget; [|exact Hs].
  apply get_Some_In in Hget.
  destruct (Nat.eqb (JsSet.size (JsSet.delete cb subs)) 0).
  - intros k subs' cb' Hin Hcb. apply In_delete in Hin. now apply (Hs k subs').
  - intros k subs' cb' Hin Hcb.
    apply In_set_inv in Hin as [[_ ->]|Hin]; [|now apply (Hs k subs')].
    unfold JsSet.delete in Hcb. apply filter_In in Hcb as [Hcb _].
    now apply (Hs key subs).
Qed.

Lemma registry_invariant_register key c r :
  registry_invariant r -> registry_invariant (register key (SessionSink c) r).
Proof.
  intros [H1 H2]. split; [now apply register_wf | now apply register_session_sinks].
Qed.

Lemma registry_invariant_unregister key cb r :
  registry_invariant r -> registry_invariant (unregister key cb r).
Proof.
  intros [H1 H2]. split; [now apply unregister_wf | now apply unregister_session_sinks].
Qed.

(** Running unsubscribe closures one after the other returns and keeps
    the invariant. *)
Lemma for_each_unsubscribe handles w :
  registry_invariant (taskUpdateSubscribers (dataStore w)) ->
  fst (for_each unsubscribe handles w) = Returned tt /\
  registry_invariant
    (taskUpdateSubscribers (dataStore (snd (for_each unsubscribe handles w)))) /\
  tasks (dataStore (snd (for_each unsubscribe handles w))) = tasks (dataStore w).
Proof.
  revert w. induction handles as [|h handles IH]; intros w Hinv.
  - simpl. tauto.
  - cbn [for_each]. unfold bind. rewrite unsubscribe_run.
    set (w1 := with_subscribers _ w).
    destruct (IH w1) as (H1 & H2 & H3).
    + subst w1. simpl. now apply registry_invariant_unregister.
    + split; [exact H1|]. split; [exact H2|]. rewrite H3. reflexivity.
Qed.

Section Reachability.
Variable P : Platform.

Lemma fire_invariant c ev w :
  registry_invariant (taskUpdateSubscribers (dataStore w)) ->
  fst (fire c ev w) = Returned tt /\
  registry_invariant (taskUpdateSubscribers (dataStore (after (fire c ev) w))).
Proof.
  intros Hinv. unfold after, fire, bind, gets.
  destruct (for_each_unsubscribe (listeners_of c ev (listeners w)) w Hinv)
    as (H1 & H2 & _).
  now split.
Qed.

Lemma call_emit_error_invariant c err w :
  registry_invariant (taskUpdateSubscribers (dataStore w)) ->
  registry_invariant
    (taskUpdateSubscribers (dataStore (after (call_emit_error c err) w))).
Proof.
  intros Hinv. unfold after, call_emit_error, bind, modify.
  cbn beta iota.
  match goal with
  | |- context [fire c ev_error ?w1] =>
      exact (proj2 (fire_invariant c ev_error w1 Hinv))
  end.
Qed.

(** A unary handler that catches everything leaves the world its body
    leaves. *)
Lemma after_try_catch_ret {A : Type} (c : M A) (a : A) w :
  after (try_catch c (fun _ => ret a)) w = after c w.
Proof.
  unfold after, try_catch, ret. now destruct (c w) as [[x|e] w'].
Qed.

Lemma after_bind_ret {A B : Type} (c : M A) (f : A -> B) w :
  after (bind c (fun x => ret (f x))) w = after c w.
Proof.
  unfold after, bind, ret. now destruct (c w) as [[x|e] w'].
Qed.

Lemma unary_handlers_registry w w' :
  (exists call, w' = after (CreateTask P call) w) \/
  (exists call, w' = after (GetTask P call) w) \/
  (exists call, w' = after (UpdateTask P call) w) \/
  (exists call, w' = after (DeleteTask P call) w) \/
  (exists call, w' = after (ListTasks P call) w) ->
  taskUpdateSubscribers (dataStore w') = taskUpdateSubscribers (dataStore w).
Proof.
  intros [[call ->]|[[call ->]|[[call ->]|[[call ->]|[call ->]]]]].
  - unfold CreateTask. rewrite after_try_catch_ret.
    destruct (authenticateCall P call) as [user|]; [|reflexivity].
    destruct (cr_title (request call)) as [ti|]; [|reflexivity].
    destruct (cr_description (request call)) as [de|]; [|reflexivity].
    destruct (negb (Js.truthy ti) || negb (Js.truthy de)); [reflexivity|].
    rewrite (after_bind_ret _ (@Ok Task)).
    exact (proj1 (mutate_registry P (Create _) w)).
  - unfold GetTask. rewrite after_try_catch_ret.
    destruct (authenticateCall P call) as [user|]; [|reflexivity].
    unfold after, bind, gets. now destruct (getTask _ _).
  - unfold UpdateTask. rewrite after_try_catch_ret.
    destruct (authenticateCall P call) as [user|]; [|reflexivity].
    unfold after, bind at 1, gets.
    destruct (getTask (ur_id (request call)) (dataStore w)) as [existing|];
    [|reflexivity].
    pose proof (proj1 (mutate_registry P
      (Update (ur_id (request call)) (build_updates (request call))) w)) as H.
    unfold mutate, after in H. unfold bind.
    destruct (updateTask P (ur_id (request call)) (build_updates (request call)) w)
      as [[[updated|]|e] w2]; exact H.
  - unfold DeleteTask. rewrite after_try_catch_ret.
    destruct (authenticateCall P call) as [user|]; [|reflexivity].
    pose proof (proj1 (mutate_registry P (Delete (dr_id (request call))) w)) as H.
    unfold mutate, after in H. unfold after, bind.
    destruct (deleteTask P (dr_id (request call)) w) as [[[]|e] w2]; exact H.
  - unfold ListTasks. rewrite after_try_catch_ret.
    now destruct (authenticateCall P call) as [user|].
Qed.

Lemma SubscribeTaskUpdates_invariant call w :
  registry_invariant (taskUpdateSubscribers (dataStore w)) ->
  registry_invariant
    (taskUpdateSubscribers (dataStore (after (SubscribeTaskUpdates P call) w))).
Proof.
  intros Hinv. unfold after.
  destruct (authenticateCall P call) as [user|] eqn:Hauth.
  - rewrite (SubscribeTaskUpdates_run P call w user Hauth).
    destruct (is_broken (broken w) (call_id call)).
    + apply call_emit_error_invariant. simpl.
      now apply registry_invariant_register.
    + simpl. now apply registry_invariant_register.
  - unfold SubscribeTaskUpdates, try_catch. rewrite Hauth.
    pose proof (call_emit_error_invariant (call_id call) authentication_required
                  w Hinv) as H.
    unfold after in H.
    destruct (call_emit_error (call_id call) authentication_required w)
      as [[[]|e] w1]; [exact H|].
    now apply call_emit_error_invariant.
Qed.

(** In every world the server reaches, the subscriber map has one
    entry per key and holds session sinks only. *)
Lemma reachable_registry_invariant w :
  reachable P w -> registry_invariant (taskUpdateSubscribers (dataStore w)).
Proof.
  induction 1 as [w Hempty|w w' _ IH Hstep].
  - rewrite Hempty. split; [constructor | reflexivity].
  - destruct Hstep.
    + rewrite (unary_handlers_registry w); [exact IH | left; now exists call].
    + rewrite (unary_handlers_registry w);
        [exact IH | right; left; now exists call].
    + rewrite (unary_handlers_registry w);
        [exact IH | right; right; left; now exists call].
    + rewrite (unary_handlers_registry w);
        [exact IH | right; right; right; left; now exists call].
    + rewrite (unary_handlers_registry w);
        [exact IH | right; right; right; right; now exists call].
    + now apply SubscribeTaskUpdates_invariant.
    + now apply fire_invariant.
    + exact IH.
Qed.

(** X17. When the transport reports a cancellation or an error on the
    call of a streaming session, the listener registered for it runs and
    the session's subscription is gone. *)
Lemma session_unregistered_on_event (call : Call SubscribeTaskUpdatesRequest) w user ev :
  authenticateCall P call = Some user ->
  is_broken (broken w) (call_id call) = false ->
  listeners_of (call_id call) ev (listeners w) = [] ->
  JsMap.wf (taskUpdateSubscribers (dataStore w)) ->
  ~ registered (subscription_key (user_id user) (sr_task_ids (request call)))
      (SessionSink (call_id call))
      (taskUpdateSubscribers
         (dataStore
            (after (fire (call_id call) ev) (after (SubscribeTaskUpdates P call) w)))).
Proof.
  intros Hauth Hok Hfresh Hwf. unfold after at 2.
  rewrite (SubscribeTaskUpdates_run P call w user Hauth), Hok. cbn [snd].
  set (key := subscription_key (user_id user) (sr_task_ids (request call))).
  set (cb := SessionSink (call_id call)).
  assert (Hls : listeners_of (call_id call) ev
                  (listeners (add_wire
                     [(call_id call,
                       mkTaskUpdate CREATED
                         (connection_task (user_id user) (clock P (clock_reads w))
                            (clock P (S (clock_reads w))))
                         (clock P (S (S (clock_reads w)))))]
                     (registered_world call user w))) = [(key, cb)]).
  { unfold add_wire, registered_world. cbn [listeners]. fold key. fold cb.
    unfold listeners_of in *. rewrite !filter_app, !map_app, Hfresh.
    simpl. rewrite Nat.eqb_refl. now destruct ev. }
  unfold after, fire, bind, gets. rewrite Hls.
  cbn [for_each]. unfold bind. rewrite unsubscribe_run. cbn [fst snd ret].
  unfold add_wire, registered_world, with_subscribers, with_dataStore.
  cbn [dataStore taskUpdateSubscribers]. fold key. fold cb.
  apply unregister_not_registered. now apply register_wf.
Qed.

End Reachability.

(* ================================================================== *)
(** ** Partial updates *)
(* ================================================================== *)

Section PartialUpdate.
Variable P : Platform.

(** [UpdateTask] on an authenticated call for a stored record: the
    record merged from the request is stored, then broadcast; the reply
    is that record, or INTERNAL when the broadcast throws. *)
Lemma UpdateTask_run (call : Call UpdateTaskRequest) w user t :
  authenticateCall P call = Some user ->
  JsMap.get (ur_id (request call)) (tasks (dataStore w)) = Some t ->
  let m := merge t (build_updates (request call)) (clock P (clock_reads w)) in
  let w1 := with_tasks (JsMap.set (ur_id (request call)) m (tasks (dataStore w)))
                       (tick w) in
  UpdateTask P call w =
  (match fst (notifyTaskUpdate P UPDATED m w1) with
   | Returned _ => Returned (Ok m)
   | Thrown _ => Returned (Err internal_server_error)
   end,
   after (notifyTaskUpdate P UPDATED m) w1).
Proof.
  intros Hauth Hget m w1. unfold UpdateTask, try_catch. rewrite Hauth.
  unfold bind at 1. unfold gets at 1. cbn beta iota.
  unfold getTask. rewrite Hget. unfold bind.
  rewrite (updateTask_run P _ (build_updates (request call)) w t Hget).
  fold m. fold w1. unfold after.
  destruct (notifyTaskUpdate P UPDATED m w1) as [[[]|e] w2]; reflexivity.
Qed.

Lemma merge_fields t updates now :
  let m := merge t updates now in
  id m = id t /\
  created_at m = created_at t /\
  updated_at m = now /\
  title m = match upd_title updates with Some x => x | None => title t end /\
  description m =
    match upd_description updates with Some x => x | None => description t end /\
  status m = match upd_status updates with Some x => x | None => status t end /\
  priority m = match upd_priority updates with Some x => x | None => priority t end /\
  assignee_id m =
    match upd_assignee_id updates with Some x => x | None => assignee_id t end /\
  due_date m = match upd_due_date updates with Some x => Some x | None => due_date t end /\
  tags m = match upd_tags updates with Some x => x | None => tags t end.
Proof.
  cbv zeta.
  repeat (split; [simpl; unfold or_else;
                  repeat match goal with |- context [match ?o with _ => _ end] =>
                    destruct o end; reflexivity|]).
  simpl. unfold or_else. now destruct (upd_tags updates).
Qed.

(** C4 (as amended). [updateTask] on a stored record merges exactly
    the properties the partial update has: each property it lacks
    keeps its value, each property it has takes the new value, the
    identifier and the creation time never change, the modification
    time is the clock reading taken by the update, and the merged
    record is what the store holds afterwards in every case.
    [updateTask] returns the merged record or throws; it returns it
    when the registered callbacks are session sinks, hence in every
    world the server reaches. The [UpdateTask] handler, on an
    authenticated call for the record, stores the record merged from
    exactly the request properties that are there, and answers with it
    (under the same condition) or with INTERNAL. *)
Theorem updateTask_merges_present_fields i updates w t :
  getTask i (dataStore w) = Some t ->
  let m := merge t updates (clock P (clock_reads w)) in
  let r := updateTask P i updates w in
  getTask i (dataStore (snd r)) = Some m /\
  id m = id t /\
  created_at m = created_at t /\
  updated_at m = clock P (clock_reads w) /\
  title m = match upd_title updates with Some x => x | None => title t end /\
  description m =
    match upd_description updates with Some x => x | None => description t end /\
  status m = match upd_status updates with Some x => x | None => status t end /\
  priority m = match upd_priority updates with Some x => x | None => priority t end /\
  assignee_id m =
    match upd_assignee_id updates with Some x => x | None => assignee_id t end /\
  due_date m = match upd_due_date updates with Some x => Some x | None => due_date t end /\
  tags m = match upd_tags updates with Some x => x | None => tags t end /\
  (fst r = Returned (Some m) \/ exists e, fst r = Thrown e) /\
  (session_sinks_only (taskUpdateSubscribers (dataStore w)) ->
   fst r = Returned (Some m)) /\
  (reachable P w -> fst r = Returned (Some m)) /\
  (forall (call : Call UpdateTaskRequest) user,
      authenticateCall P call = Some user ->
      ur_id (request call) = i ->
      exists m',
        getTask i (dataStore (after (UpdateTask P call) w)) = Some m' /\
        id m' = id t /\
        created_at m' = created_at t /\
        updated_at m' = clock P (clock_reads w) /\
        title m' =
          match ur_title (request call) with Some x => x | None => title t end /\
        description m' =
          match ur_description (request call) with
          | Some x => x | None => description t end /\
        status m' =
          match ur_status (request call) with Some x => x | None => status t end /\
        priority m' =
          match ur_priority (request call) with Some x => x | None => priority t end /\
        assignee_id m' =
          match ur_assignee_id (request call) with
          | Some x => x | None => assignee_id t end /\
        due_date m' =
          match ur_due_date (request call) with
          | Some x => Some x | None => due_date t end /\
        tags m' =
          match ur_tags (request call) with Some x => x | None => tags t end /\
        (fst (UpdateTask P call w) = Returned (Ok m') \/
         fst (UpdateTask P call w) = Returned (Err internal_server_error)) /\
        (session_sinks_only (taskUpdateSubscribers (dataStore w)) ->
         fst (UpdateTask P call w) = Returned (Ok m')) /\
        (reachable P w -> fst (UpdateTask P call w) = Returned (Ok m'))).
Proof.
  intros Hget m r. unfold getTask in Hget.
  assert (Hstore : getTask i (dataStore (snd r)) = Some m).
  { subst r. rewrite (updateTask_run P i updates w t Hget). cbn [snd].
    rewrite notifyTaskUpdate_dataStore. unfold getTask. simpl.
    apply get_set_eq. }
  split; [exact Hstore|].
  destruct (merge_fields t updates (clock P (clock_reads w)))
    as (F1 & F2 & F3 & F4 & F5 & F6 & F7 & F8 & F9 & F10).
  do 10 (split; [assumption|]).
  split; [|split; [|split]].
  - subst r. rewrite (updateTask_run P i updates w t Hget). cbn [fst].
    destruct (fst (notifyTaskUpdate P UPDATED _ _)) as [[]|e];
      [now left | right; now exists e].
  - intros Hs. subst r. now apply updateTask_completes.
  - intros Hr. subst r. apply updateTask_completes; [exact Hget|].
    exact (proj2 (reachable_registry_invariant P w Hr)).
  - intros call user Hauth Hid. subst i.
    exists (merge t (build_updates (request call)) (clock P (clock_reads w))).
    destruct (merge_fields t (build_updates (request call)) (clock P (clock_reads w)))
      as (G1 & G2 & G3 & G4 & G5 & G6 & G7 & G8 & G9 & G10).
    unfold after. rewrite (UpdateTask_run call w user t Hauth Hget).
    split.
    { cbn [snd]. rewrite notifyTaskUpdate_dataStore.
      unfold getTask. simpl. apply get_set_eq. }
    do 10 (split; [assumption|]).
    cbn [fst].
    assert (Hsinks : session_sinks_only (taskUpdateSubscribers (dataStore w)) ->
      fst (notifyTaskUpdate P UPDATED
             (merge t (build_updates (request call)) (clock P (clock_reads w)))
             (with_tasks
                (JsMap.set (ur_id (request call))
                   (merge t (build_updates (request call)) (clock P (clock_reads w)))
                   (tasks (dataStore w))) (tick w))) = Returned tt).
    { intros Hs. now rewrite notifyTaskUpdate_session_sinks. }
    split; [|split].
    + destruct (fst (notifyTaskUpdate P UPDATED _ _)) as [[]|e]; [now left | now right].
    + intros Hs. now rewrite (Hsinks Hs).
    + intros Hr.
      now rewrite (Hsinks (proj2 (reachable_registry_invariant P w Hr))).
Qed.

End PartialUpdate.


(* ================================================================== *)
(** ** The properties at concrete inputs *)
(* ================================================================== *)

(** Opening a subscription on a store of two tasks writes one message,
    not two snapshots: no seeding burst is emitted. *)
Lemma seeding_burst_not_emitted :
  ~ seeding_burst_emitted demo (authorized 7 subscribe_all) two_tasks.
Proof.
  unfold seeding_burst_emitted. intros H.
  apply Permutation_length in H. vm_compute in H. discriminate.
Qed.

(** On a store of two tasks, the administrator's session gets the
    confirmation and nothing else. *)
Lemma SubscribeTaskUpdates_registers_then_confirms_witness :
  authenticateCall demo (authorized 7 subscribe_all) = Some admin_payload /\
  is_broken (broken two_tasks) 7 = false /\
  map (fun m => id (task (snd m)))
      (written_since two_tasks
         (snd (SubscribeTaskUpdates demo (authorized 7 subscribe_all) two_tasks)))
  = ["connection"].
Proof.
  split; [reflexivity|]. split; [reflexivity|].
  destruct (SubscribeTaskUpdates_registers_then_confirms demo
              (authorized 7 subscribe_all) two_tasks admin_payload
              eq_refl eq_refl) as (_ & _ & _ & Hw & _).
  rewrite Hw. reflexivity.
Defined.

(** A failed delivery drops nobody, whichever way it fails.
    When the first of two sessions has a broken stream, the broadcast
    leaves that session registered. When a callback that raises is
    registered first, the broadcast throws, so the failure reaches the
    mutation and the session after it gets nothing. *)
Lemma failed_sink_not_dropped :
  ~ failed_sink_dropped demo CREATED task_zero two_sessions_first_broken /\
  ~ failed_sink_dropped demo CREATED task_zero raw_sink_first_broken.
Proof.
  unfold failed_sink_dropped. split; intros H.
  - destruct (H (user_id admin_payload) (SessionSink 1)) as [Hgone _].
    + vm_compute. now left.
    + reflexivity.
    + apply Hgone. exists [SessionSink 1; SessionSink 2]. split.
      * vm_compute. now left.
      * now left.
  - destruct (H "tester" (RawSink 1)) as (_ & Hret & _).
    + vm_compute. now left.
    + reflexivity.
    + vm_compute in Hret. discriminate.
Qed.

(** With the first of two sessions on a broken stream, a broadcast
    returns and reaches the second. *)
Lemma broadcast_failure_is_caught_not_dropped_witness :
  session_sinks_only (taskUpdateSubscribers (dataStore two_sessions_first_broken)) /\
  fst (notifyTaskUpdate demo CREATED task_zero two_sessions_first_broken) = Returned tt /\
  map fst (written_since two_sessions_first_broken
             (snd (notifyTaskUpdate demo CREATED task_zero two_sessions_first_broken)))
  = [2].
Proof.
  split; [reflexivity|].
  destruct (broadcast_failure_is_caught_not_dropped demo CREATED task_zero
              two_sessions_first_broken eq_refl) as (Hr & Hw & _).
  split; [exact Hr|].
  rewrite (written_since_app _ _ _ Hw). reflexivity.
Defined.

(** C3. A session subscribed to the single identifier [joined_id]
    receives the UPDATED event of the stored task whose identifier is
    the part of [joined_id] after its comma: an event for a task that
    is not a member of the set it subscribed to. *)
Theorem filtered_subscription_receives_event_outside_its_set :
  let w := mutate demo (Update (uuid_of_nat 0) retitle) one_filtered_session in
  sr_task_ids subscribe_joined = Some [joined_id] /\
  map (fun u => (type u, id (task u))) (received 1 w) =
    [(CREATED, "connection"); (UPDATED, uuid_of_nat 0)] /\
  Js.array_includes [joined_id] (uuid_of_nat 0) = false /\
  ~ In (uuid_of_nat 0) [joined_id].
Proof.
  split; [reflexivity|]. split; [vm_compute; reflexivity|].
  split; [reflexivity|].
  intros [H|[]]. vm_compute in H. discriminate.
Qed.

(** Two runs that store the same two records, created within one
    millisecond, list them in different orders: the order of a listing
    is not determined by the records. *)
Lemma listing_not_determined_by_records :
  ~ listing_determined_by_records first_page.
Proof.
  intros H.
  specialize (H (dataStore same_instant_ab) (dataStore same_instant_ba)).
  assert (Hab : tasks (dataStore same_instant_ab) =
                [(first_uuid, same_instant_task first_uuid);
                 (second_uuid, same_instant_task second_uuid)]) by reflexivity.
  assert (Hba : tasks (dataStore same_instant_ba) =
                [(second_uuid, same_instant_task second_uuid);
                 (first_uuid, same_instant_task first_uuid)]) by reflexivity.
  assert (Hsame : forall i, getTask i (dataStore same_instant_ab) =
                            getTask i (dataStore same_instant_ba)).
  { intros i. unfold getTask. rewrite Hab, Hba. simpl.
    destruct (String.eqb i first_uuid) eqn:E1, (String.eqb i second_uuid) eqn:E2;
      try reflexivity.
    apply String.eqb_eq in E1, E2. subst i. discriminate. }
  specialize (H Hsame). vm_compute in H. discriminate.
Qed.

(** C7. With 102 tasks stored, an authenticated [ListTasks] for page 1
    with page size -1 is answered with 101 tasks, more than the limit
    of 100 and more than the page size it reports, out of a total
    count of 102. *)
Theorem ListTasks_negative_page_size_exceeds_limit :
  exists resp,
    fst (ListTasks demo (authorized 1 negative_page_size) (n_tasks 102)) =
      Returned (Ok resp) /\
    List.length (resp_tasks resp) = 101 /\
    resp_page_size resp = (-1)%Z /\
    resp_total_count resp = 102.
Proof.
  rewrite (ListTasks_run demo (authorized 1 negative_page_size) (n_tasks 102)
             admin_payload eq_refl).
  eexists. split; [reflexivity|].
  split; [|split]; vm_compute; reflexivity.
Qed.

(** C9. The user [colon_user], whose identifier holds a [':'],
    subscribes with an explicit empty identifier list on a store of two
    tasks, and the first task, the one named after that [':'], is
    updated: the subscription is filed under a key with the empty
    list, yet the UPDATED event of that task is written to the
    subscriber's stream. The empty list does not silence it. *)
Theorem empty_set_delivered_for_colon_user :
  let w := mutate demo (Update (uuid_of_nat 0) retitle) colon_user_empty_list in
  taskUpdateSubscribers (dataStore colon_user_empty_list) =
    [(subscription_key colon_user (Some []), [RawSink 1])] /\
  subscription_key colon_user (Some []) = "ops:" ++ uuid_of_nat 0 ++ ":" /\
  received 1 colon_user_empty_list = [] /\
  map (fun u => (type u, id (task u))) (received 1 w) = [(UPDATED, uuid_of_nat 0)] /\
  ~ empty_set_never_delivered colon_user.
Proof.
  split; [reflexivity|]. split; [reflexivity|]. split; [reflexivity|].
  split; [vm_compute; reflexivity|].
  intros H.
  apply (H [(subscription_key colon_user (Some []), [SessionSink 1])]
           (SessionSink 1) (uuid_of_nat 0)).
  vm_compute. now left.
Qed.

(** With a callback that raises registered at the store, [updateTask]
    on a stored record stores the merged record and then throws: it
    does not return the merged record, and the [UpdateTask] handler
    answers INTERNAL although the record was changed. *)
Lemma update_throws_after_storing :
  ~ update_returns_merged_record demo (uuid_of_nat 0) retitle
      two_tasks_raw_sink_broken /\
  getTask (uuid_of_nat 0) (dataStore two_tasks_raw_sink_broken) = Some task_zero /\
  fst (updateTask demo (uuid_of_nat 0) retitle two_tasks_raw_sink_broken) =
    Thrown (WriteError 1) /\
  getTask (uuid_of_nat 0)
    (dataStore (after (updateTask demo (uuid_of_nat 0) retitle)
                  two_tasks_raw_sink_broken)) =
    Some (mkTask (uuid_of_nat 0) "Updated Title" "Description" IN_PROGRESS MEDIUM
                 "user1" 1700000000000 1700000000006 None ["test"]) /\
  fst (UpdateTask demo (authorized 1 retitle_request) two_tasks_raw_sink_broken) =
    Returned (Err internal_server_error).
Proof.
  split; [|repeat split; vm_compute; reflexivity].
  intros H. destruct (H task_zero) as (m & Hr & _); [vm_compute; reflexivity|].
  vm_compute in Hr. discriminate.
Qed.

(** The administrator's identifier has no [':']: its empty-list key
    matches no task. *)
Lemma empty_id_list_never_delivered_witness :
  Js.includes_char ":" (user_id admin_payload) = false /\
  forall task_id,
    key_matches (subscription_key (user_id admin_payload) (Some [])) task_id = false.
Proof.
  split; [reflexivity|].
  exact (proj1 (proj2 (proj2
           (empty_id_list_never_delivered demo (user_id admin_payload) eq_refl)))).
Defined.

(** Retitling the first of two tasks and moving it to IN_PROGRESS
    leaves its other properties alone. *)
Lemma updateTask_merges_present_fields_witness :
  getTask (uuid_of_nat 0) (dataStore two_tasks) = Some task_zero /\
  getTask (uuid_of_nat 0)
    (dataStore (snd (updateTask demo (uuid_of_nat 0) retitle two_tasks))) =
  Some (mkTask (uuid_of_nat 0) "Updated Title" "Description" IN_PROGRESS MEDIUM
               "user1" 1700000000000 1700000000006 None ["test"]).
Proof.
  split; [reflexivity|].
  exact (proj1 (updateTask_merges_present_fields demo (uuid_of_nat 0) retitle
                  two_tasks task_zero eq_refl)).
Defined.

(** A call without metadata leaves a store of two tasks as it was. *)
Lemma CreateTask_unauthenticated_no_mutation_witness :
  (credential_absent (anonymous 1 create_request) \/
   credential_unverified demo (anonymous 1 create_request)) /\
  snd (CreateTask demo (anonymous 1 create_request) two_tasks) = two_tasks.
Proof.
  assert (H : credential_absent (anonymous 1 create_request) \/
              credential_unverified demo (anonymous 1 create_request))
    by (left; left; reflexivity).
  split; [exact H|].
  exact (proj1 (proj2 (proj2
           (CreateTask_unauthenticated_no_mutation demo
              (anonymous 1 create_request) two_tasks H)))).
Defined.

(** A request with a title and a description only yields a PENDING,
    MEDIUM task without tags. *)
Lemma CreateTask_initial_status_priority_tags_witness :
  let t := created_task demo
             (mkTaskData "Write report" "Quarterly numbers" PENDING MEDIUM
                         (user_id admin_payload) None []) two_tasks in
  let w' := snd (CreateTask demo (authorized 1 create_request) two_tasks) in
  CreateTask demo (authorized 1 create_request) two_tasks = (Returned (Ok t), w') /\
  status t = PENDING /\ priority t = MEDIUM /\ tags t = [].
Proof.
  intros t w'.
  assert (H : CreateTask demo (authorized 1 create_request) two_tasks =
              (Returned (Ok t), w')) by (vm_compute; reflexivity).
  split; [exact H|].
  exact (proj2 (CreateTask_initial_status_priority_tags demo
                  (authorized 1 create_request) two_tasks t w' H)).
Defined.

(** Unsubscribing the only session three times is unsubscribing it
    once. *)
Lemma unsubscribe_idempotent_witness :
  JsMap.wf (taskUpdateSubscribers (dataStore one_session)) /\
  Nat.iter 3 (after (unsubscribe (user_id admin_payload, SessionSink 1))) one_session =
  after (unsubscribe (user_id admin_payload, SessionSink 1)) one_session.
Proof.
  assert (H : JsMap.wf (taskUpdateSubscribers (dataStore one_session))).
  { unfold JsMap.wf. simpl. constructor; [simpl; tauto | constructor]. }
  split; [exact H|].
  exact (proj1 (proj2 (proj2 (proj2
           (unsubscribe_idempotent demo (user_id admin_payload) (SessionSink 1)
              one_session H)))) 2).
Defined.

(* ================================================================== *)
(** ** The task map: creating, deleting, consistency *)
(* ================================================================== *)

Section TaskMap.
Context {V : Type}.
Implicit Types (m : list (string * V)) (k : string) (v : V).

Lemma get_delete_eq k m : JsMap.wf m -> JsMap.get k (JsMap.delete k m) = None.
Proof. intros Hwf. apply get_None_not_key. now apply keys_delete_not_in. Qed.

Lemma get_delete_ne k k' m :
  k <> k' -> JsMap.get k' (JsMap.delete k m) = JsMap.get k' m.
Proof.
  intros Hne. induction m as [|[k0 v0] m IH]; simpl; [reflexivity|].
  destruct (String.eqb k k0) eqn:E; simpl.
  - apply String.eqb_eq in E. subst k0.
    destruct (String.eqb k' k) eqn:E'; [|reflexivity].
    apply String.eqb_eq in E'. congruence.
  - now rewrite IH.
Qed.

Lemma length_set_absent k v m :
  JsMap.get k m = None -> List.length (JsMap.set k v m) = S (List.length m).
Proof.
  induction m as [|[k0 v0] m IH]; simpl; [reflexivity|].
  destruct (String.eqb k k0); [discriminate|]. simpl. intros H. now rewrite IH.
Qed.

Lemma length_set_present k v v0 m :
  JsMap.get k m = Some v0 -> List.length (JsMap.set k v m) = List.length m.
Proof.
  induction m as [|[k1 v1] m IH]; simpl; [discriminate|].
  destruct (String.eqb k k1); [reflexivity|]. simpl. intros H. now rewrite IH.
Qed.

Lemma length_delete_present k v0 m :
  JsMap.get k m = Some v0 -> S (List.length (JsMap.delete k m)) = List.length m.
Proof.
  induction m as [|[k1 v1] m IH]; simpl; [discriminate|].
  destruct (String.eqb k k1); [reflexivity|]. simpl. intros H. now rewrite IH.
Qed.

Lemma values_set_absent k v m :
  JsMap.get k m = None -> JsMap.values (JsMap.set k v m) = (JsMap.values m ++ [v])%list.
Proof.
  unfold JsMap.values. induction m as [|[k0 v0] m IH]; simpl; [reflexivity|].
  destruct (String.eqb k k0); [discriminate|]. simpl. intros H. now rewrite IH.
Qed.

End TaskMap.

Section StoreOperations.
Variable P : Platform.

(** X1. Whatever its outcome, [createTask] leaves the new record
    stored under the identifier it drew, with the properties of its
    argument and the two clock readings it took, and leaves the record
    under every other identifier as it was. It returns that record or
    throws (it throws only when a callback raises), and it returns it
    when the registered callbacks are session sinks. *)
Theorem createTask_stores_and_returns data w :
  let r := createTask P data w in
  exists t,
    id t = uuidv4 P (uuid_draws w) /\
    title t = d_title data /\ description t = d_description data /\
    status t = d_status data /\ priority t = d_priority data /\
    assignee_id t = d_assignee_id data /\ due_date t = d_due_date data /\
    tags t = d_tags data /\
    created_at t = clock P (clock_reads w) /\
    updated_at t = clock P (S (clock_reads w)) /\
    getTask (id t) (dataStore (snd r)) = Some t /\
    (forall i, i <> id t -> getTask i (dataStore (snd r)) = getTask i (dataStore w)) /\
    uuid_draws (snd r) = S (uuid_draws w) /\
    (fst r = Returned t \/ exists e, fst r = Thrown e) /\
    (session_sinks_only (taskUpdateSubscribers (dataStore w)) -> fst r = Returned t).
Proof.
  intros r. exists (created_task P data w). subst r.
  rewrite createTask_run. cbn [fst snd].
  rewrite notifyTaskUpdate_dataStore.
  repeat (split; [reflexivity|]).
  split; [unfold getTask; simpl; apply get_set_eq|].
  split; [intros i Hi; unfold getTask; simpl; apply get_set_ne;
          intros E; apply Hi; symmetry; exact E|].
  split.
  { now destruct (notifyTaskUpdate_frame P CREATED (created_task P data w)
      (with_tasks (JsMap.set (id (created_task P data w)) (created_task P data w)
         (tasks (dataStore w))) (tick (tick (drawn w))))) as (-> & _). }
  split.
  - destruct (fst (notifyTaskUpdate P CREATED _ _)) as [[]|e];
      [now left | right; now exists e].
  - intros Hs. now rewrite notifyTaskUpdate_session_sinks.
Qed.

(** X2. When the identifier [createTask] draws is not in use, the new
    record goes last in the task map: the records before it keep
    their order and the map holds exactly one record more. *)
Theorem createTask_fresh_id_appends data w :
  JsMap.get (uuidv4 P (uuid_draws w)) (tasks (dataStore w)) = None ->
  let after_ := tasks (dataStore (after (createTask P data) w)) in
  exists t,
    getTask (uuidv4 P (uuid_draws w)) (dataStore (after (createTask P data) w)) = Some t /\
    JsMap.values after_ = (JsMap.values (tasks (dataStore w)) ++ [t])%list /\
    JsMap.keys after_ = (JsMap.keys (tasks (dataStore w)) ++ [uuidv4 P (uuid_draws w)])%list /\
    List.length after_ = S (List.length (tasks (dataStore w))).
Proof.
  intros Hnone after_. subst after_. unfold after, getTask.
  rewrite createTask_run. cbn [snd]. rewrite notifyTaskUpdate_dataStore.
  exists (created_task P data w). simpl.
  split; [apply get_set_eq|].
  split; [now apply values_set_absent|].
  split; [apply keys_set_absent; now apply get_None_not_key|].
  now apply length_set_absent.
Qed.

(** X3. [deleteTask] on a stored identifier removes exactly that
    record from a well-formed task map: the identifier is no longer
    found, every other identifier finds what it found before, and the
    map holds one record less. It returns [true] or throws, and
    returns [true] when the registered callbacks are session sinks. *)
Theorem deleteTask_removes_only_that_record i w t :
  JsMap.wf (tasks (dataStore w)) ->
  getTask i (dataStore w) = Some t ->
  let r := deleteTask P i w in
  getTask i (dataStore (snd r)) = None /\
  (forall j, j <> i -> getTask j (dataStore (snd r)) = getTask j (dataStore w)) /\
  S (List.length (tasks (dataStore (snd r)))) = List.length (tasks (dataStore w)) /\
  (fst r = Returned true \/ exists e, fst r = Thrown e) /\
  (session_sinks_only (taskUpdateSubscribers (dataStore w)) -> fst r = Returned true).
Proof.
  intros Hwf Hget r. subst r. unfold getTask in *.
  rewrite (deleteTask_run P i w t Hget). cbn [fst snd].
  rewrite notifyTaskUpdate_dataStore. simpl.
  split; [now apply get_delete_eq|].
  split; [intros j Hj; apply get_delete_ne; congruence|].
  split; [now apply (length_delete_present i t)|].
  split.
  - destruct (fst (notifyTaskUpdate P DELETED _ _)) as [[]|e];
      [now left | right; now exists e].
  - intros Hs. now rewrite notifyTaskUpdate_session_sinks.
Qed.

(** Each store mutation keeps the task map consistent. *)
Lemma mutate_consistent m w :
  store_consistent (dataStore w) -> store_consistent (dataStore (mutate P m w)).
Proof.
  intros [Hwf Hid]. destruct m as [data|i updates|i]; unfold mutate, after.
  - rewrite createTask_run. cbn [snd]. rewrite notifyTaskUpdate_dataStore.
    simpl. split; [now apply wf_set|].
    intros k t Hin. apply In_set_inv in Hin as [[-> ->]|Hin];
      [reflexivity | now apply Hid].
  - destruct (JsMap.get i (tasks (dataStore w))) as [t0|] eqn:Hget.
    + rewrite (updateTask_run P i updates w t0 Hget). cbn [snd].
      rewrite notifyTaskUpdate_dataStore. simpl. split; [now apply wf_set|].
      intros k t Hin. apply In_set_inv in Hin as [[-> ->]|Hin];
        [|now apply Hid].
      simpl. apply Hid. now apply get_Some_In.
    + rewrite updateTask_absent by exact Hget. now split.
  - destruct (JsMap.get i (tasks (dataStore w))) as [t0|] eqn:Hget.
    + rewrite (deleteTask_run P i w t0 Hget). cbn [snd].
      rewrite notifyTaskUpdate_dataStore. simpl. split; [now apply wf_delete|].
      intros k t Hin. apply In_delete in Hin. now apply Hid.
    + rewrite deleteTask_absent by exact Hget. now split.
Qed.

Lemma for_each_unsubscribe_tasks handles w :
  tasks (dataStore (snd (for_each unsubscribe handles w))) = tasks (dataStore w).
Proof.
  revert w. induction handles as [|h handles IH]; intros w; [reflexivity|].
  cbn [for_each]. unfold bind. rewrite unsubscribe_run. now rewrite IH.
Qed.

Lemma fire_tasks c ev w :
  tasks (dataStore (after (fire c ev) w)) = tasks (dataStore w).
Proof. unfold after, fire, bind, gets. apply for_each_unsubscribe_tasks. Qed.

Lemma call_emit_error_tasks c err w :
  tasks (dataStore (after (call_emit_error c err) w)) = tasks (dataStore w).
Proof.
  unfold after, call_emit_error, bind, modify. cbn beta iota.
  match goal with
  | |- context [fire c ev_error ?w1] => exact (fire_tasks c ev_error w1)
  end.
Qed.

Lemma SubscribeTaskUpdates_tasks call w :
  tasks (dataStore (after (SubscribeTaskUpdates P call) w)) = tasks (dataStore w).
Proof.
  unfold after.
  destruct (authenticateCall P call) as [user|] eqn:Hauth.
  - rewrite (SubscribeTaskUpdates_run P call w user Hauth).
    destruct (is_broken (broken w) (call_id call)); [|reflexivity].
    exact (call_emit_error_tasks _ _ (registered_world call user w)).
  - unfold SubscribeTaskUpdates, try_catch. rewrite Hauth.
    pose proof (call_emit_error_tasks (call_id call) authentication_required w) as H.
    unfold after in H.
    destruct (call_emit_error (call_id call) authentication_required w)
      as [[[]|e] w1]; [exact H|].
    cbn [snd] in H. rewrite <- H.
    exact (call_emit_error_tasks _ _ w1).
Qed.

(** What a unary task handler does to the world: nothing, or one
    store mutation. *)
Lemma unary_handler_effect w w' :
  (exists call, w' = after (CreateTask P call) w) \/
  (exists call, w' = after (GetTask P call) w) \/
  (exists call, w' = after (UpdateTask P call) w) \/
  (exists call, w' = after (DeleteTask P call) w) \/
  (exists call, w' = after (ListTasks P call) w) ->
  w' = w \/ exists m, w' = mutate P m w.
Proof.
  intros [[call ->]|[[call ->]|[[call ->]|[[call ->]|[call ->]]]]].
  - unfold CreateTask. rewrite after_try_catch_ret.
    destruct (authenticateCall P call) as [user|]; [|now left].
    destruct (cr_title (request call)) as [ti|]; [|now left].
    destruct (cr_description (request call)) as [de|]; [|now left].
    destruct (negb (Js.truthy ti) || negb (Js.truthy de)); [now left|].
    rewrite (after_bind_ret _ (@Ok Task)). right.
    now eexists (Create _).
  - left. unfold GetTask. rewrite after_try_catch_ret.
    destruct (authenticateCall P call) as [user|]; [|reflexivity].
    unfold after, bind, gets. now destruct (getTask _ _).
  - unfold UpdateTask. rewrite after_try_catch_ret.
    destruct (authenticateCall P call) as [user|]; [|now left].
    unfold after, bind, gets.
    destruct (getTask (ur_id (request call)) (dataStore w)) as [existing|];
      [|now left].
    right. exists (Update (ur_id (request call)) (build_updates (request call))).
    unfold mutate, after.
    now destruct (updateTask P (ur_id (request call)) (build_updates (request call)) w)
      as [[[updated|]|e] w2].
  - unfold DeleteTask. rewrite after_try_catch_ret.
    destruct (authenticateCall P call) as [user|]; [|now left].
    right. exists (Delete (dr_id (request call))).
    unfold mutate, after, bind.
    now destruct (deleteTask P (dr_id (request call)) w) as [[[]|e] w2].
  - left. unfold ListTasks. rewrite after_try_catch_ret.
    now destruct (authenticateCall P call) as [user|].
Qed.

(** X4. Every step of the server (a handler run, a cancellation or
    error reported on a call, a stream breaking) keeps both maps of the
    store as they should be: the task map has one entry per key and
    files each record under its own identifier, and the subscriber map
    has one entry per key and holds session sinks only. *)
Theorem step_keeps_store_consistent w w' :
  step P w w' ->
  (store_consistent (dataStore w) -> store_consistent (dataStore w')) /\
  (registry_invariant (taskUpdateSubscribers (dataStore w)) ->
   registry_invariant (taskUpdateSubscribers (dataStore w'))).
Proof.
  intros Hstep.
  assert (Hunary : (w' = w \/ exists m, w' = mutate P m w) ->
    (store_consistent (dataStore w) -> store_consistent (dataStore w')) /\
    (registry_invariant (taskUpdateSubscribers (dataStore w)) ->
     registry_invariant (taskUpdateSubscribers (dataStore w')))).
  { intros [->|[m ->]]; [tauto|]. split.
    - apply mutate_consistent.
    - now rewrite (proj1 (mutate_registry P m w)). }
  assert (Htasks : tasks (dataStore w') = tasks (dataStore w) ->
    store_consistent (dataStore w) -> store_consistent (dataStore w')).
  { unfold store_consistent. intros ->. tauto. }
  destruct Hstep.
  - apply Hunary, unary_handler_effect. left. now exists call.
  - apply Hunary, unary_handler_effect. right; left. now exists call.
  - apply Hunary, unary_handler_effect. right; right; left. now exists call.
  - apply Hunary, unary_handler_effect. right; right; right; left. now exists call.
  - apply Hunary, unary_handler_effect. right; right; right; right. now exists call.
  - split; [apply Htasks, SubscribeTaskUpdates_tasks|].
    now apply SubscribeTaskUpdates_invariant.
  - split; [apply Htasks, fire_tasks|]. intros Hinv.
    now apply fire_invariant.
  - split; intros H; exact H.
Qed.

End StoreOperations.

(* ================================================================== *)
(** ** Listing: what a page holds *)
(* ================================================================== *)

Lemma TaskStatus_eqb_eq a b : TaskStatus_eqb a b = true <-> a = b.
Proof. destruct a, b; simpl; split; intros H; try reflexivity; discriminate. Qed.

Lemma TaskPriority_eqb_eq a b : TaskPriority_eqb a b = true <-> a = b.
Proof. destruct a, b; simpl; split; intros H; try reflexivity; discriminate. Qed.

Lemma apply_filters_In f l t :
  In t (apply_filters f l) <-> In t l /\ passes_filters f t.
Proof.
  unfold apply_filters, passes_filters.
  set (l1 := match f_status_filter f with
             | Some st => filter (fun t => TaskStatus_eqb (status t) st) l
             | None => l
             end).
  set (l2 := match f_priority_filter f with
             | Some pr => filter (fun t => TaskPriority_eqb (priority t) pr) l1
             | None => l1
             end).
  assert (H1 : In t l1 <->
               In t l /\ (forall st, f_status_filter f = Some st -> status t = st)).
  { subst l1. destruct (f_status_filter f) as [st|].
    - rewrite filter_In, TaskStatus_eqb_eq. split.
      + intros [Hin Hs]. split; [exact Hin|]. now intros st' [= <-].
      + intros [Hin Hs]. split; [exact Hin | now apply Hs].
    - split; [intros Hin; split; [exact Hin | discriminate] | tauto]. }
  assert (H2 : In t l2 <->
               In t l1 /\ (forall pr, f_priority_filter f = Some pr -> priority t = pr)).
  { subst l2. destruct (f_priority_filter f) as [pr|].
    - rewrite filter_In, TaskPriority_eqb_eq. split.
      + intros [Hin Hs]. split; [exact Hin|]. now intros pr' [= <-].
      + intros [Hin Hs]. split; [exact Hin | now apply Hs].
    - split; [intros Hin; split; [exact Hin | discriminate] | tauto]. }
  assert (H3 : In t (match f_assignee_filter f with
                     | Some a =>
                         if Js.truthy a
                         then filter (fun t => String.eqb (assignee_id t) a) l2
                         else l2
                     | None => l2
                     end) <->
               In t l2 /\
               (forall a, f_assignee_filter f = Some a -> Js.truthy a = true ->
                          assignee_id t = a)).
  { destruct (f_assignee_filter f) as [a|].
    - destruct (Js.truthy a) eqn:Ha.
      + rewrite filter_In, String.eqb_eq. split.
        * intros [Hin Hs]. split; [exact Hin|]. now intros a' [= <-].
        * intros [Hin Hs]. split; [exact Hin | now apply Hs].
      + split; [intros Hin; split; [exact Hin|] | tauto].
        intros a' [= <-] Ht. congruence.
    - split; [intros Hin; split; [exact Hin | discriminate] | tauto]. }
  rewrite H3, H2, H1. tauto.
Qed.

Lemma In_slice {A : Type} (l : list A) a b x : In x (Js.slice l a b) -> In x l.
Proof.
  destruct (slice_segment l a b) as (front & back & Heq).
  intros H. rewrite Heq. apply in_or_app. right. apply in_or_app. now left.
Qed.

(** X5. Every record on a page of [listTasks] is a record of the task
    map and passes each filter that was supplied: its status is the
    status filter, its priority is the priority filter, its assignee is
    the (non-empty) assignee filter. *)
Theorem listTasks_page_records_pass_filters f s t :
  In t (resp_tasks (listTasks f s)) ->
  In t (JsMap.values (tasks s)) /\ passes_filters f t.
Proof.
  unfold listTasks. cbn [resp_tasks]. intros H.
  apply In_slice in H.
  apply (Permutation_in _ (sort_by_created_desc_perm _)) in H.
  now apply apply_filters_In.
Qed.

Lemma apply_filters_on_page f p l : apply_filters (on_page f p) l = apply_filters f l.
Proof. reflexivity. Qed.

Lemma slice_forward {A : Type} (l : list A) a n :
  (0 <= a)%Z -> (0 <= n)%Z ->
  Js.slice l a (a + n) = firstn (Z.to_nat n) (skipn (Z.to_nat a) l).
Proof.
  intros Ha Hn. unfold Js.slice.
  assert (E1 : (a <? 0)%Z = false) by (apply Z.ltb_ge; lia).
  assert (E2 : (a + n <? 0)%Z = false) by (apply Z.ltb_ge; lia).
  rewrite E1, E2.
  set (len := Z.of_nat (List.length l)).
  destruct (Z.le_gt_cases len a) as [Hge|Hlt].
  - rewrite !skipn_all2 by (subst len; lia). now rewrite !firstn_nil.
  - replace (Z.min a len) with a by lia.
    destruct (Z.le_gt_cases (a + n) len) as [Hin|Hout].
    + now replace (Z.min (a + n) len - a)%Z with n by lia.
    + replace (Z.min (a + n) len - a)%Z with (len - a)%Z by lia.
      rewrite !firstn_all2; [reflexivity| |]; rewrite length_skipn; subst len; lia.
Qed.

Lemma firstn_chunks {A : Type} (l : list A) sz n :
  List.concat (map (fun k => firstn sz (skipn (k * sz) l)) (seq 0 n)) = firstn (n * sz) l.
Proof.
  induction n as [|n IH]; [reflexivity|].
  rewrite seq_S, map_app, concat_app, IH. simpl. rewrite app_nil_r.
  rewrite <- (firstn_skipn (n * sz) (firstn (sz + n * sz) l)).
  rewrite firstn_firstn, Nat.min_l by lia. f_equal.
  rewrite skipn_firstn_comm. f_equal. lia.
Qed.

(** X6. For a positive page size, page [p] (counted from 1) of
    [listTasks] is the [p]-th run of [page_size] records of the
    matching records put newest first; the first [n] pages put end to
    end are the first [n * page_size] of them, so pages do not overlap
    and skip nothing, and once [n * page_size] reaches the total count
    they are all the matching records. A page past the end is empty. *)
Theorem listTasks_pages_partition f s n :
  (0 < f_page_size f)%Z ->
  let sz := Z.to_nat (f_page_size f) in
  let all := sort_by_created_desc (apply_filters f (JsMap.values (tasks s))) in
  let page p := resp_tasks (listTasks (on_page f (Z.of_nat p)) s) in
  (forall p, 1 <= p -> page p = firstn sz (skipn ((p - 1) * sz) all)) /\
  List.concat (map page (seq 1 n)) = firstn (n * sz) all /\
  (resp_total_count (listTasks f s) <= n * sz -> List.concat (map page (seq 1 n)) = all) /\
  (forall p, resp_total_count (listTasks f s) <= (p - 1) * sz -> 1 <= p -> page p = []).
Proof.
  intros Hsz sz all page.
  assert (Hpage : forall p, 1 <= p -> page p = firstn sz (skipn ((p - 1) * sz) all)).
  { intros p Hp. subst page. unfold listTasks.
    cbn [resp_tasks on_page f_page f_page_size f_status_filter f_priority_filter
         f_assignee_filter]. rewrite apply_filters_on_page. fold all.
    rewrite slice_forward by nia. subst sz. f_equal. f_equal. nia. }
  assert (Hcat : List.concat (map page (seq 1 n)) = firstn (n * sz) all).
  { rewrite <- firstn_chunks. f_equal.
    rewrite <- seq_shift, map_map. apply map_ext_in.
    intros k _. rewrite Hpage by lia. f_equal. f_equal. lia. }
  assert (Hlen : resp_total_count (listTasks f s) = List.length all).
  { reflexivity. }
  repeat split.
  - exact Hpage.
  - exact Hcat.
  - intros Hn. rewrite Hcat. apply firstn_all2. lia.
  - intros p Hp H1. rewrite Hpage by exact H1.
    rewrite skipn_all2 by lia. apply firstn_nil.
Qed.

Lemma NoDup_map_filter {A B : Type} (g : A -> B) (q : A -> bool) l :
  NoDup (map g l) -> NoDup (map g (filter q l)).
Proof.
  induction l as [|x l IH]; simpl; [auto|].
  intros H. inversion H as [|? ? Hx Hl]; subst.
  destruct (q x); [|now apply IH]. simpl. constructor; [|now apply IH].
  intros Hin. apply Hx. apply in_map_iff in Hin as [y [Hy Hin]].
  apply filter_In in Hin as [Hin _]. rewrite <- Hy. now apply in_map.
Qed.

Lemma apply_filters_NoDup {B : Type} (g : Task -> B) f l :
  NoDup (map g l) -> NoDup (map g (apply_filters f l)).
Proof.
  intros H. unfold apply_filters.
  destruct (f_status_filter f), (f_priority_filter f), (f_assignee_filter f) as [a|];
    try destruct (Js.truthy a);
    repeat apply NoDup_map_filter; exact H.
Qed.

(** X7. In a consistent store no listing shows a task twice: the
    identifiers of the records on a page are pairwise distinct. *)
Theorem listTasks_page_has_no_duplicates f s :
  store_consistent s ->
  NoDup (map id (resp_tasks (listTasks f s))).
Proof.
  intros [Hwf Hid]. unfold listTasks. cbn [resp_tasks].
  set (sorted := sort_by_created_desc _).
  assert (Hs : NoDup (map id sorted)).
  { subst sorted.
    eapply Permutation_NoDup.
    - apply Permutation_map. symmetry. apply sort_by_created_desc_perm.
    - apply apply_filters_NoDup.
      replace (map id (JsMap.values (tasks s))) with (JsMap.keys (tasks s));
        [exact Hwf|].
      unfold JsMap.keys, JsMap.values. rewrite map_map. apply map_ext_in.
      intros [k t] Hin. simpl. symmetry. now apply Hid. }
  destruct (slice_segment sorted
              ((f_page f - 1) * f_page_size f)
              ((f_page f - 1) * f_page_size f + f_page_size f))
    as (front & back & Heq).
  rewrite Heq, !map_app in Hs.
  apply NoDup_app_remove_l in Hs. now apply NoDup_app_remove_r in Hs.
Qed.

(* ================================================================== *)
(** ** The handlers: rejections, validation, missing tasks *)
(* ================================================================== *)

Section Handlers.
Variable P : Platform.

(** X8. [GetTask], [UpdateTask], [DeleteTask] and [ListTasks] answer a
    call whose credential is absent or does not verify with
    UNAUTHENTICATED and leave the world exactly as it was: nothing is
    read out, stored, removed or broadcast. *)
Theorem unary_handlers_reject_unauthenticated w :
  (forall call, rejected P call ->
     GetTask P call w = (Returned (Err authentication_required), w)) /\
  (forall call, rejected P call ->
     UpdateTask P call w = (Returned (Err authentication_required), w)) /\
  (forall call, rejected P call ->
     DeleteTask P call w = (Returned (Err authentication_required), w)) /\
  (forall call, rejected P call ->
     ListTasks P call w = (Returned (Err authentication_required), w)) /\
  code authentication_required = UNAUTHENTICATED.
Proof.
  repeat split; intros call Hrej;
    unfold GetTask, UpdateTask, DeleteTask, ListTasks, try_catch;
    now rewrite (authenticateCall_rejected P call Hrej).
Qed.

Lemma fire_no_listener c ev w :
  listeners_of c ev (listeners w) = [] -> fire c ev w = (Returned tt, w).
Proof. intros H. unfold fire, bind, gets. now rewrite H. Qed.

(** X9. [SubscribeTaskUpdates] on a call whose credential is absent or
    does not verify ends the call with UNAUTHENTICATED and does nothing
    else: no subscription is registered, no listener is added and no
    message is written. *)
Theorem SubscribeTaskUpdates_rejects_unauthenticated
    (call : Call SubscribeTaskUpdatesRequest) w :
  rejected P call ->
  listeners_of (call_id call) ev_error (listeners w) = [] ->
  SubscribeTaskUpdates P call w =
    (Returned tt, with_ended (call_id call) authentication_required w) /\
  code authentication_required = UNAUTHENTICATED /\
  dataStore (after (SubscribeTaskUpdates P call) w) = dataStore w /\
  wire (after (SubscribeTaskUpdates P call) w) = wire w /\
  listeners (after (SubscribeTaskUpdates P call) w) = listeners w.
Proof.
  intros Hrej Hfresh.
  assert (H : SubscribeTaskUpdates P call w =
              (Returned tt, with_ended (call_id call) authentication_required w)).
  { unfold SubscribeTaskUpdates, try_catch.
    rewrite (authenticateCall_rejected P call Hrej).
    unfold call_emit_error, bind, modify. cbn beta iota.
    fold (with_ended (call_id call) authentication_required w).
    now rewrite fire_no_listener. }
  unfold after. rewrite H. repeat split.
Qed.

(** X10. An authenticated [CreateTask] whose title or description is
    missing or empty is answered INVALID_ARGUMENT and leaves the world
    exactly as it was. *)
Theorem CreateTask_requires_title_and_description
    (call : Call CreateTaskRequest) w user :
  authenticateCall P call = Some user ->
  falsy (cr_title (request call)) \/ falsy (cr_description (request call)) ->
  exists e,
    CreateTask P call w = (Returned (Err e), w) /\ code e = INVALID_ARGUMENT.
Proof.
  intros Hauth Hfalsy.
  exists (mkServiceError INVALID_ARGUMENT "Title and description are required").
  split; [|reflexivity].
  unfold CreateTask, try_catch. rewrite Hauth.
  destruct (cr_title (request call)) as [ti|] eqn:Et;
    destruct (cr_description (request call)) as [de|] eqn:Ed; try reflexivity.
  destruct Hfalsy as [[H|H]|[H|H]]; try discriminate; injection H as ->;
    [reflexivity|].
  now destruct (Js.truthy ti).
Qed.

(** [GetTask] never changes the world. For an authenticated call
    it answers with the record stored under the requested identifier,
    or with NOT_FOUND when there is none. *)
Theorem GetTask_reads_only (call : Call GetTaskRequest) w :
  snd (GetTask P call w) = w /\
  (forall user, authenticateCall P call = Some user ->
     fst (GetTask P call w) =
     match getTask (gr_id (request call)) (dataStore w) with
     | Some t => Returned (Ok t)
     | None => Returned (Err task_not_found)
     end) /\
  code task_not_found = NOT_FOUND.
Proof.
  unfold GetTask, try_catch.
  destruct (authenticateCall P call) as [user|].
  - unfold bind, gets. cbn beta iota.
    destruct (getTask (gr_id (request call)) (dataStore w)) as [t|];
      repeat split; intros user' _; reflexivity.
  - repeat split. intros user' H. discriminate.
Qed.

(** An authenticated [UpdateTask] or [DeleteTask] for an
    identifier that is not stored is answered NOT_FOUND and leaves the
    world exactly as it was: nothing is stored, no clock is read and no
    event is broadcast. *)
Theorem UpdateTask_DeleteTask_not_found w :
  (forall (call : Call UpdateTaskRequest) user,
      authenticateCall P call = Some user ->
      getTask (ur_id (request call)) (dataStore w) = None ->
      UpdateTask P call w = (Returned (Err task_not_found), w)) /\
  (forall (call : Call DeleteTaskRequest) user,
      authenticateCall P call = Some user ->
      getTask (dr_id (request call)) (dataStore w) = None ->
      DeleteTask P call w = (Returned (Err task_not_found), w)) /\
  code task_not_found = NOT_FOUND.
Proof.
  repeat split.
  - intros call user Hauth Hget. unfold UpdateTask, try_catch. rewrite Hauth.
    unfold bind, gets. cbn beta iota. now rewrite Hget.
  - intros call user Hauth Hget. unfold DeleteTask, try_catch. rewrite Hauth.
    unfold bind. rewrite deleteTask_absent by exact Hget. reflexivity.
Qed.

Lemma deleteTask_store i w t :
  JsMap.get i (tasks (dataStore w)) = Some t ->
  dataStore (after (deleteTask P i) w) =
  mkDataStore (JsMap.delete i (tasks (dataStore w)))
              (taskUpdateSubscribers (dataStore w)).
Proof.
  intros Hget. unfold after. rewrite (deleteTask_run P i w t Hget). cbn [snd].
  now rewrite notifyTaskUpdate_dataStore.
Qed.

Lemma GetTask_run (call : Call GetTaskRequest) w user :
  authenticateCall P call = Some user ->
  GetTask P call w =
  (match getTask (gr_id (request call)) (dataStore w) with
   | Some t => Returned (Ok t)
   | None => Returned (Err task_not_found)
   end, w).
Proof.
  intros Hauth. unfold GetTask, try_catch. rewrite Hauth. unfold bind, gets.
  cbn beta iota. now destruct (getTask (gr_id (request call)) (dataStore w)).
Qed.

Lemma UpdateTask_DeleteTask_not_found_aux w :
  (forall (call : Call UpdateTaskRequest) user,
      authenticateCall P call = Some user ->
      getTask (ur_id (request call)) (dataStore w) = None ->
      UpdateTask P call w = (Returned (Err task_not_found), w)) /\
  (forall (call : Call DeleteTaskRequest) user,
      authenticateCall P call = Some user ->
      getTask (dr_id (request call)) (dataStore w) = None ->
      DeleteTask P call w = (Returned (Err task_not_found), w)).
Proof.
  split.
  - intros call user Hauth Hget. unfold UpdateTask, try_catch. rewrite Hauth.
    unfold bind, gets. cbn beta iota. now rewrite Hget.
  - intros call user Hauth Hget. unfold DeleteTask, try_catch. rewrite Hauth.
    unfold bind. rewrite deleteTask_absent by exact Hget. reflexivity.
Qed.

Lemma DeleteTask_run (call : Call DeleteTaskRequest) w user :
  authenticateCall P call = Some user ->
  DeleteTask P call w =
  match deleteTask P (dr_id (request call)) w with
  | (Returned true, w') => (Returned (Ok tt), w')
  | (Returned false, w') => (Returned (Err task_not_found), w')
  | (Thrown _, w') => (Returned (Err internal_server_error), w')
  end.
Proof.
  intros Hauth. unfold DeleteTask, try_catch. rewrite Hauth. unfold bind.
  now destruct (deleteTask P (dr_id (request call)) w) as [[[]|e] w'].
Qed.

(** X11. After an authenticated [DeleteTask] of a stored task (in a
    well-formed task map, with session sinks registered) has answered
    with the empty message, the task is gone for good: an authenticated
    [GetTask], [UpdateTask] or second [DeleteTask] for the same
    identifier is answered NOT_FOUND and changes nothing. *)
Theorem DeleteTask_then_not_found (call : Call DeleteTaskRequest) w user t :
  authenticateCall P call = Some user ->
  JsMap.wf (tasks (dataStore w)) ->
  session_sinks_only (taskUpdateSubscribers (dataStore w)) ->
  getTask (dr_id (request call)) (dataStore w) = Some t ->
  let w' := after (DeleteTask P call) w in
  fst (DeleteTask P call w) = Returned (Ok tt) /\
  getTask (dr_id (request call)) (dataStore w') = None /\
  DeleteTask P call w' = (Returned (Err task_not_found), w') /\
  (forall (get : Call GetTaskRequest) u,
      authenticateCall P get = Some u ->
      gr_id (request get) = dr_id (request call) ->
      GetTask P get w' = (Returned (Err task_not_found), w')) /\
  (forall (upd : Call UpdateTaskRequest) u,
      authenticateCall P upd = Some u ->
      ur_id (request upd) = dr_id (request call) ->
      UpdateTask P upd w' = (Returned (Err task_not_found), w')).
Proof.
  intros Hauth Hwf Hs Hget w'. unfold getTask in Hget.
  assert (Hrun : DeleteTask P call w =
                 (Returned (Ok tt), after (deleteTask P (dr_id (request call))) w)).
  { rewrite (DeleteTask_run call w user Hauth). unfold after.
    rewrite (deleteTask_run P _ w t Hget). cbn [fst snd].
    now rewrite notifyTaskUpdate_session_sinks by exact Hs. }
  assert (Hgone : getTask (dr_id (request call)) (dataStore w') = None).
  { subst w'. unfold after at 1. rewrite Hrun. cbn [snd].
    rewrite (deleteTask_store _ w t Hget). unfold getTask. simpl.
    now apply get_delete_eq. }
  split; [now rewrite Hrun|].
  split; [exact Hgone|].
  pose proof (UpdateTask_DeleteTask_not_found_aux w') as (Hu & Hd).
  split; [now apply (Hd call user)|].
  split.
  - intros get u Hu' Hid.
    pose proof (GetTask_run get w' u Hu') as Hg.
    rewrite Hid, Hgone in Hg. exact Hg.
  - intros upd u Hu' Hid. apply (Hu upd u Hu'). now rewrite Hid.
Qed.

Lemma CreateTask_replies (call : Call CreateTaskRequest) w :
  session_sinks_only (taskUpdateSubscribers (dataStore w)) ->
  forall e, fst (CreateTask P call w) = Returned (Err e) -> code e <> INTERNAL.
Proof.
  intros Hs e. unfold CreateTask, try_catch.
  destruct (authenticateCall P call) as [user|]; [|intros [= <-]; discriminate].
  destruct (cr_title (request call)) as [ti|]; [|intros [= <-]; discriminate].
  destruct (cr_description (request call)) as [de|]; [|intros [= <-]; discriminate].
  destruct (negb (Js.truthy ti) || negb (Js.truthy de));
    [intros [= <-]; discriminate|].
  unfold bind.
  pose proof (createTask_completes P
    (mkTaskData ti de PENDING (or_else (cr_priority (request call)) MEDIUM)
       (Js.str_or (cr_assignee_id (request call)) (user_id user))
       (cr_due_date (request call)) (or_else (cr_tags (request call)) [])) w Hs) as Hc.
  destruct (createTask P _ w) as [[t|x] w1]; simpl in Hc; [|discriminate].
  discriminate.
Qed.

Lemma UpdateTask_replies (call : Call UpdateTaskRequest) w :
  session_sinks_only (taskUpdateSubscribers (dataStore w)) ->
  forall e, fst (UpdateTask P call w) = Returned (Err e) -> code e <> INTERNAL.
Proof.
  intros Hs e. unfold UpdateTask, try_catch.
  destruct (authenticateCall P call) as [user|]; [|intros [= <-]; discriminate].
  unfold bind, gets. cbn beta iota. unfold getTask.
  destruct (JsMap.get (ur_id (request call)) (tasks (dataStore w))) as [t|] eqn:Hget;
    [|intros [= <-]; discriminate].
  pose proof (updateTask_completes P (ur_id (request call))
                (build_updates (request call)) w t Hget Hs) as Hc.
  destruct (updateTask P _ _ w) as [[[u|]|x] w1]; simpl in Hc; discriminate.
Qed.

Lemma DeleteTask_replies (call : Call DeleteTaskRequest) w :
  session_sinks_only (taskUpdateSubscribers (dataStore w)) ->
  forall e, fst (DeleteTask P call w) = Returned (Err e) -> code e <> INTERNAL.
Proof.
  intros Hs e. unfold DeleteTask, try_catch.
  destruct (authenticateCall P call) as [user|]; [|intros [= <-]; discriminate].
  unfold bind.
  destruct (deleteTask_completes P (dr_id (request call)) w Hs) as [b Hb].
  destruct (deleteTask P _ w) as [[[]|x] w1]; simpl in Hb; try discriminate;
    intros [= <-]; discriminate.
Qed.

(** X12. Every unary task handler answers its call (it never lets an
    exception escape), and in every world the server reaches none of
    them answers INTERNAL: the only errors are UNAUTHENTICATED,
    INVALID_ARGUMENT and NOT_FOUND. [UpdateTask] never gives its
    'Failed to update task' answer in any world. *)
Theorem handlers_never_reply_internal w :
  reachable P w ->
  (forall call, exists r, fst (CreateTask P call w) = Returned r) /\
  (forall call, exists r, fst (GetTask P call w) = Returned r) /\
  (forall call, exists r, fst (UpdateTask P call w) = Returned r) /\
  (forall call, exists r, fst (DeleteTask P call w) = Returned r) /\
  (forall call, exists r, fst (ListTasks P call w) = Returned r) /\
  (forall call e, fst (CreateTask P call w) = Returned (Err e) -> code e <> INTERNAL) /\
  (forall call e, fst (GetTask P call w) = Returned (Err e) -> code e <> INTERNAL) /\
  (forall call e, fst (UpdateTask P call w) = Returned (Err e) -> code e <> INTERNAL) /\
  (forall call e, fst (DeleteTask P call w) = Returned (Err e) -> code e <> INTERNAL) /\
  (forall call e, fst (ListTasks P call w) = Returned (Err e) -> code e <> INTERNAL) /\
  (forall call w0,
      fst (UpdateTask P call w0) <>
      Returned (Err (mkServiceError INTERNAL "Failed to update task"))).
Proof.
  intros Hreach.
  destruct (reachable_registry_invariant P w Hreach) as [_ Hs].
  assert (Hret : forall (A : Type) (c : M (reply A)) w0,
             exists r, fst (try_catch c (fun _ => ret (Err internal_server_error)) w0)
                       = Returned r).
  { intros A c w0. unfold try_catch, ret.
    destruct (c w0) as [[r|x] w1]; eexists; reflexivity. }
  repeat split; try (intros call; apply Hret).
  - intros call. now apply CreateTask_replies.
  - intros call e. unfold GetTask, try_catch.
    destruct (authenticateCall P call) as [user|]; [|intros [= <-]; discriminate].
    unfold bind, gets. cbn beta iota.
    destruct (getTask _ _); intros [= <-]; discriminate.
  - intros call. now apply UpdateTask_replies.
  - intros call. now apply DeleteTask_replies.
  - intros call e. unfold ListTasks, try_catch.
    destruct (authenticateCall P call) as [user|]; [|intros [= <-]; discriminate].
    discriminate.
  - intros call w0. unfold UpdateTask, try_catch.
    destruct (authenticateCall P call) as [user|]; [|discriminate].
    unfold bind, gets. cbn beta iota. unfold getTask.
    destruct (JsMap.get (ur_id (request call)) (tasks (dataStore w0))) as [t|] eqn:Hget;
      [|discriminate].
    rewrite (updateTask_run P _ (build_updates (request call)) w0 t Hget).
    now destruct (fst (notifyTaskUpdate P UPDATED _ _)) as [[]|x].
Qed.

(** X13. The task a successful [CreateTask] answers with is assigned to
    the requested assignee when the request names a non-empty one and
    to the caller otherwise; it carries the requested title,
    description and due date, the identifier drawn for it, and the two
    clock readings taken for it as creation and modification time. *)
Theorem CreateTask_assigns_to_caller_by_default
    (call : Call CreateTaskRequest) w user t w' :
  authenticateCall P call = Some user ->
  CreateTask P call w = (Returned (Ok t), w') ->
  assignee_id t =
    match cr_assignee_id (request call) with
    | Some a => if Js.truthy a then a else user_id user
    | None => user_id user
    end /\
  cr_title (request call) = Some (title t) /\
  cr_description (request call) = Some (description t) /\
  due_date t = cr_due_date (request call) /\
  id t = uuidv4 P (uuid_draws w) /\
  created_at t = clock P (clock_reads w) /\
  updated_at t = clock P (S (clock_reads w)).
Proof.
  intros Hauth H. apply CreateTask_success in H
    as (user' & ti & de & Hauth' & Ht & Hd & -> & _).
  rewrite Hauth in Hauth'. injection Hauth' as <-.
  rewrite Ht, Hd. simpl. repeat split.
Qed.

End Handlers.

(* ================================================================== *)
(** ** Delivery: who receives which events *)
(* ================================================================== *)

Lemma deliver_updates bs u cbs c u' :
  In (c, u') (fst (deliver bs u cbs)) -> u' = u.
Proof.
  induction cbs as [|[c0|c0] cbs IH]; simpl; [tauto| |].
  - destruct (is_broken bs c0); [exact IH|].
    simpl. intros [[= _ <-]|H]; [reflexivity | now apply IH].
  - destruct (is_broken bs c0); simpl; [tauto|].
    intros [[= _ <-]|H]; [reflexivity | now apply IH].
Qed.

Lemma In_received c u w : In u (received c w) <-> In (c, u) (wire w).
Proof.
  unfold received. rewrite in_map_iff. split.
  - intros [[c' u'] [Hu Hin]]. simpl in Hu. subst u'.
    apply filter_In in Hin as [Hin Hc]. simpl in Hc.
    apply Nat.eqb_eq in Hc. now subst c'.
  - intros Hin. exists (c, u). split; [reflexivity|].
    apply filter_In. split; [exact Hin | apply Nat.eqb_refl].
Qed.

Lemma received_deliver_session_sinks bs u cbs c :
  (forall cb, In cb cbs -> is_session_sink cb = true) ->
  is_broken bs c = false ->
  map snd (filter (fun m : nat * TaskUpdate => Nat.eqb (fst m) c)
                  (fst (deliver bs u cbs))) =
  repeat u (List.length (filter (fun cb => Nat.eqb (stream_of cb) c) cbs)).
Proof.
  intros Hall Hc. rewrite deliver_session_sinks by exact Hall. cbn [fst].
  clear Hall. induction cbs as [|cb cbs IH]; [reflexivity|].
  cbn [filter]. destruct (Nat.eqb (stream_of cb) c) eqn:E.
  - assert (Hb : is_broken bs (stream_of cb) = false).
    { apply Nat.eqb_eq in E. now rewrite E. }
    rewrite Hb. cbn [negb map filter fst]. rewrite E. simpl. now rewrite IH.
  - destruct (negb (is_broken bs (stream_of cb))); [|exact IH].
    cbn [map filter fst]. rewrite E. exact IH.
Qed.

Section Delivery.
Variable P : Platform.

(** What one broadcast adds to the messages of a stream. *)
Lemma notifyTaskUpdate_received c ty t w :
  session_sinks_only (taskUpdateSubscribers (dataStore w)) ->
  is_broken (broken w) c = false ->
  received c (after (notifyTaskUpdate P ty t) w) =
  (received c w ++
   repeat (mkTaskUpdate ty t (clock P (clock_reads w)))
          (subscriptions_of (taskUpdateSubscribers (dataStore w)) c (id t)))%list.
Proof.
  intros Hs Hc. unfold after. rewrite notifyTaskUpdate_run. cbn [snd].
  unfold received, add_wire. cbn [wire tick]. rewrite filter_app, map_app.
  f_equal. unfold subscriptions_of.
  apply received_deliver_session_sinks; [|exact Hc].
  now apply session_sinks_targets.
Qed.

Lemma mutate_all_broken ms w : broken (mutate_all P ms w) = broken w.
Proof.
  unfold mutate_all. revert w. induction ms as [|m ms IH]; intros w; simpl.
  - reflexivity.
  - rewrite IH. apply mutate_registry.
Qed.

(** What one mutation adds to the messages of a stream called through
    exactly one subscription. *)
Lemma mutate_received c m w :
  session_sinks_only (taskUpdateSubscribers (dataStore w)) ->
  is_broken (broken w) c = false ->
  (forall task_id, subscriptions_of (taskUpdateSubscribers (dataStore w)) c task_id = 1) ->
  received c (mutate P m w) = (received c w ++ event_of P m w)%list.
Proof.
  intros Hs Hc Hone. destruct m as [data|i updates|i]; unfold mutate, after, event_of.
  - rewrite createTask_run. cbn [snd].
    rewrite notifyTaskUpdate_received by assumption.
    cbn [dataStore with_tasks with_dataStore taskUpdateSubscribers].
    now rewrite Hone.
  - unfold getTask.
    destruct (JsMap.get i (tasks (dataStore w))) as [t|] eqn:Hget.
    + rewrite (updateTask_run P i updates w t Hget). cbn [snd].
      rewrite notifyTaskUpdate_received by assumption.
      cbn [dataStore with_tasks with_dataStore taskUpdateSubscribers].
      now rewrite Hone.
    + rewrite updateTask_absent by exact Hget. cbn [snd]. now rewrite app_nil_r.
  - unfold getTask.
    destruct (JsMap.get i (tasks (dataStore w))) as [t|] eqn:Hget.
    + rewrite (deleteTask_run P i w t Hget). cbn [snd].
      rewrite notifyTaskUpdate_received by assumption.
      cbn [dataStore with_tasks with_dataStore taskUpdateSubscribers].
      now rewrite Hone.
    + rewrite deleteTask_absent by exact Hget. cbn [snd]. now rewrite app_nil_r.
Qed.

(** X14. A healthy stream that every event reaches through exactly
    one subscription (a single unfiltered session, say), in a registry
    of session sinks, receives from any sequence of store mutations
    exactly one event per mutation that took effect, in the order of
    the mutations: CREATED with the record as created, UPDATED with the
    merged record, DELETED with the record as it was; a mutation of a
    missing task sends nothing. *)
Theorem session_receives_each_event_once_in_order c ms w :
  session_sinks_only (taskUpdateSubscribers (dataStore w)) ->
  is_broken (broken w) c = false ->
  (forall task_id, subscriptions_of (taskUpdateSubscribers (dataStore w)) c task_id = 1) ->
  received c (mutate_all P ms w) = (received c w ++ events_of P ms w)%list.
Proof.
  unfold mutate_all. revert w. induction ms as [|m ms IH]; intros w Hs Hc Hone.
  - simpl. now rewrite app_nil_r.
  - cbn [fold_left events_of].
    destruct (mutate_registry P m w) as [Hr Hb].
    rewrite IH.
    + rewrite (mutate_received c m w Hs Hc Hone). now rewrite app_assoc.
    + now rewrite Hr.
    + now rewrite Hb.
    + intros task_id. now rewrite Hr.
Qed.

(** What a broadcast can add to a stream: only the event itself, and
    only through a key that matches the event's task. *)
Lemma notifyTaskUpdate_received_inv c ty t w u :
  In u (received c (after (notifyTaskUpdate P ty t) w)) ->
  In u (received c w) \/
  (task u = t /\ type u = ty /\
   exists key, serves (taskUpdateSubscribers (dataStore w)) c key /\
               key_matches key (id t) = true).
Proof.
  unfold after. rewrite notifyTaskUpdate_run. cbn [snd].
  rewrite !In_received. unfold add_wire. cbn [wire tick].
  intros H. apply in_app_or in H as [H|H]; [now left|]. right.
  pose proof (deliver_updates _ _ _ _ _ H) as ->.
  apply deliver_streams in H as [cb [Hcb Hst]].
  apply in_map_iff in Hcb as [[key cb'] [Hsnd Hin]]. simpl in Hsnd. subst cb'.
  apply In_targets in Hin as [[subs [H1 H2]] Hm].
  repeat split. exists key. split; [now exists subs, cb | exact Hm].
Qed.

Lemma mutate_received_inv c m w u :
  In u (received c (mutate P m w)) ->
  In u (received c w) \/
  exists key, serves (taskUpdateSubscribers (dataStore w)) c key /\
              key_matches key (id (task u)) = true.
Proof.
  destruct m as [data|i updates|i]; unfold mutate, after.
  - rewrite createTask_run. cbn [snd]. intros H.
    apply notifyTaskUpdate_received_inv in H as [H|(-> & _ & key & Hs & Hm)];
      [now left | right; now exists key].
  - destruct (JsMap.get i (tasks (dataStore w))) as [t|] eqn:Hget.
    + rewrite (updateTask_run P i updates w t Hget). cbn [snd]. intros H.
      apply notifyTaskUpdate_received_inv in H as [H|(-> & _ & key & Hs & Hm)];
        [now left | right; now exists key].
    + rewrite updateTask_absent by exact Hget. now left.
  - destruct (JsMap.get i (tasks (dataStore w))) as [t|] eqn:Hget.
    + rewrite (deleteTask_run P i w t Hget). cbn [snd]. intros H.
      apply notifyTaskUpdate_received_inv in H as [H|(-> & _ & key & Hs & Hm)];
        [now left | right; now exists key].
    + rewrite deleteTask_absent by exact Hget. now left.
Qed.

Lemma mutate_all_received_inv c ms w u :
  In u (received c (mutate_all P ms w)) ->
  In u (received c w) \/
  exists key, serves (taskUpdateSubscribers (dataStore w)) c key /\
              key_matches key (id (task u)) = true.
Proof.
  unfold mutate_all. revert w. induction ms as [|m ms IH]; intros w H.
  - now left.
  - cbn [fold_left] in H. apply IH in H as [H|(key & Hs & Hm)].
    + now apply (mutate_received_inv c m w u).
    + right. exists key. split; [|exact Hm].
      now rewrite (proj1 (mutate_registry P m w)) in Hs.
Qed.

(** X15. When neither the user identifier nor any requested task
    identifier holds [':'] or [','], a stream served only by the
    subscription opened with that identifier list receives, from any
    sequence of store mutations, only events about tasks whose
    identifier is in the list. *)
Theorem filtered_stream_receives_only_listed_tasks userId ids c ms w u :
  Js.includes_char ":" userId = false ->
  (forall x, In x ids -> Js.includes_char ":" x = false) ->
  (forall x, In x ids -> Js.includes_char "," x = false) ->
  (forall key, serves (taskUpdateSubscribers (dataStore w)) c key ->
               key = subscription_key userId (Some ids)) ->
  In u (received c (mutate_all P ms w)) ->
  In u (received c w) \/ In (id (task u)) ids.
Proof.
  intros Hu Hc Hm Hex H.
  apply mutate_all_received_inv in H as [H|(key & Hs & Hk)]; [now left|].
  right. rewrite (Hex key Hs) in Hk.
  now apply (key_matches_filtered_sound userId ids).
Qed.

End Delivery.

Lemma join_truthy ids :
  ids <> [] -> (forall x, In x ids -> Js.truthy x = true) ->
  Js.truthy (Js.join "," ids) = true.
Proof.
  destruct ids as [|x ids]; [congruence|]. intros _ H.
  pose proof (H x (or_introl eq_refl)) as Hx.
  destruct ids as [|y ids]; [exact Hx|].
  change (Js.join "," (x :: y :: ids))
    with (x ++ String "," (Js.join "," (y :: ids))).
  destruct x; [discriminate | reflexivity].
Qed.

(** X16. The key a subscription is filed under and the test
    [notifyTaskUpdate] applies to it agree with the request whenever
    no separator gets in the way. For a user identifier without [':']:
    a subscription opened without an identifier list matches every
    task; one opened with a list of non-empty identifiers, none holding
    [':'] or [','], matches exactly the tasks whose identifier is in
    the list. *)
Theorem subscription_key_matches_as_requested userId ids task_id :
  Js.includes_char ":" userId = false ->
  (forall x, In x ids ->
     Js.truthy x = true /\ Js.includes_char ":" x = false /\
     Js.includes_char "," x = false) ->
  key_matches (subscription_key userId None) task_id = true /\
  (key_matches (subscription_key userId (Some ids)) task_id = true <-> In task_id ids).
Proof.
  intros Hu Hids. split; [now apply key_matches_general|].
  rewrite key_matches_filtered by exact Hu.
  rewrite split_free by (apply join_free; [discriminate | intros x Hx; now apply Hids]).
  destruct ids as [|x ids]; [simpl; split; [discriminate | tauto]|].
  rewrite split_join by (try discriminate; intros y Hy; now apply Hids).
  rewrite join_truthy by (try discriminate; intros y Hy; now apply Hids).
  apply array_includes_In.
Qed.

(* ================================================================== *)
(** ** A session whose first write fails *)
(* ================================================================== *)

Lemma for_each_unsubscribe_frame handles w :
  fst (for_each unsubscribe handles w) = Returned tt /\
  wire (snd (for_each unsubscribe handles w)) = wire w /\
  ended (snd (for_each unsubscribe handles w)) = ended w /\
  listeners (snd (for_each unsubscribe handles w)) = listeners w.
Proof.
  revert w. induction handles as [|h handles IH]; intros w; [now repeat split|].
  cbn [for_each]. unfold bind. rewrite unsubscribe_run.
  set (w1 := with_subscribers _ w).
  destruct (IH w1) as (H1 & H2 & H3 & H4).
  now repeat split.
Qed.

Lemma for_each_unsubscribe_keeps_out key cb handles w :
  JsMap.wf (taskUpdateSubscribers (dataStore w)) ->
  ~ registered key cb (taskUpdateSubscribers (dataStore w)) ->
  JsMap.wf (taskUpdateSubscribers (dataStore (snd (for_each unsubscribe handles w)))) /\
  ~ registered key cb
      (taskUpdateSubscribers (dataStore (snd (for_each unsubscribe handles w)))).
Proof.
  revert w. induction handles as [|h handles IH]; intros w Hwf Hout; [now split|].
  cbn [for_each]. unfold bind. rewrite unsubscribe_run.
  apply IH; simpl.
  - now apply unregister_wf.
  - intros Hr. apply Hout. now apply (unregister_registered_inv (fst h) (snd h)).
Qed.

Lemma for_each_unsubscribe_removes key cb handles w :
  JsMap.wf (taskUpdateSubscribers (dataStore w)) ->
  In (key, cb) handles ->
  ~ registered key cb
      (taskUpdateSubscribers (dataStore (snd (for_each unsubscribe handles w)))).
Proof.
  revert w. induction handles as [|h handles IH]; intros w Hwf Hin; [destruct Hin|].
  cbn [for_each]. unfold bind. rewrite unsubscribe_run.
  destruct Hin as [->|Hin].
  - apply for_each_unsubscribe_keeps_out; simpl.
    + now apply unregister_wf.
    + now apply unregister_not_registered.
  - apply IH; [|exact Hin]. simpl. now apply unregister_wf.
Qed.

Section FailedOpen.
Variable P : Platform.

(** X18. When the first write of an authenticated
    [SubscribeTaskUpdates] fails, the session does not stay behind: the
    ['error'] listener it has just registered runs, so its sink is not
    in the subscriber map afterwards; the call is ended with INTERNAL,
    nothing is written and the task map is untouched. *)
Theorem SubscribeTaskUpdates_failed_open_unregisters
    (call : Call SubscribeTaskUpdatesRequest) w user :
  authenticateCall P call = Some user ->
  is_broken (broken w) (call_id call) = true ->
  JsMap.wf (taskUpdateSubscribers (dataStore w)) ->
  let w' := after (SubscribeTaskUpdates P call) w in
  fst (SubscribeTaskUpdates P call w) = Returned tt /\
  ~ registered (subscription_key (user_id user) (sr_task_ids (request call)))
      (SessionSink (call_id call)) (taskUpdateSubscribers (dataStore w')) /\
  ended w' = (ended w ++ [(call_id call, internal_server_error)])%list /\
  code internal_server_error = INTERNAL /\
  wire w' = wire w /\
  tasks (dataStore w') = tasks (dataStore w).
Proof.
  intros Hauth Hb Hwf w'. subst w'. unfold after.
  rewrite (SubscribeTaskUpdates_run P call w user Hauth), Hb.
  unfold call_emit_error, bind, modify. cbn beta iota.
  unfold fire, bind, gets. cbn beta iota.
  set (key := subscription_key (user_id user) (sr_task_ids (request call))).
  set (cb := SessionSink (call_id call)).
  match goal with
  | |- context [for_each unsubscribe ?hs ?w1] =>
      set (handles := hs); set (w1' := w1)
  end.
  assert (Hin : In (key, cb) handles).
  { subst handles. unfold listeners_of. apply in_map_iff.
    exists (call_id call, ev_error, (key, cb)). split; [reflexivity|].
    apply filter_In. split.
    - cbn [listeners]. unfold registered_world. cbn [listeners].
      apply in_or_app. right. now left.
    - simpl. now rewrite Nat.eqb_refl. }
  assert (Hwf1 : JsMap.wf (taskUpdateSubscribers (dataStore w1'))).
  { subst w1'. simpl. now apply register_wf. }
  destruct (for_each_unsubscribe_frame handles w1') as (H1 & H2 & H3 & H4).
  split; [exact H1|].
  split; [now apply for_each_unsubscribe_removes|].
  split; [rewrite H3; reflexivity|].
  split; [reflexivity|].
  split; [rewrite H2; reflexivity|].
  now rewrite for_each_unsubscribe_tasks.
Qed.

End FailedOpen.

(* ================================================================== *)
(** ** Credentials *)
(* ================================================================== *)

Lemma substring_all s : String.substring 0 (String.length s) s = s.
Proof. induction s as [|a s IH]; simpl; [reflexivity | now rewrite IH]. Qed.

Lemma strip_bearer token :
  Js.startsWith "Bearer " ("Bearer " ++ token) = true /\
  Js.substring 7 ("Bearer " ++ token) = token.
Proof.
  split.
  - unfold Js.startsWith. simpl. now destruct token.
  - unfold Js.substring. simpl. rewrite Nat.sub_0_r. apply substring_all.
Qed.

Section Credentials.
Variable P : Platform.

(** X19. A token sent as ["Bearer " ++ token] in the first
    [authorization] value comes out of [extractTokenFromMetadata] as
    [token], whatever the other values and headers are, and
    [authenticateCall] then answers what [jwt.verify] answers for it
    (nothing for the empty token). A first value that does not start
    with ["Bearer "] is taken whole as the token. *)
Theorem bearer_token_round_trip {R : Type} (call : Call R) token others :
  metadata_get "authorization" (metadata call) = ("Bearer " ++ token) :: others ->
  extractTokenFromMetadata (metadata call) = Some token /\
  authenticateCall P call =
    (if Js.truthy token then jwt_verify P token else None) /\
  (forall (raw : Call R) header rest,
      metadata_get "authorization" (metadata raw) = header :: rest ->
      Js.startsWith "Bearer " header = false ->
      extractTokenFromMetadata (metadata raw) = Some header).
Proof.
  intros Hget. destruct (strip_bearer token) as [Hp Hs].
  assert (He : extractTokenFromMetadata (metadata call) = Some token).
  { unfold extractTokenFromMetadata. now rewrite Hget, Hp, Hs. }
  split; [exact He|]. split.
  - unfold authenticateCall. now rewrite He.
  - intros raw header rest Hraw Hno. unfold extractTokenFromMetadata.
    now rewrite Hraw, Hno.
Qed.

(** [authenticateCall] resolves a caller exactly when the call
    carries a non-empty token that [jwt.verify] accepts, and the caller
    it resolves is the payload of that token; a call without an
    [authorization] value resolves nobody. *)
Theorem authenticateCall_accepts_exactly_verified_tokens {R : Type}
    (call : Call R) user :
  (authenticateCall P call = Some user <->
   exists token,
     extractTokenFromMetadata (metadata call) = Some token /\
     token <> EmptyString /\ jwt_verify P token = Some user) /\
  (metadata_get "authorization" (metadata call) = [] ->
   authenticateCall P call = None).
Proof.
  split.
  - unfold authenticateCall, verifyToken.
    destruct (extractTokenFromMetadata (metadata call)) as [token|].
    + destruct token as [|a token]; simpl.
      * split; [discriminate|]. intros (tok & [= <-] & Hne & _). congruence.
      * split.
        -- intros H. exists (String a token). repeat split; [discriminate | exact H].
        -- intros (tok & [= <-] & _ & H). exact H.
    + split; [discriminate|]. intros (tok & H & _). discriminate.
  - intros H. unfold authenticateCall, extractTokenFromMetadata. now rewrite H.
Qed.

End Credentials.

(* ================================================================== *)
(** ** Users and the authentication service *)
(* ================================================================== *)

Lemma find_app_Some {A : Type} (q : A -> bool) l l' x :
  find q l = Some x -> find q (l ++ l') = Some x.
Proof.
  induction l as [|y l IH]; simpl; [discriminate|].
  destruct (q y); [tauto | exact IH].
Qed.

Lemma find_app_None {A : Type} (q : A -> bool) l l' :
  find q l = None -> find q (l ++ l') = find q l'.
Proof.
  induction l as [|y l IH]; simpl; [reflexivity|].
  destruct (q y); [discriminate | exact IH].
Qed.

Section UserMap.
Variable P : Platform.

Lemma createUser_run data s :
  Accounts.createUser P data s =
  (Accounts.without_password
     (Accounts.mkStoredUser (uuidv4 P (uuid_draws (Accounts.world s)))
        (Accounts.s_username data) (Accounts.s_email data)
        (Accounts.s_full_name data)
        (clock P (clock_reads (Accounts.world s))) (Accounts.s_password data)),
   Accounts.mkServer (tick (drawn (Accounts.world s)))
     (JsMap.set (uuidv4 P (uuid_draws (Accounts.world s)))
        (Accounts.mkStoredUser (uuidv4 P (uuid_draws (Accounts.world s)))
           (Accounts.s_username data) (Accounts.s_email data)
           (Accounts.s_full_name data)
           (clock P (clock_reads (Accounts.world s))) (Accounts.s_password data))
        (Accounts.users s))
     (Accounts.hashes s) (Accounts.signatures s)).
Proof. reflexivity. Qed.

(** [createUser] stores the new user under the identifier it
    draws and stamps it with the clock reading it takes, whatever
    identifier and creation time its argument carries; the name, e-mail
    and full name are the argument's. [getUserById] with the new
    identifier then answers with the user [createUser] returned, and
    with what it answered before for every other identifier. *)
Theorem createUser_then_getUserById data s :
  let user := fst (Accounts.createUser P data s) in
  let s' := snd (Accounts.createUser P data s) in
  Accounts.u_id user = uuidv4 P (uuid_draws (Accounts.world s)) /\
  Accounts.u_created_at user = clock P (clock_reads (Accounts.world s)) /\
  Accounts.u_username user = Accounts.s_username data /\
  Accounts.u_email user = Accounts.s_email data /\
  Accounts.u_full_name user = Accounts.s_full_name data /\
  Accounts.getUserById (Accounts.u_id user) s' = Some user /\
  (forall i, i <> Accounts.u_id user ->
             Accounts.getUserById i s' = Accounts.getUserById i s).
Proof.
  intros user s'. subst user s'. rewrite createUser_run. cbn [fst snd].
  repeat (split; [reflexivity|]). split.
  - unfold Accounts.getUserById. cbn [Accounts.users Accounts.u_id
      Accounts.without_password Accounts.s_id].
    now rewrite get_set_eq.
  - intros i Hi. unfold Accounts.getUserById. cbn [Accounts.users].
    rewrite get_set_ne; [reflexivity|].
    intros E. apply Hi. now rewrite <- E.
Qed.

(** X20. [createUser] does not look at the names in use, and
    [getUserByUsername] answers with the earliest user of a name: once
    a name finds a user, creating further users (under identifiers not
    in use), with that name or another, never changes whom the name
    finds. A name that found nobody finds a new user created with it. *)
Theorem getUserByUsername_earliest_user_wins data s name :
  JsMap.get (uuidv4 P (uuid_draws (Accounts.world s))) (Accounts.users s) = None ->
  let s' := snd (Accounts.createUser P data s) in
  (forall user, Accounts.getUserByUsername name s = Some user ->
                Accounts.getUserByUsername name s' = Some user) /\
  (Accounts.getUserByUsername name s = None ->
   Accounts.s_username data = name ->
   exists user,
     Accounts.getUserByUsername name s' = Some user /\
     Accounts.s_id user = uuidv4 P (uuid_draws (Accounts.world s)) /\
     Accounts.s_password user = Accounts.s_password data) /\
  (Accounts.getUserByUsername name s = None ->
   Accounts.s_username data <> name ->
   Accounts.getUserByUsername name s' = None).
Proof.
  intros Hfresh s'. subst s'. rewrite createUser_run. cbn [snd].
  unfold Accounts.getUserByUsername. cbn [Accounts.users].
  rewrite values_set_absent by exact Hfresh.
  split; [|split].
  - intros user H. now apply find_app_Some.
  - intros Hnone Hname. rewrite find_app_None by exact Hnone.
    simpl. rewrite Hname, String.eqb_refl. eexists. repeat split.
  - intros Hnone Hname. rewrite find_app_None by exact Hnone.
    simpl. destruct (String.eqb (Accounts.s_username data) name) eqn:E;
      [|reflexivity].
    apply String.eqb_eq in E. congruence.
Qed.

End UserMap.

Section AuthHandlers.
Variable P : Platform.
Variable L : Accounts.Libs.

Lemma truthy_Some_falsy s : Js.truthy s = false -> falsy (Some s).
Proof. destruct s; [now right | discriminate]. Qed.

Lemma falsy_not_truthy s : falsy (Some s) -> Js.truthy s = false.
Proof. intros [H|H]; [discriminate | now inversion H]. Qed.

(** What the part of [CreateUser] before its [await] answers. *)
Lemma CreateUser_check_inr request s n :
  Accounts.CreateUser_check request s = inr n ->
  Accounts.cq_username request = Some (Accounts.n_username n) /\
  Accounts.cq_password request = Some (Accounts.n_password n) /\
  Accounts.cq_email request = Some (Accounts.n_email n) /\
  Accounts.cq_full_name request = Some (Accounts.n_full_name n) /\
  Js.truthy (Accounts.n_username n) = true /\
  Js.truthy (Accounts.n_password n) = true /\
  Js.truthy (Accounts.n_email n) = true /\
  Js.truthy (Accounts.n_full_name n) = true /\
  Accounts.getUserByUsername (Accounts.n_username n) s = None.
Proof.
  unfold Accounts.CreateUser_check.
  destruct (Accounts.cq_username request) as [u|]; [|discriminate].
  destruct (Accounts.cq_password request) as [p|]; [|discriminate].
  destruct (Accounts.cq_email request) as [e|]; [|discriminate].
  destruct (Accounts.cq_full_name request) as [f|]; [|discriminate].
  destruct (Js.truthy u) eqn:Eu; [|discriminate].
  destruct (Js.truthy p) eqn:Ep; [|discriminate].
  destruct (Js.truthy e) eqn:Ee; [|discriminate].
  destruct (Js.truthy f) eqn:Ef; [|discriminate].
  cbn [negb orb].
  destruct (Accounts.getUserByUsername u s) eqn:Eg; [discriminate|].
  intros H. inversion H; subst n. cbn. repeat split; assumption.
Qed.

Lemma CreateUser_check_inl request s e :
  Accounts.CreateUser_check request s = inl e ->
  (Accounts.code e = Accounts.INVALID_ARGUMENT /\
   (falsy (Accounts.cq_username request) \/ falsy (Accounts.cq_password request) \/
    falsy (Accounts.cq_email request) \/ falsy (Accounts.cq_full_name request))) \/
  (Accounts.code e = Accounts.ALREADY_EXISTS /\
   exists name user, Accounts.cq_username request = Some name /\
                     Accounts.getUserByUsername name s = Some user).
Proof.
  unfold Accounts.CreateUser_check.
  destruct (Accounts.cq_username request) as [u|];
    [|intros H; inversion H; left; split; [reflexivity | left; now left]].
  destruct (Accounts.cq_password request) as [p|];
    [|intros H; inversion H; left; split; [reflexivity | right; left; now left]].
  destruct (Accounts.cq_email request) as [m|];
    [|intros H; inversion H; left; split;
      [reflexivity | right; right; left; now left]].
  destruct (Accounts.cq_full_name request) as [f|];
    [|intros H; inversion H; left; split;
      [reflexivity | right; right; right; now left]].
  destruct (Js.truthy u) eqn:Eu;
    [|intros H; inversion H; left; split;
      [reflexivity | left; now apply truthy_Some_falsy]].
  destruct (Js.truthy p) eqn:Ep;
    [|intros H; inversion H; left; split;
      [reflexivity | right; left; now apply truthy_Some_falsy]].
  destruct (Js.truthy m) eqn:Em;
    [|intros H; inversion H; left; split;
      [reflexivity | right; right; left; now apply truthy_Some_falsy]].
  destruct (Js.truthy f) eqn:Ef;
    [|intros H; inversion H; left; split;
      [reflexivity | right; right; right; now apply truthy_Some_falsy]].
  cbn [negb orb].
  destruct (Accounts.getUserByUsername u s) as [user|] eqn:Eg; [|discriminate].
  intros H. inversion H. right. split; [reflexivity|]. now exists u, user.
Qed.

Lemma CreateUser_check_falsy request s :
  falsy (Accounts.cq_username request) \/ falsy (Accounts.cq_password request) \/
  falsy (Accounts.cq_email request) \/ falsy (Accounts.cq_full_name request) ->
  Accounts.CreateUser_check request s =
  inl (Accounts.mkError Accounts.INVALID_ARGUMENT
         "Username, password, email, and full_name are required").
Proof.
  unfold Accounts.CreateUser_check. intros H.
  destruct (Accounts.cq_username request) as [u|]; [|reflexivity].
  destruct (Accounts.cq_password request) as [p|]; [|reflexivity].
  destruct (Accounts.cq_email request) as [m|]; [|reflexivity].
  destruct (Accounts.cq_full_name request) as [f|]; [|reflexivity].
  destruct H as [H|[H|[H|H]]]; apply falsy_not_truthy in H; rewrite H;
    cbn [negb orb]; rewrite ?orb_true_r; reflexivity.
Qed.

Lemma CreateUser_store_run n s :
  Accounts.CreateUser_store P L n s =
  (Accounts.Ok
     (Accounts.mkUser (uuidv4 P (uuid_draws (Accounts.world s)))
        (Accounts.n_username n) (Accounts.n_email n) (Accounts.n_full_name n)
        (clock P (S (clock_reads (Accounts.world s))))),
   Accounts.mkServer (tick (drawn (tick (Accounts.world s))))
     (JsMap.set (uuidv4 P (uuid_draws (Accounts.world s)))
        (Accounts.mkStoredUser (uuidv4 P (uuid_draws (Accounts.world s)))
           (Accounts.n_username n) (Accounts.n_email n) (Accounts.n_full_name n)
           (clock P (S (clock_reads (Accounts.world s))))
           (Accounts.bcrypt_hash L (Accounts.hashes s) (Accounts.n_password n)))
        (Accounts.users s))
     (S (Accounts.hashes s)) (Accounts.signatures s)).
Proof. reflexivity. Qed.

Lemma not_found_not_in name l :
  find (fun user => String.eqb (Accounts.s_username user) name) l = None ->
  ~ In name (map Accounts.s_username l).
Proof.
  induction l as [|u l IH]; simpl; [tauto|].
  destruct (String.eqb (Accounts.s_username u) name) eqn:E; [discriminate|].
  intros H [H1|H1].
  - rewrite H1, String.eqb_refl in E. discriminate.
  - now apply IH.
Qed.

Lemma NoDup_snoc {A : Type} (l : list A) x :
  NoDup l -> ~ In x l -> NoDup (l ++ [x]).
Proof.
  intros Hl Hx. apply NoDup_rev in Hl.
  rewrite <- (rev_involutive (l ++ [x])). apply NoDup_rev.
  rewrite rev_app_distr. simpl. constructor; [|exact Hl].
  intros H. apply Hx. now apply in_rev.
Qed.

(** X21. [CreateUser] answers INVALID_ARGUMENT when the name, the
    password, the e-mail or the full name is missing or empty; when all
    four are there, it answers ALREADY_EXISTS if the name finds a user
    and with a user of the requested name, e-mail and full name if the
    name finds none. These are its only errors as long as no library
    call throws, and with either the server is left as it was: no user
    stored, no identifier drawn, no password hashed. *)
Theorem CreateUser_rejections_change_nothing request s :
  (falsy (Accounts.cq_username request) \/ falsy (Accounts.cq_password request) \/
   falsy (Accounts.cq_email request) \/ falsy (Accounts.cq_full_name request) ->
   Accounts.CreateUser P L request s =
     (Accounts.Err
        (Accounts.mkError Accounts.INVALID_ARGUMENT
           "Username, password, email, and full_name are required"), s)) /\
  (forall username password email full_name,
     Accounts.cq_username request = Some username ->
     Accounts.cq_password request = Some password ->
     Accounts.cq_email request = Some email ->
     Accounts.cq_full_name request = Some full_name ->
     username <> EmptyString -> password <> EmptyString ->
     email <> EmptyString -> full_name <> EmptyString ->
     (forall user, Accounts.getUserByUsername username s = Some user ->
        Accounts.CreateUser P L request s =
          (Accounts.Err
             (Accounts.mkError Accounts.ALREADY_EXISTS "Username already exists"),
           s)) /\
     (Accounts.getUserByUsername username s = None ->
      exists user,
        fst (Accounts.CreateUser P L request s) = Accounts.Ok user /\
        Accounts.u_username user = username /\
        Accounts.u_email user = email /\
        Accounts.u_full_name user = full_name)) /\
  (forall e, fst (Accounts.CreateUser P L request s) = Accounts.Err e ->
     snd (Accounts.CreateUser P L request s) = s /\
     ((Accounts.code e = Accounts.INVALID_ARGUMENT /\
       (falsy (Accounts.cq_username request) \/
        falsy (Accounts.cq_password request) \/
        falsy (Accounts.cq_email request) \/
        falsy (Accounts.cq_full_name request))) \/
      (Accounts.code e = Accounts.ALREADY_EXISTS /\
       exists name user, Accounts.cq_username request = Some name /\
                         Accounts.getUserByUsername name s = Some user))).
Proof.
  split; [|split].
  - intros H. unfold Accounts.CreateUser.
    now rewrite (CreateUser_check_falsy request s H).
  - intros username password email full_name Hu Hp He Hf Tu Tp Te Tf.
    assert (Hcheck : Accounts.CreateUser_check request s =
      match Accounts.getUserByUsername username s with
      | Some _ =>
          inl (Accounts.mkError Accounts.ALREADY_EXISTS "Username already exists")
      | None => inr (Accounts.mkNewUser username password email full_name)
      end).
    { unfold Accounts.CreateUser_check. rewrite Hu, Hp, He, Hf.
      destruct username; [now elim Tu|]. destruct password; [now elim Tp|].
      destruct email; [now elim Te|]. destruct full_name; [now elim Tf|].
      reflexivity. }
    unfold Accounts.CreateUser. rewrite Hcheck. split.
    + intros user Hfound. now rewrite Hfound.
    + intros Hnone. rewrite Hnone, CreateUser_store_run. cbn [fst].
      eexists. repeat split.
  - intros e. unfold Accounts.CreateUser.
    destruct (Accounts.CreateUser_check request s) as [e'|n] eqn:E.
    + cbn [fst snd]. intros H. inversion H; subst e'. split; [reflexivity|].
      exact (CreateUser_check_inl request s e E).
    + rewrite CreateUser_store_run. cbn [fst]. discriminate.
Qed.

(** X22. A [CreateUser] that nothing interrupts keeps the user names
    distinct: on a server whose users have distinct names and whose
    next identifier is not in use, the users after the call have
    distinct names again, and a call that answers with a user has added
    exactly that user, found by its name, with the hashed password and
    not the request's. *)
Theorem CreateUser_keeps_usernames_unique request s :
  Accounts.usernames_unique s ->
  JsMap.get (uuidv4 P (uuid_draws (Accounts.world s))) (Accounts.users s) = None ->
  let s' := snd (Accounts.CreateUser P L request s) in
  Accounts.usernames_unique s' /\
  (forall user, fst (Accounts.CreateUser P L request s) = Accounts.Ok user ->
     exists stored password,
       Accounts.cq_password request = Some password /\
       JsMap.values (Accounts.users s') =
         (JsMap.values (Accounts.users s) ++ [stored])%list /\
       Accounts.without_password stored = user /\
       Accounts.getUserByUsername (Accounts.u_username user) s' = Some stored /\
       Accounts.s_password stored =
         Accounts.bcrypt_hash L (Accounts.hashes s) password).
Proof.
  intros Hu Hfresh s'. subst s'. unfold Accounts.CreateUser.
  destruct (Accounts.CreateUser_check request s) as [e|n] eqn:E.
  - cbn [fst snd]. split; [exact Hu | discriminate].
  - apply CreateUser_check_inr in E.
    destruct E as (_ & Hp & _ & _ & _ & _ & _ & _ & Hnone).
    rewrite CreateUser_store_run. cbn [fst snd]. split.
    + unfold Accounts.usernames_unique. cbn [Accounts.users].
      rewrite values_set_absent by exact Hfresh.
      rewrite map_app. cbn [map Accounts.s_username].
      apply NoDup_snoc; [exact Hu|]. now apply not_found_not_in.
    + intros user H. inversion H; subst user.
      eexists. exists (Accounts.n_password n).
      split; [exact Hp|]. cbn [Accounts.users]. split.
      * apply values_set_absent. exact Hfresh.
      * split; [reflexivity|]. split; [|reflexivity].
        unfold Accounts.getUserByUsername. cbn [Accounts.users Accounts.u_username].
        rewrite values_set_absent by exact Hfresh.
        rewrite find_app_None by exact Hnone.
        simpl. now rewrite String.eqb_refl.
Qed.

(** X23. [CreateUser] checks that the name is free before it awaits
    the password hash and stores the user after it. When a second call
    for the same name runs its check during the first call's await,
    both calls pass the check and both store a user (under distinct
    identifiers not in use): the map then holds two users of that name,
    and the name finds the first one only. *)
Theorem CreateUser_interleaved_duplicates_username request request' s n n' :
  Accounts.CreateUser_check request s = inr n ->
  Accounts.CreateUser_check request' s = inr n' ->
  Accounts.n_username n' = Accounts.n_username n ->
  JsMap.get (uuidv4 P (uuid_draws (Accounts.world s))) (Accounts.users s) = None ->
  JsMap.get (uuidv4 P (S (uuid_draws (Accounts.world s)))) (Accounts.users s) = None ->
  uuidv4 P (S (uuid_draws (Accounts.world s))) <>
    uuidv4 P (uuid_draws (Accounts.world s)) ->
  let s1 := snd (Accounts.CreateUser_store P L n s) in
  let s2 := snd (Accounts.CreateUser_store P L n' s1) in
  exists first second,
    fst (Accounts.CreateUser_store P L n s) =
      Accounts.Ok (Accounts.without_password first) /\
    fst (Accounts.CreateUser_store P L n' s1) =
      Accounts.Ok (Accounts.without_password second) /\
    JsMap.values (Accounts.users s2) =
      (JsMap.values (Accounts.users s) ++ [first; second])%list /\
    Accounts.s_username first = Accounts.n_username n /\
    Accounts.s_username second = Accounts.n_username n /\
    Accounts.s_id first <> Accounts.s_id second /\
    ~ Accounts.usernames_unique s2 /\
    Accounts.getUserByUsername (Accounts.n_username n) s2 = Some first.
Proof.
  intros E E' Hname H1 H2 Hne s1 s2. subst s2 s1.
  apply CreateUser_check_inr in E.
  destruct E as (_ & _ & _ & _ & _ & _ & _ & _ & Hnone).
  rewrite !CreateUser_store_run. cbn [fst snd Accounts.world Accounts.users
    Accounts.hashes Accounts.signatures].
  assert (Ed : uuid_draws (tick (drawn (tick (Accounts.world s)))) =
               S (uuid_draws (Accounts.world s))) by reflexivity.
  rewrite Ed.
  assert (Hfresh2 :
    JsMap.get (uuidv4 P (S (uuid_draws (Accounts.world s))))
      (JsMap.set (uuidv4 P (uuid_draws (Accounts.world s)))
         (Accounts.mkStoredUser (uuidv4 P (uuid_draws (Accounts.world s)))
            (Accounts.n_username n) (Accounts.n_email n) (Accounts.n_full_name n)
            (clock P (S (clock_reads (Accounts.world s))))
            (Accounts.bcrypt_hash L (Accounts.hashes s) (Accounts.n_password n)))
         (Accounts.users s)) = None).
  { rewrite get_set_ne; [exact H2|]. intros X. apply Hne. now rewrite X. }
  assert (Hvals : forall second,
    JsMap.values
      (JsMap.set (uuidv4 P (S (uuid_draws (Accounts.world s)))) second
         (JsMap.set (uuidv4 P (uuid_draws (Accounts.world s)))
            (Accounts.mkStoredUser (uuidv4 P (uuid_draws (Accounts.world s)))
               (Accounts.n_username n) (Accounts.n_email n)
               (Accounts.n_full_name n)
               (clock P (S (clock_reads (Accounts.world s))))
               (Accounts.bcrypt_hash L (Accounts.hashes s) (Accounts.n_password n)))
            (Accounts.users s))) =
    (JsMap.values (Accounts.users s) ++
     [Accounts.mkStoredUser (uuidv4 P (uuid_draws (Accounts.world s)))
        (Accounts.n_username n) (Accounts.n_email n) (Accounts.n_full_name n)
        (clock P (S (clock_reads (Accounts.world s))))
        (Accounts.bcrypt_hash L (Accounts.hashes s) (Accounts.n_password n));
      second])%list).
  { intros second. rewrite values_set_absent by exact Hfresh2.
    rewrite values_set_absent by exact H1. now rewrite <- app_assoc. }
  exists (Accounts.mkStoredUser (uuidv4 P (uuid_draws (Accounts.world s)))
            (Accounts.n_username n) (Accounts.n_email n) (Accounts.n_full_name n)
            (clock P (S (clock_reads (Accounts.world s))))
            (Accounts.bcrypt_hash L (Accounts.hashes s) (Accounts.n_password n))).
  exists (Accounts.mkStoredUser (uuidv4 P (S (uuid_draws (Accounts.world s))))
            (Accounts.n_username n') (Accounts.n_email n')
            (Accounts.n_full_name n')
            (clock P (S (clock_reads (tick (drawn (tick (Accounts.world s)))))))
            (Accounts.bcrypt_hash L (S (Accounts.hashes s))
               (Accounts.n_password n'))).
  split; [reflexivity|]. split; [reflexivity|].
  split; [apply Hvals|].
  split; [reflexivity|]. split; [exact Hname|].
  split; [cbn [Accounts.s_id]; intros X; apply Hne; now rewrite X|].
  split.
  - unfold Accounts.usernames_unique. cbn [Accounts.users].
    rewrite Hvals, map_app. cbn [map Accounts.s_username]. rewrite Hname.
    intros Hnd. apply NoDup_remove_2 in Hnd. apply Hnd.
    apply in_or_app. right. now left.
  - unfold Accounts.getUserByUsername. cbn [Accounts.users].
    rewrite Hvals. rewrite find_app_None by exact Hnone.
    simpl. now rewrite String.eqb_refl.
Qed.

Lemma login_run username password s :
  Accounts.login L username password s =
  match Accounts.getUserByUsername username s with
  | None => (None, s)
  | Some user =>
      if Accounts.bcrypt_compare L password (Accounts.s_password user) then
        (Some (Accounts.mkLoginResponse
                 (Accounts.jwt_sign_access L (Accounts.signatures s)
                    (Accounts.s_id user) (Accounts.s_username user))
                 (Accounts.jwt_sign_refresh L (S (Accounts.signatures s))
                    (Accounts.s_id user) (Accounts.s_username user))
                 (Accounts.jwt_decode_exp L
                    (Accounts.jwt_sign_access L (Accounts.signatures s)
                       (Accounts.s_id user) (Accounts.s_username user)) * 1000)%Z),
         Accounts.mkServer (Accounts.world s) (Accounts.users s) (Accounts.hashes s)
           (S (S (Accounts.signatures s))))
      else (None, s)
  end.
Proof.
  unfold Accounts.login.
  destruct (Accounts.getUserByUsername username s) as [user|]; [|reflexivity].
  destruct (Accounts.bcrypt_compare L password (Accounts.s_password user));
    reflexivity.
Qed.

(** X24. [Login] never changes the users or the task store. It
    answers with tokens exactly when the name and the password are both
    there and not empty, the name finds a user, and [bcrypt.compare]
    accepts the password against the password stored for that user; the
    tokens are then signed for that user's identifier and name. Missing
    or empty credentials give INVALID_ARGUMENT; with both there and not
    empty, a name that finds no user and a password that
    [bcrypt.compare] refuses give the same UNAUTHENTICATED error and
    leave the server as it was. *)
Theorem Login_accepts_exactly_matching_credentials request s :
  let r := fst (Accounts.Login L request s) in
  let s' := snd (Accounts.Login L request s) in
  Accounts.users s' = Accounts.users s /\
  Accounts.world s' = Accounts.world s /\
  (forall response, r = Accounts.Ok response <->
     exists username password user,
       Accounts.lq_username request = Some username /\
       Accounts.lq_password request = Some password /\
       Js.truthy username = true /\ Js.truthy password = true /\
       Accounts.getUserByUsername username s = Some user /\
       Accounts.bcrypt_compare L password (Accounts.s_password user) = true /\
       response =
         Accounts.mkLoginResponse
           (Accounts.jwt_sign_access L (Accounts.signatures s)
              (Accounts.s_id user) (Accounts.s_username user))
           (Accounts.jwt_sign_refresh L (S (Accounts.signatures s))
              (Accounts.s_id user) (Accounts.s_username user))
           (Accounts.jwt_decode_exp L
              (Accounts.jwt_sign_access L (Accounts.signatures s)
                 (Accounts.s_id user) (Accounts.s_username user)) * 1000)%Z) /\
  (falsy (Accounts.lq_username request) \/ falsy (Accounts.lq_password request) ->
   Accounts.Login L request s =
     (Accounts.Err (Accounts.mkError Accounts.INVALID_ARGUMENT
                      "Username and password are required"), s)) /\
  (forall username password,
     Accounts.lq_username request = Some username ->
     Accounts.lq_password request = Some password ->
     username <> EmptyString -> password <> EmptyString ->
     (Accounts.getUserByUsername username s = None ->
      Accounts.Login L request s =
        (Accounts.Err (Accounts.mkError Accounts.UNAUTHENTICATED
                         "Invalid username or password"), s)) /\
     (forall user,
        Accounts.getUserByUsername username s = Some user ->
        Accounts.bcrypt_compare L password (Accounts.s_password user) = false ->
        Accounts.Login L request s =
          (Accounts.Err (Accounts.mkError Accounts.UNAUTHENTICATED
                           "Invalid username or password"), s))) /\
  (forall e, r = Accounts.Err e ->
     e <> Accounts.mkError Accounts.INVALID_ARGUMENT
            "Username and password are required" ->
     e = Accounts.mkError Accounts.UNAUTHENTICATED "Invalid username or password").
Proof.
  intros r s'. subst r s'.
  assert (Hrefused : forall username password,
     Accounts.lq_username request = Some username ->
     Accounts.lq_password request = Some password ->
     username <> EmptyString -> password <> EmptyString ->
     (Accounts.getUserByUsername username s = None ->
      Accounts.Login L request s =
        (Accounts.Err (Accounts.mkError Accounts.UNAUTHENTICATED
                         "Invalid username or password"), s)) /\
     (forall user,
        Accounts.getUserByUsername username s = Some user ->
        Accounts.bcrypt_compare L password (Accounts.s_password user) = false ->
        Accounts.Login L request s =
          (Accounts.Err (Accounts.mkError Accounts.UNAUTHENTICATED
                           "Invalid username or password"), s))).
  { intros username password Hu Hp Tu Tp. unfold Accounts.Login.
    rewrite Hu, Hp.
    destruct username as [|a u]; [now elim Tu|].
    destruct password as [|b p]; [now elim Tp|].
    cbn [Js.truthy negb orb]. rewrite login_run. split.
    - intros Hnone. now rewrite Hnone.
    - intros user Hfound Hc. now rewrite Hfound, Hc. }
  assert (Hmissing :
    falsy (Accounts.lq_username request) \/ falsy (Accounts.lq_password request) ->
    Accounts.Login L request s =
      (Accounts.Err (Accounts.mkError Accounts.INVALID_ARGUMENT
                       "Username and password are required"), s)).
  { unfold Accounts.Login.
    destruct (Accounts.lq_username request) as [u|],
             (Accounts.lq_password request) as [p|]; try reflexivity.
    intros [H|H]; apply falsy_not_truthy in H; rewrite H; cbn [negb orb];
      rewrite ?orb_true_r; reflexivity. }
  unfold Accounts.Login in *.
  destruct (Accounts.lq_username request) as [u|].
  2:{ cbn [fst snd]. split; [reflexivity|]. split; [reflexivity|].
      split; [|split; [exact Hmissing|split; [exact Hrefused|]]].
      - intros response. split; [discriminate|].
        intros (u & p & user & H & _). discriminate.
      - intros e H Hne. inversion H; subst e. now elim Hne. }
  destruct (Accounts.lq_password request) as [p|].
  2:{ cbn [fst snd]. split; [reflexivity|]. split; [reflexivity|].
      split; [|split; [exact Hmissing|split; [exact Hrefused|]]].
      - intros response. split; [discriminate|].
        intros (u' & p' & user & _ & H & _). discriminate.
      - intros e H Hne. inversion H; subst e. now elim Hne. }
  destruct (Js.truthy u) eqn:Eu.
  2:{ cbn [negb orb fst snd] in *. split; [reflexivity|]. split; [reflexivity|].
      split; [|split; [exact Hmissing|split; [exact Hrefused|]]].
      - intros response. split; [discriminate|].
        intros (u' & p' & user & H & _ & H1 & _). inversion H; subst u'.
        congruence.
      - intros e H Hne. inversion H; subst e. now elim Hne. }
  destruct (Js.truthy p) eqn:Ep.
  2:{ cbn [negb orb fst snd] in *. split; [reflexivity|]. split; [reflexivity|].
      split; [|split; [exact Hmissing|split; [exact Hrefused|]]].
      - intros response. split; [discriminate|].
        intros (u' & p' & user & _ & H & _ & H1 & _). inversion H; subst p'.
        congruence.
      - intros e H Hne. inversion H; subst e. now elim Hne. }
  cbn [negb orb] in *. rewrite login_run in *.
  destruct (Accounts.getUserByUsername u s) as [user|] eqn:Eg.
  2:{ cbn [fst snd]. split; [reflexivity|]. split; [reflexivity|].
      split; [|split; [exact Hmissing|split; [exact Hrefused|]]].
      - intros response. split; [discriminate|].
        intros (u' & p' & user & H & _ & _ & _ & H1 & _).
        inversion H; subst u'. congruence.
      - intros e H _. now inversion H. }
  destruct (Accounts.bcrypt_compare L p (Accounts.s_password user)) eqn:Ec.
  - cbn [fst snd Accounts.users Accounts.world].
    split; [reflexivity|]. split; [reflexivity|].
    split; [|split; [exact Hmissing|split; [exact Hrefused|discriminate]]].
    intros response. split.
    + intros H. inversion H. exists u, p, user. repeat split; assumption.
    + intros (u' & p' & user' & H1 & H2 & _ & _ & H3 & _ & H4).
      inversion H1; subst u'. inversion H2; subst p'.
      rewrite Eg in H3. inversion H3; subst user'. now rewrite H4.
  - cbn [fst snd]. split; [reflexivity|]. split; [reflexivity|].
    split; [|split; [exact Hmissing|split; [exact Hrefused|]]].
    + intros response. split; [discriminate|].
      intros (u' & p' & user' & H1 & H2 & _ & _ & H3 & H4 & _).
      inversion H1; subst u'. inversion H2; subst p'.
      rewrite Eg in H3. inversion H3; subst user'. congruence.
    + intros e H _. now inversion H.
Qed.

(** X25. Registration followed by login: when an uninterrupted
    [CreateUser] has answered with a user (on a server whose next
    identifier is not in use), a [Login] with the name of that user
    succeeds exactly with the passwords [bcrypt.compare] accepts
    against the hash [CreateUser] stored, and the access token is then
    signed for the identifier [CreateUser] answered with. *)
Theorem CreateUser_then_Login request s user password :
  JsMap.get (uuidv4 P (uuid_draws (Accounts.world s))) (Accounts.users s) = None ->
  fst (Accounts.CreateUser P L request s) = Accounts.Ok user ->
  Js.truthy password = true ->
  let s' := snd (Accounts.CreateUser P L request s) in
  let attempt :=
    Accounts.Login L
      (Accounts.mkLoginRequest (Some (Accounts.u_username user)) (Some password)) s' in
  exists registered hashed,
    Accounts.cq_password request = Some registered /\
    hashed = Accounts.bcrypt_hash L (Accounts.hashes s) registered /\
    (Accounts.bcrypt_compare L password hashed = true ->
     exists response,
       fst attempt = Accounts.Ok response /\
       Accounts.access_token response =
         Accounts.jwt_sign_access L (Accounts.signatures s)
           (Accounts.u_id user) (Accounts.u_username user)) /\
    (Accounts.bcrypt_compare L password hashed = false ->
     fst attempt =
       Accounts.Err (Accounts.mkError Accounts.UNAUTHENTICATED
                       "Invalid username or password")).
Proof.
  intros Hfresh Hok Hpw s' attempt. subst attempt s'.
  unfold Accounts.CreateUser in *.
  destruct (Accounts.CreateUser_check request s) as [e|n] eqn:E;
    [discriminate|].
  apply CreateUser_check_inr in E.
  destruct E as (_ & Hp & _ & _ & Hu & _ & _ & _ & Hnone).
  rewrite CreateUser_store_run in *. cbn [fst snd] in *.
  inversion Hok; subst user. cbn [Accounts.u_username Accounts.u_id].
  exists (Accounts.n_password n). eexists.
  split; [exact Hp|]. split; [reflexivity|].
  unfold Accounts.Login. cbn [Accounts.lq_username Accounts.lq_password].
  rewrite Hu, Hpw. cbn [negb orb]. rewrite login_run.
  unfold Accounts.getUserByUsername at 1 2. cbn [Accounts.users].
  rewrite values_set_absent by exact Hfresh.
  unfold Accounts.getUserByUsername in Hnone.
  rewrite find_app_None by exact Hnone.
  simpl find. rewrite String.eqb_refl. cbn [Accounts.s_password].
  split; intros Hc; rewrite Hc; cbn [fst].
  - eexists. split; reflexivity.
  - reflexivity.
Qed.

(** X26. [RefreshToken] issues new tokens exactly when the refresh
    token is there, not empty, verifies under the refresh secret, and
    the user identifier in its payload is the identifier of a stored
    user; the new tokens are signed for the stored user's identifier
    and name, not for the name in the payload. It never changes the
    users. *)
Theorem RefreshToken_accepts_exactly_verified_tokens_of_stored_users request s :
  let r := fst (Accounts.RefreshToken L request s) in
  let s' := snd (Accounts.RefreshToken L request s) in
  Accounts.users s' = Accounts.users s /\
  (forall response, r = Accounts.Ok response <->
     exists token decoded user,
       Accounts.rq_refresh_token request = Some token /\
       Js.truthy token = true /\
       Accounts.jwt_verify_refresh L token = Some decoded /\
       JsMap.get (user_id decoded) (Accounts.users s) = Some user /\
       response =
         Accounts.mkLoginResponse
           (Accounts.jwt_sign_access L (Accounts.signatures s)
              (Accounts.s_id user) (Accounts.s_username user))
           (Accounts.jwt_sign_refresh L (S (Accounts.signatures s))
              (Accounts.s_id user) (Accounts.s_username user))
           (Accounts.jwt_decode_exp L
              (Accounts.jwt_sign_access L (Accounts.signatures s)
                 (Accounts.s_id user) (Accounts.s_username user)) * 1000)%Z) /\
  (forall e, r = Accounts.Err e ->
     Accounts.code e = Accounts.INVALID_ARGUMENT /\
       falsy (Accounts.rq_refresh_token request) \/
     Accounts.code e = Accounts.UNAUTHENTICATED /\
       ~ falsy (Accounts.rq_refresh_token request)).
Proof.
  intros r s'. subst r s'. unfold Accounts.RefreshToken.
  destruct (Accounts.rq_refresh_token request) as [t|].
  2:{ cbn [fst snd]. repeat split; try discriminate.
      - intros (t & d & u & H & _). discriminate.
      - intros e H. inversion H. left. split; [reflexivity | now left]. }
  destruct (Js.truthy t) eqn:Et.
  2:{ cbn [negb fst snd]. repeat split; try discriminate.
      - intros (t' & d & u & H & H1 & _). inversion H; subst t'. congruence.
      - intros e H. inversion H. left. split; [reflexivity|].
        now apply truthy_Some_falsy. }
  cbn [negb]. unfold Accounts.refreshToken.
  assert (Hnf : ~ falsy (Some t)).
  { intros H. apply falsy_not_truthy in H. congruence. }
  destruct (Accounts.jwt_verify_refresh L t) as [d|] eqn:Ev.
  2:{ cbn [fst snd]. repeat split; try discriminate.
      - intros (t' & d & u & H & _ & H1 & _). inversion H; subst t'. congruence.
      - intros e H. inversion H. right. split; [reflexivity | exact Hnf]. }
  unfold Accounts.getUserById.
  destruct (JsMap.get (user_id d) (Accounts.users s)) as [u|] eqn:Eg.
  - cbn [fst snd Accounts.users Accounts.generateTokens]. repeat split;
      try discriminate.
    + intros H. inversion H. exists t, d, u. repeat split; assumption.
    + intros (t' & d' & u' & H1 & _ & H2 & H3 & H4).
      inversion H1; subst t'. rewrite Ev in H2. inversion H2; subst d'.
      rewrite Eg in H3. inversion H3; subst u'. now rewrite H4.
  - cbn [fst snd]. repeat split; try discriminate.
    + intros (t' & d' & u' & H1 & _ & H2 & H3 & _).
      inversion H1; subst t'. rewrite Ev in H2. inversion H2; subst d'.
      congruence.
    + intros e H. inversion H. right. split; [reflexivity | exact Hnf].
Qed.

End AuthHandlers.

(* ================================================================== *)
(** ** The chat service of the example server *)
(* ================================================================== *)

Lemma filter_filter {A : Type} (f g : A -> bool) l :
  filter f (filter g l) = filter (fun x => g x && f x) l.
Proof.
  induction l as [|x l IH]; simpl; [reflexivity|].
  destruct (g x); simpl; [destruct (f x)|]; now rewrite IH.
Qed.

Lemma chat_has_In c s : Chat.has c s = true <-> In c s.
Proof.
  unfold Chat.has. rewrite existsb_exists. split.
  - intros (x & Hx & E). apply Nat.eqb_eq in E. now subst x.
  - intros H. exists c. split; [exact H | apply Nat.eqb_refl].
Qed.

Section ChatService.
Variable P : Platform.

(** The loop of [broadcast] over any list of subscribers. *)
Lemma broadcast_loop message l st :
  let st' := fold_left (Chat.write_or_drop message) l st in
  Chat.subscribers st' =
    filter (fun c => negb (is_broken (Chat.failing st) c && Chat.has c l))
           (Chat.subscribers st) /\
  Chat.failing st' = Chat.failing st /\
  Chat.written st' =
    (Chat.written st ++
     map (fun c => (c, message))
         (filter (fun c => negb (is_broken (Chat.failing st) c)) l))%list /\
  Chat.now_reads st' = Chat.now_reads st.
Proof.
  revert st. induction l as [|a l IH]; intros st; cbn [fold_left].
  - cbn. repeat split.
    + symmetry. apply forallb_filter_id. apply forallb_forall.
      intros x _. now rewrite andb_false_r.
    + now rewrite app_nil_r.
  - destruct (IH (Chat.write_or_drop message st a)) as (Hs & Hf & Hw & Hn).
    cbv zeta. rewrite Hs, Hf, Hw, Hn. clear IH Hs Hf Hw Hn.
    unfold Chat.write_or_drop.
    destruct (is_broken (Chat.failing st) a) eqn:Ea;
      cbn [Chat.subscribers Chat.failing Chat.written Chat.now_reads filter].
    + rewrite Ea. cbn [negb]. repeat split.
      unfold Chat.delete. rewrite filter_filter. apply filter_ext.
      intros c. cbn [Chat.has existsb].
      destruct (Nat.eqb_spec a c) as [->|Hne].
      * rewrite Nat.eqb_refl, Ea. reflexivity.
      * assert (Nat.eqb c a = false) as -> by (apply Nat.eqb_neq; congruence).
        reflexivity.
    + rewrite Ea. cbn [negb map]. repeat split.
      * apply filter_ext. intros c. cbn [Chat.has existsb].
        destruct (Nat.eqb_spec c a) as [->|Hne]; [now rewrite Ea | reflexivity].
      * now rewrite <- app_assoc.
Qed.

Lemma broadcast_run message st :
  Chat.broadcast message st =
  Chat.mkService
    (filter (fun c => negb (is_broken (Chat.failing st) c)) (Chat.subscribers st))
    (Chat.failing st)
    (Chat.written st ++
     map (fun c => (c, message))
         (filter (fun c => negb (is_broken (Chat.failing st) c))
                 (Chat.subscribers st)))
    (Chat.now_reads st).
Proof.
  unfold Chat.broadcast.
  destruct (broadcast_loop message (Chat.subscribers st) st) as (Hs & Hf & Hw & Hn).
  destruct (fold_left (Chat.write_or_drop message) (Chat.subscribers st) st)
    as [s f w n].
  cbn [Chat.subscribers Chat.failing Chat.written Chat.now_reads] in *.
  subst f w n. f_equal. rewrite Hs. apply filter_ext_in.
  intros c Hc. apply chat_has_In in Hc. now rewrite Hc, andb_true_r.
Qed.

Lemma filter_healthy_idempotent (f : list nat) l :
  filter (fun c => negb (is_broken f c)) (filter (fun c => negb (is_broken f c)) l) =
  filter (fun c => negb (is_broken f c)) l.
Proof.
  rewrite filter_filter. apply filter_ext. intros c.
  now destruct (is_broken f c).
Qed.

Lemma delivered_app c s f w w' n :
  Chat.delivered c (Chat.mkService s f (w ++ w') n) =
  (Chat.delivered c (Chat.mkService s f w n) ++
   map snd (filter (fun p => Nat.eqb (fst p) c) w'))%list.
Proof.
  unfold Chat.delivered. cbn [Chat.written]. now rewrite filter_app, map_app.
Qed.

Lemma delivered_copies c (message : Chat.ChatMessage) l :
  NoDup l ->
  map snd (filter (fun p => Nat.eqb (fst p) c) (map (fun x => (x, message)) l)) =
  if Chat.has c l then [message] else [].
Proof.
  induction 1 as [|a l Ha Hl IH]; [reflexivity|].
  cbn [map filter fst Chat.has existsb].
  rewrite (Nat.eqb_sym c a).
  destruct (Nat.eqb_spec a c) as [->|Hne]; cbn [orb].
  - cbn [map snd]. rewrite IH.
    destruct (Chat.has c l) eqn:E; [|reflexivity].
    apply chat_has_In in E. contradiction.
  - exact IH.
Qed.

Lemma has_filter_healthy f c l :
  Chat.has c (filter (fun x => negb (is_broken f x)) l) =
  Chat.has c l && negb (is_broken f c).
Proof.
  destruct (Chat.has c (filter (fun x => negb (is_broken f x)) l)) eqn:E.
  - apply chat_has_In in E. apply filter_In in E. destruct E as [E1 E2].
    apply chat_has_In in E1. now rewrite E1, E2.
  - destruct (Chat.has c l) eqn:E1; [|reflexivity].
    destruct (is_broken f c) eqn:E2; [reflexivity|].
    apply chat_has_In in E1.
    assert (H : In c (filter (fun x => negb (is_broken f x)) l)).
    { apply filter_In. split; [exact E1 | now rewrite E2]. }
    apply chat_has_In in H. congruence.
Qed.

(** X27. [broadcast] never raises. It writes the message once to
    every subscriber whose stream accepts it, in the order in which
    they subscribed, and removes from the subscribers exactly those
    whose write raised; nothing else changes. A broadcast that follows
    removes nobody. *)
Theorem broadcast_drops_exactly_failed_subscribers message st :
  let healthy c := negb (is_broken (Chat.failing st) c) in
  let st' := Chat.broadcast message st in
  Chat.subscribers st' = filter healthy (Chat.subscribers st) /\
  Chat.written st' =
    (Chat.written st ++ map (fun c => (c, message)) (Chat.subscribers st'))%list /\
  Chat.failing st' = Chat.failing st /\
  Chat.now_reads st' = Chat.now_reads st /\
  (forall c, In c (Chat.subscribers st') <->
             In c (Chat.subscribers st) /\ is_broken (Chat.failing st) c = false) /\
  (forall next,
     Chat.subscribers (Chat.broadcast next st') = Chat.subscribers st').
Proof.
  intros healthy st'. subst healthy st'. rewrite broadcast_run.
  cbn [Chat.subscribers Chat.written Chat.failing Chat.now_reads].
  split; [reflexivity|]. split; [reflexivity|]. split; [reflexivity|].
  split; [reflexivity|]. split.
  - intros c. rewrite filter_In.
    destruct (is_broken (Chat.failing st) c); cbn [negb]; intuition congruence.
  - intros next. rewrite broadcast_run.
    cbn [Chat.subscribers Chat.failing]. apply filter_healthy_idempotent.
Qed.

Lemma chat_add_NoDup c s : NoDup s -> NoDup (Chat.add c s).
Proof.
  intros H. unfold Chat.add. destruct (Chat.has c s) eqn:E; [exact H|].
  apply NoDup_snoc; [exact H|]. intros Hin. apply chat_has_In in Hin. congruence.
Qed.

(** X28. The subscribers stay a set of calls through
    [receiveMessages], its [cleanup] and [broadcast]. A call that
    subscribes twice is one subscriber, so it is written each message
    once; after its [cleanup] (on ['close'], ['end'] or ['error']) it
    is no subscriber and a broadcast writes nothing to it. *)
Theorem receiveMessages_subscribes_once_until_cleanup call message st :
  NoDup (Chat.subscribers st) ->
  NoDup (Chat.subscribers (Chat.receiveMessages call st)) /\
  NoDup (Chat.subscribers (Chat.cleanup call st)) /\
  NoDup (Chat.subscribers (Chat.broadcast message st)) /\
  Chat.receiveMessages call (Chat.receiveMessages call st) =
    Chat.receiveMessages call st /\
  (is_broken (Chat.failing st) call = false ->
   Chat.delivered call (Chat.broadcast message (Chat.receiveMessages call st)) =
     (Chat.delivered call st ++ [message])%list) /\
  ~ In call (Chat.subscribers (Chat.cleanup call (Chat.receiveMessages call st))) /\
  Chat.delivered call
    (Chat.broadcast message (Chat.cleanup call (Chat.receiveMessages call st))) =
    Chat.delivered call st.
Proof.
  intros Hnd.
  assert (Hin : Chat.has call (Chat.add call (Chat.subscribers st)) = true).
  { unfold Chat.add. destruct (Chat.has call (Chat.subscribers st)) eqn:E;
      [exact E|].
    apply chat_has_In. apply in_or_app. right. now left. }
  split; [now apply chat_add_NoDup|].
  split; [now apply NoDup_filter|].
  split; [rewrite broadcast_run; now apply NoDup_filter|].
  split.
  { unfold Chat.receiveMessages. cbn [Chat.subscribers Chat.failing Chat.written
      Chat.now_reads]. f_equal. unfold Chat.add at 1. now rewrite Hin. }
  split.
  { intros Hok. rewrite broadcast_run. unfold Chat.receiveMessages.
    cbn [Chat.subscribers Chat.failing Chat.written Chat.now_reads].
    rewrite delivered_app. f_equal.
    rewrite delivered_copies by (apply NoDup_filter; now apply chat_add_NoDup).
    now rewrite has_filter_healthy, Hin, Hok. }
  assert (Hout : ~ In call (Chat.delete call (Chat.add call (Chat.subscribers st)))).
  { unfold Chat.delete. intros H. apply filter_In in H. destruct H as [_ H].
    now rewrite Nat.eqb_refl in H. }
  split; [exact Hout|].
  rewrite broadcast_run. unfold Chat.cleanup, Chat.receiveMessages.
  cbn [Chat.subscribers Chat.failing Chat.written Chat.now_reads].
  rewrite delivered_app.
  rewrite delivered_copies
    by (apply NoDup_filter; apply NoDup_filter; now apply chat_add_NoDup).
  rewrite has_filter_healthy.
  destruct (Chat.has call (Chat.delete call (Chat.add call (Chat.subscribers st))))
    eqn:E.
  - apply chat_has_In in E. contradiction.
  - cbn [andb]. now rewrite app_nil_r.
Qed.

Lemma on_data_run msg st k :
  Chat.on_data P (st, k) msg =
  (Chat.mkService
     (filter (fun c => negb (is_broken (Chat.failing st) c)) (Chat.subscribers st))
     (Chat.failing st)
     (Chat.written st ++
      map (fun c => (c, fst (Chat.chat_message P msg (Chat.now_reads st))))
          (filter (fun c => negb (is_broken (Chat.failing st) c))
                  (Chat.subscribers st)))
     (snd (Chat.chat_message P msg (Chat.now_reads st))),
   S k).
Proof.
  unfold Chat.on_data.
  destruct (Chat.chat_message P msg (Chat.now_reads st)) as [m r].
  now rewrite broadcast_run.
Qed.

Lemma chat_messages_cons msg rest reads :
  Chat.chat_messages P (msg :: rest) reads =
  fst (Chat.chat_message P msg reads) ::
  Chat.chat_messages P rest (snd (Chat.chat_message P msg reads)).
Proof.
  cbn [Chat.chat_messages]. now destruct (Chat.chat_message P msg reads).
Qed.

Lemma on_data_fold msgs : forall st k,
  NoDup (Chat.subscribers st) ->
  let r := fold_left (Chat.on_data P) msgs (st, k) in
  snd r = k + List.length msgs /\
  Chat.failing (fst r) = Chat.failing st /\
  Chat.subscribers (fst r) =
    match msgs with
    | [] => Chat.subscribers st
    | _ :: _ => filter (fun c => negb (is_broken (Chat.failing st) c))
                       (Chat.subscribers st)
    end /\
  (forall c,
     Chat.delivered c (fst r) =
     (Chat.delivered c st ++
      if Chat.has c (Chat.subscribers st) && negb (is_broken (Chat.failing st) c)
      then Chat.chat_messages P msgs (Chat.now_reads st) else [])%list).
Proof.
  induction msgs as [|msg rest IH]; intros st k Hnd; cbn [fold_left].
  - cbn. split; [lia|]. repeat split. intros c.
    destruct (_ && _); now rewrite app_nil_r.
  - rewrite on_data_run.
    set (st1 := Chat.mkService _ _ _ _).
    assert (Hnd1 : NoDup (Chat.subscribers st1)) by (now apply NoDup_filter).
    destruct (IH st1 (S k) Hnd1) as (Hk & Hf & Hs & Hd). clear IH.
    cbv zeta. split; [rewrite Hk; cbn [List.length]; lia|].
    split; [rewrite Hf; reflexivity|].
    split.
    + rewrite Hs. destruct rest; [reflexivity|].
      subst st1. cbn [Chat.subscribers Chat.failing].
      apply filter_healthy_idempotent.
    + intros c. rewrite Hd. subst st1.
      cbn [Chat.subscribers Chat.failing Chat.now_reads].
      rewrite delivered_app.
      rewrite delivered_copies by (now apply NoDup_filter).
      rewrite !has_filter_healthy, chat_messages_cons.
      replace (Chat.delivered c
                 (Chat.mkService
                    (filter (fun c0 => negb (is_broken (Chat.failing st) c0))
                            (Chat.subscribers st))
                    (Chat.failing st) (Chat.written st)
                    (snd (Chat.chat_message P msg (Chat.now_reads st)))))
        with (Chat.delivered c st) by reflexivity.
      destruct (Chat.has c (Chat.subscribers st));
        destruct (is_broken (Chat.failing st) c); cbn [andb negb];
        rewrite <- ?app_assoc; reflexivity.
Qed.

Lemma chat_message_reads msg reads :
  snd (Chat.chat_message P msg reads) =
  reads + (if Chat.unstamped msg then 1 else 0).
Proof.
  unfold Chat.chat_message, Chat.unstamped.
  destruct (Chat.m_timestamp msg) as [t|]; [destruct (0 <? t)%Z|];
    cbn [snd negb]; lia.
Qed.

Lemma chat_message_fields msg reads :
  let m := fst (Chat.chat_message P msg reads) in
  (forall u, Chat.m_user msg = Some u -> u <> EmptyString -> Chat.user m = u) /\
  (Chat.m_user msg = None \/ Chat.m_user msg = Some EmptyString ->
   Chat.user m = "anon") /\
  (forall x, Chat.m_text msg = Some x -> Chat.text m = x) /\
  (Chat.m_text msg = None -> Chat.text m = EmptyString) /\
  (forall t, Chat.m_timestamp msg = Some t -> (0 < t)%Z -> Chat.timestamp m = t) /\
  (Chat.m_timestamp msg = None \/
   (exists t, Chat.m_timestamp msg = Some t /\ (t <= 0)%Z) ->
   Chat.timestamp m = clock P reads).
Proof.
  cbv zeta.
  assert (Hu : Chat.user (fst (Chat.chat_message P msg reads)) =
               Js.str_or (Chat.m_user msg) "anon").
  { unfold Chat.chat_message.
    destruct (Chat.m_timestamp msg) as [t|]; [destruct (0 <? t)%Z|]; reflexivity. }
  assert (Hx : Chat.text (fst (Chat.chat_message P msg reads)) =
               Js.str_or (Chat.m_text msg) "").
  { unfold Chat.chat_message.
    destruct (Chat.m_timestamp msg) as [t|]; [destruct (0 <? t)%Z|]; reflexivity. }
  rewrite Hu, Hx. unfold Js.str_or.
  split; [|split; [|split; [|split; [|split]]]].
  - intros u -> Hne. destruct u; [now elim Hne | reflexivity].
  - intros [->| ->]; reflexivity.
  - intros x ->. now destruct x.
  - intros ->. reflexivity.
  - intros t Ht Hpos. unfold Chat.chat_message. rewrite Ht.
    apply Z.ltb_lt in Hpos. now rewrite Hpos.
  - intros [Ht|(t & Ht & Hle)]; unfold Chat.chat_message; rewrite Ht;
      [reflexivity|].
    assert (E : (0 <? t)%Z = false) by (apply Z.ltb_ge; exact Hle).
    now rewrite E.
Qed.

Lemma chat_messages_nth msgs : forall reads k msg m,
  nth_error msgs k = Some msg ->
  nth_error (Chat.chat_messages P msgs reads) k = Some m ->
  m = fst (Chat.chat_message P msg
             (reads + List.length (filter Chat.unstamped (firstn k msgs)))).
Proof.
  induction msgs as [|msg0 rest IH]; intros reads k msg m Hk Hm.
  - destruct k; discriminate.
  - rewrite chat_messages_cons in Hm. destruct k as [|k].
    + cbn in Hk, Hm. inversion Hk; subst msg0. inversion Hm.
      cbn [firstn filter List.length]. now rewrite Nat.add_0_r.
    + cbn [nth_error] in Hk, Hm.
      rewrite (IH _ k msg m Hk Hm), chat_message_reads.
      cbn [firstn filter].
      destruct (Chat.unstamped msg0); cbn [List.length]; f_equal; f_equal; lia.
Qed.

Lemma chat_messages_length msgs : forall reads,
  List.length (Chat.chat_messages P msgs reads) = List.length msgs.
Proof.
  induction msgs as [|msg rest IH]; intros reads; [reflexivity|].
  rewrite chat_messages_cons. cbn [List.length]. now rewrite IH.
Qed.

(** X29. [sendMessage] acknowledges with the number of messages the
    client stream delivered, whatever happened to the broadcasts. Every
    subscriber whose stream accepts writes was written one message for
    each of these, in the order of arrival: the [k]-th carries the user
    of the [k]-th arrival (['anon'] when it is missing or empty), its
    text (the empty text when it is missing) and its timestamp when
    that is positive, and otherwise the clock reading numbered by the
    earlier arrivals that needed one. Every other stream was written
    nothing, and from the first message on the subscribers whose write
    raised are subscribers no more. *)
Theorem sendMessage_counts_and_relays_in_order msgs st :
  NoDup (Chat.subscribers st) ->
  let ack := fst (Chat.sendMessage P msgs st) in
  let st' := snd (Chat.sendMessage P msgs st) in
  let needs_clock := fun msg =>
    match Chat.m_timestamp msg with
    | Some t => negb (0 <? t)%Z
    | None => true
    end in
  ack = Chat.mkAck true
          ("received=" ++ NilEmpty.string_of_uint (Nat.to_uint (List.length msgs))) /\
  exists sent,
    List.length sent = List.length msgs /\
    (forall k msg m,
       nth_error msgs k = Some msg -> nth_error sent k = Some m ->
       (forall u, Chat.m_user msg = Some u -> u <> EmptyString -> Chat.user m = u) /\
       (Chat.m_user msg = None \/ Chat.m_user msg = Some EmptyString ->
        Chat.user m = "anon") /\
       (forall x, Chat.m_text msg = Some x -> Chat.text m = x) /\
       (Chat.m_text msg = None -> Chat.text m = EmptyString) /\
       (forall t, Chat.m_timestamp msg = Some t -> (0 < t)%Z ->
                  Chat.timestamp m = t) /\
       (Chat.m_timestamp msg = None \/
        (exists t, Chat.m_timestamp msg = Some t /\ (t <= 0)%Z) ->
        Chat.timestamp m =
          clock P (Chat.now_reads st +
                   List.length (filter needs_clock (firstn k msgs))))) /\
    (forall c, In c (Chat.subscribers st) ->
               is_broken (Chat.failing st) c = false ->
               Chat.delivered c st' = (Chat.delivered c st ++ sent)%list /\
               In c (Chat.subscribers st')) /\
    (forall c, ~ In c (Chat.subscribers st) \/ is_broken (Chat.failing st) c = true ->
               Chat.delivered c st' = Chat.delivered c st) /\
    (msgs <> [] ->
     forall c, In c (Chat.subscribers st') <->
               In c (Chat.subscribers st) /\ is_broken (Chat.failing st) c = false).
Proof.
  intros Hnd ack st' needs_clock. subst ack st'. unfold Chat.sendMessage.
  destruct (on_data_fold msgs st 0 Hnd) as (Hk & Hf & Hs & Hd).
  destruct (fold_left (Chat.on_data P) msgs (st, 0)) as [st' k].
  cbn [fst snd] in *. subst k. cbn [Nat.add].
  split; [reflexivity|].
  exists (Chat.chat_messages P msgs (Chat.now_reads st)).
  split; [apply chat_messages_length|].
  split.
  { intros k msg m Hmsg Hm.
    rewrite (chat_messages_nth msgs _ k msg m Hmsg Hm).
    exact (chat_message_fields msg _). }
  split.
  { intros c Hin Hok. split.
    - rewrite Hd. apply chat_has_In in Hin. now rewrite Hin, Hok.
    - rewrite Hs. destruct msgs; [exact Hin|].
      apply filter_In. split; [exact Hin | now rewrite Hok]. }
  split.
  { intros c H. rewrite Hd.
    destruct (Chat.has c (Chat.subscribers st)) eqn:E.
    - destruct H as [H|H]; [apply chat_has_In in E; contradiction|].
      rewrite H. cbn [andb negb]. now rewrite app_nil_r.
    - cbn [andb]. now rewrite app_nil_r. }
  intros Hne c. rewrite Hs. destruct msgs as [|m0 rest]; [now elim Hne|].
  rewrite filter_In. split; intros [H1 H2]; (split; [exact H1|]).
  - now destruct (is_broken (Chat.failing st) c).
  - now rewrite H2.
Qed.

End ChatService.

(* ================================================================== *)
(** ** Error mapping of the example server *)
(* ================================================================== *)

(** X30. [mapError] always answers with an error that carries a
    numeric status code, and mapping twice is mapping once. A value
    that already carries a numeric code is returned as it is; any other
    value (also [null]) becomes an error whose details and message are
    the same non-empty text and whose code is INTERNAL unless its name
    is one of the five names [mapError] knows. *)
Theorem mapError_gives_numeric_code_and_is_idempotent err :
  (exists n, GrpcUtils.code (GrpcUtils.mapError err) = Some n) /\
  GrpcUtils.mapError (Some (GrpcUtils.mapError err)) = GrpcUtils.mapError err /\
  (forall e n, err = Some e -> GrpcUtils.code e = Some n ->
               GrpcUtils.mapError err = e) /\
  ((forall e, err = Some e -> GrpcUtils.code e = None) ->
   let r := GrpcUtils.mapError err in
   GrpcUtils.details r = Some (GrpcUtils.error_text err) /\
   GrpcUtils.message r = Some (GrpcUtils.error_text err) /\
   GrpcUtils.error_text err <> EmptyString /\
   ((forall e name, err = Some e -> GrpcUtils.name e = Some name ->
       ~ In name ["ValidationError"; "AuthError"; "PermissionError";
                  "NotFoundError"; "ConflictError"]) ->
    GrpcUtils.code r = Some GrpcUtils.INTERNAL)).
Proof.
  assert (Htext : GrpcUtils.error_text err <> EmptyString).
  { unfold GrpcUtils.error_text. destruct err as [e|]; [|discriminate].
    unfold Js.str_or. destruct (GrpcUtils.details e) as [[|a d]|];
      cbn; try discriminate;
      destruct (GrpcUtils.message e) as [[|b m]|]; cbn; discriminate. }
  assert (Hor : forall s, s <> EmptyString -> Js.str_or (Some s) "gRPC error" = s).
  { intros [|a s] H; [now elim H | reflexivity]. }
  assert (Hmapped : forall c,
    GrpcUtils.mapError (Some (GrpcUtils.grpcError c (Some (GrpcUtils.error_text err))))
    = GrpcUtils.grpcError c (Some (GrpcUtils.error_text err))) by reflexivity.
  destruct err as [[nm [c|] d m]|].
  - split; [now exists c|]. split; [reflexivity|].
    split; [intros e n H _; now inversion H|].
    intros H. specialize (H _ eq_refl). discriminate.
  - set (err := Some (GrpcUtils.mkJsError nm None d m)) in *.
    assert (Hcases : exists c,
      GrpcUtils.mapError err =
        GrpcUtils.grpcError c (Some (GrpcUtils.error_text err)) /\
      ((forall name, nm = Some name ->
          ~ In name ["ValidationError"; "AuthError"; "PermissionError";
                     "NotFoundError"; "ConflictError"]) ->
       c = GrpcUtils.INTERNAL)).
    { unfold GrpcUtils.mapError. subst err. cbn [GrpcUtils.name].
      destruct nm as [n|]; [|eexists; split; [reflexivity | reflexivity]].
      destruct (String.eqb_spec n "ValidationError") as [->|];
        [eexists; split; [reflexivity|];
         intros H; exfalso; apply (H _ eq_refl); simpl; tauto|].
      destruct (String.eqb_spec n "AuthError") as [->|];
        [eexists; split; [reflexivity|];
         intros H; exfalso; apply (H _ eq_refl); simpl; tauto|].
      destruct (String.eqb_spec n "PermissionError") as [->|];
        [eexists; split; [reflexivity|];
         intros H; exfalso; apply (H _ eq_refl); simpl; tauto|].
      destruct (String.eqb_spec n "NotFoundError") as [->|];
        [eexists; split; [reflexivity|];
         intros H; exfalso; apply (H _ eq_refl); simpl; tauto|].
      destruct (String.eqb_spec n "ConflictError") as [->|];
        [eexists; split; [reflexivity|];
         intros H; exfalso; apply (H _ eq_refl); simpl; tauto|].
      eexists; split; reflexivity. }
    destruct Hcases as (c & Hc & Hint). rewrite Hc.
    split; [now exists c|]. split; [apply Hmapped|].
    split; [intros e n H H'; inversion H; subst e; discriminate|].
    intros _. cbv zeta. unfold GrpcUtils.grpcError.
    cbn [GrpcUtils.details GrpcUtils.message GrpcUtils.code].
    rewrite (Hor _ Htext). repeat split; [exact Htext|].
    intros H. f_equal. apply Hint. intros name Hn.
    apply (H (GrpcUtils.mkJsError nm None d m) name eq_refl Hn).
  - split; [eexists; reflexivity|]. split; [reflexivity|].
    split; [intros e n H; discriminate|].
    intros _. cbv zeta. repeat split. discriminate.
Qed.

(* ================================================================== *)
(** ** Instances on concrete worlds *)
(* ================================================================== *)

Ltac distinct_keys :=
  repeat (apply NoDup_cons; [simpl; intuition discriminate|]); apply NoDup_nil.

Lemma two_tasks_wf : JsMap.wf (tasks (dataStore two_tasks)).
Proof. unfold JsMap.wf. vm_compute. distinct_keys. Defined.

Lemma two_tasks_consistent : store_consistent (dataStore two_tasks).
Proof.
  split; [exact two_tasks_wf|].
  vm_compute. intros k t [E|[E|[]]]; inversion E; reflexivity.
Defined.

Lemma admin_authorized {R : Type} (c : nat) (req : R) :
  authenticateCall demo (authorized c req) = Some admin_payload.
Proof. reflexivity. Defined.

(** A third task goes last in a store of two. *)
Lemma createTask_fresh_id_appends_witness :
  JsMap.get (uuidv4 demo (uuid_draws two_tasks)) (tasks (dataStore two_tasks)) = None /\
  exists t,
    JsMap.values
      (tasks (dataStore (after (createTask demo (sample_data "Task 2")) two_tasks))) =
    (JsMap.values (tasks (dataStore two_tasks)) ++ [t])%list.
Proof.
  assert (H : JsMap.get (uuidv4 demo (uuid_draws two_tasks))
                (tasks (dataStore two_tasks)) = None)
    by (vm_compute; reflexivity).
  split; [exact H|].
  pose proof (createTask_fresh_id_appends demo (sample_data "Task 2") two_tasks H)
    as X.
  cbv zeta in X. destruct X as (t & _ & Hv & _).
  exists t. exact Hv.
Defined.

(** Deleting the first of two tasks leaves the second. *)
Lemma deleteTask_removes_only_that_record_witness :
  JsMap.wf (tasks (dataStore two_tasks)) /\
  getTask (uuid_of_nat 0) (dataStore two_tasks) = Some task_zero /\
  getTask (uuid_of_nat 0)
    (dataStore (snd (deleteTask demo (uuid_of_nat 0) two_tasks))) = None.
Proof.
  assert (H : getTask (uuid_of_nat 0) (dataStore two_tasks) = Some task_zero)
    by (vm_compute; reflexivity).
  split; [exact two_tasks_wf|]. split; [exact H|].
  exact (proj1 (deleteTask_removes_only_that_record demo (uuid_of_nat 0) two_tasks
                  task_zero two_tasks_wf H)).
Defined.

(** A [CreateTask] on a store of two tasks leaves a consistent store. *)
Lemma step_keeps_store_consistent_witness :
  step demo two_tasks (after (CreateTask demo (authorized 1 create_request)) two_tasks) /\
  store_consistent
    (dataStore (after (CreateTask demo (authorized 1 create_request)) two_tasks)).
Proof.
  assert (H : step demo two_tasks
                (after (CreateTask demo (authorized 1 create_request)) two_tasks))
    by apply step_CreateTask.
  split; [exact H|].
  exact (proj1 (step_keeps_store_consistent demo _ _ H) two_tasks_consistent).
Defined.

(** The first task is on the page of the pending tasks, and pending. *)
Lemma listTasks_page_records_pass_filters_witness :
  In task_zero (resp_tasks (listTasks pending_first_page (dataStore two_tasks))) /\
  passes_filters pending_first_page task_zero.
Proof.
  assert (H : In task_zero
                (resp_tasks (listTasks pending_first_page (dataStore two_tasks))))
    by (vm_compute; auto).
  split; [exact H|].
  exact (proj2 (listTasks_page_records_pass_filters pending_first_page
                  (dataStore two_tasks) task_zero H)).
Defined.

(** Two pages of one record each are the whole listing of two tasks. *)
Lemma listTasks_pages_partition_witness :
  (0 < f_page_size one_per_page)%Z /\
  List.concat
    (map (fun p => resp_tasks
                     (listTasks (on_page one_per_page (Z.of_nat p)) (dataStore two_tasks)))
         (seq 1 2)) =
  sort_by_created_desc
    (apply_filters one_per_page (JsMap.values (tasks (dataStore two_tasks)))).
Proof.
  assert (H : (0 < f_page_size one_per_page)%Z) by reflexivity.
  split; [exact H|].
  pose proof (listTasks_pages_partition one_per_page (dataStore two_tasks) 2 H) as X.
  cbv zeta in X. destruct X as (_ & _ & X & _).
  apply X. vm_compute. apply le_n.
Defined.

Lemma listTasks_page_has_no_duplicates_witness :
  store_consistent (dataStore two_tasks) /\
  NoDup (map id (resp_tasks (listTasks first_page (dataStore two_tasks)))).
Proof.
  split; [exact two_tasks_consistent|].
  exact (listTasks_page_has_no_duplicates first_page (dataStore two_tasks)
           two_tasks_consistent).
Defined.

(** A subscription without metadata is ended and nothing else. *)
Lemma SubscribeTaskUpdates_rejects_unauthenticated_witness :
  rejected demo (anonymous 1 subscribe_all) /\
  SubscribeTaskUpdates demo (anonymous 1 subscribe_all) two_tasks =
    (Returned tt, with_ended 1 authentication_required two_tasks).
Proof.
  assert (H : rejected demo (anonymous 1 subscribe_all))
    by (left; left; reflexivity).
  split; [exact H|].
  exact (proj1 (SubscribeTaskUpdates_rejects_unauthenticated demo
                  (anonymous 1 subscribe_all) two_tasks H eq_refl)).
Defined.

Lemma CreateTask_requires_title_and_description_witness :
  authenticateCall demo (authorized 1 untitled_request) = Some admin_payload /\
  exists e,
    CreateTask demo (authorized 1 untitled_request) two_tasks =
      (Returned (Err e), two_tasks) /\
    code e = INVALID_ARGUMENT.
Proof.
  split; [apply admin_authorized|].
  apply (CreateTask_requires_title_and_description demo
           (authorized 1 untitled_request) two_tasks admin_payload
           (admin_authorized 1 untitled_request)).
  left. right. reflexivity.
Defined.

(** The first task, once deleted, is not found by a second deletion. *)
Lemma DeleteTask_then_not_found_witness :
  getTask (uuid_of_nat 0) (dataStore two_tasks) = Some task_zero /\
  let w' := after (DeleteTask demo (authorized 1 delete_task_zero)) two_tasks in
  DeleteTask demo (authorized 1 delete_task_zero) w' =
    (Returned (Err task_not_found), w').
Proof.
  assert (H : getTask (dr_id (request (authorized 1 delete_task_zero)))
                (dataStore two_tasks) = Some task_zero)
    by (vm_compute; reflexivity).
  split; [exact H|].
  exact (proj1 (proj2 (proj2
           (DeleteTask_then_not_found demo (authorized 1 delete_task_zero)
              two_tasks admin_payload task_zero
              (admin_authorized 1 delete_task_zero) two_tasks_wf eq_refl H)))).
Defined.

(** A store of two tasks with no subscriber is a world of the server;
    no [CreateTask] on it answers INTERNAL. *)
Lemma handlers_never_reply_internal_witness :
  reachable demo two_tasks /\
  forall call e,
    fst (CreateTask demo call two_tasks) = Returned (Err e) -> code e <> INTERNAL.
Proof.
  assert (H : reachable demo two_tasks) by (apply reachable_start; reflexivity).
  split; [exact H|].
  exact (proj1 (proj2 (proj2 (proj2 (proj2 (proj2
           (handlers_never_reply_internal demo two_tasks H))))))).
Defined.

(** A request that names no assignee yields a task of the caller. *)
Lemma CreateTask_assigns_to_caller_by_default_witness :
  let t := created_task demo
             (mkTaskData "Write report" "Quarterly numbers" PENDING MEDIUM
                         (user_id admin_payload) None []) two_tasks in
  let w' := snd (CreateTask demo (authorized 1 create_request) two_tasks) in
  CreateTask demo (authorized 1 create_request) two_tasks = (Returned (Ok t), w') /\
  assignee_id t = user_id admin_payload.
Proof.
  intros t w'.
  assert (H : CreateTask demo (authorized 1 create_request) two_tasks =
              (Returned (Ok t), w')) by (vm_compute; reflexivity).
  split; [exact H|].
  exact (proj1 (CreateTask_assigns_to_caller_by_default demo
                  (authorized 1 create_request) two_tasks admin_payload t w'
                  (admin_authorized 1 create_request) H)).
Defined.

(** The one unfiltered session sees a task created, changed and
    deleted, in that order. *)
Lemma session_receives_each_event_once_in_order_witness :
  (forall task_id,
     subscriptions_of (taskUpdateSubscribers (dataStore one_session)) 1 task_id = 1) /\
  received 1 (mutate_all demo short_life one_session) =
    (received 1 one_session ++ events_of demo short_life one_session)%list.
Proof.
  assert (H : forall task_id,
             subscriptions_of (taskUpdateSubscribers (dataStore one_session)) 1
               task_id = 1) by (intros task_id; reflexivity).
  split; [exact H|].
  exact (session_receives_each_event_once_in_order demo 1 short_life one_session
           eq_refl eq_refl H).
Defined.

(** A session that listed the first task receives its change. *)
Lemma filtered_stream_receives_only_listed_tasks_witness :
  In task_zero_retitled (received 1 (mutate_all demo retitle_both one_listed_session)) /\
  (In task_zero_retitled (received 1 one_listed_session) \/
   In (id (task task_zero_retitled)) [uuid_of_nat 0]).
Proof.
  assert (H : In task_zero_retitled
                (received 1 (mutate_all demo retitle_both one_listed_session)))
    by (vm_compute; auto).
  split; [exact H|].
  apply (filtered_stream_receives_only_listed_tasks demo
           (user_id admin_payload) [uuid_of_nat 0] 1 retitle_both
           one_listed_session task_zero_retitled).
  - reflexivity.
  - intros x [<-|[]]. reflexivity.
  - intros x [<-|[]]. reflexivity.
  - intros key (subscribers & cb & Hin & _).
    vm_compute in Hin. destruct Hin as [E|[]]. inversion E. reflexivity.
  - exact H.
Defined.

Lemma subscription_key_matches_as_requested_witness :
  Js.includes_char ":" "admin" = false /\
  key_matches (subscription_key "admin" (Some [uuid_of_nat 0])) (uuid_of_nat 0) = true.
Proof.
  assert (H : Js.includes_char ":" "admin" = false) by reflexivity.
  split; [exact H|].
  apply (proj2 (subscription_key_matches_as_requested "admin" [uuid_of_nat 0]
                  (uuid_of_nat 0) H
                  (fun x Hx =>
                     match Hx with
                     | or_introl E =>
                         eq_ind (uuid_of_nat 0)
                           (fun y => Js.truthy y = true /\
                                     Js.includes_char ":" y = false /\
                                     Js.includes_char "," y = false)
                           (conj eq_refl (conj eq_refl eq_refl)) x E
                     | or_intror F => match F with end
                     end))).
  now left.
Defined.

(** A session of the administrator is gone once its call is cancelled. *)
Lemma session_unregistered_on_event_witness :
  authenticateCall demo (authorized 1 subscribe_all) = Some admin_payload /\
  ~ registered (subscription_key (user_id admin_payload) None) (SessionSink 1)
      (taskUpdateSubscribers
         (dataStore
            (after (fire 1 ev_cancelled)
               (after (SubscribeTaskUpdates demo (authorized 1 subscribe_all))
                  two_tasks)))).
Proof.
  split; [apply admin_authorized|].
  apply (session_unregistered_on_event demo (authorized 1 subscribe_all) two_tasks
           admin_payload ev_cancelled (admin_authorized 1 subscribe_all)
           eq_refl eq_refl).
  apply NoDup_nil.
Defined.

(** A session opened on a broken stream leaves no subscription. *)
Lemma SubscribeTaskUpdates_failed_open_unregisters_witness :
  is_broken (broken (break_stream 1 two_tasks)) 1 = true /\
  ~ registered (subscription_key (user_id admin_payload) None) (SessionSink 1)
      (taskUpdateSubscribers
         (dataStore
            (after (SubscribeTaskUpdates demo (authorized 1 subscribe_all))
               (break_stream 1 two_tasks)))).
Proof.
  assert (H : is_broken (broken (break_stream 1 two_tasks)) 1 = true) by reflexivity.
  split; [exact H|].
  pose proof (SubscribeTaskUpdates_failed_open_unregisters demo
                (authorized 1 subscribe_all) (break_stream 1 two_tasks)
                admin_payload (admin_authorized 1 subscribe_all) H
                (NoDup_nil _)) as X.
  cbv zeta in X. exact (proj1 (proj2 X)).
Defined.

Lemma bearer_token_round_trip_witness :
  metadata_get "authorization" (metadata (authorized 1 tt)) = ["Bearer admin.jwt"] /\
  extractTokenFromMetadata (metadata (authorized 1 tt)) = Some "admin.jwt".
Proof.
  split; [reflexivity|].
  exact (proj1 (bearer_token_round_trip demo (authorized 1 tt) "admin.jwt" []
                  eq_refl)).
Defined.

(** A second user called alice does not change whom the name finds. *)
Lemma getUserByUsername_earliest_user_wins_witness :
  JsMap.get (uuidv4 demo (uuid_draws (Accounts.world one_user)))
    (Accounts.users one_user) = None /\
  exists user,
    Accounts.getUserByUsername "alice" one_user = Some user /\
    Accounts.getUserByUsername "alice"
      (snd (Accounts.createUser demo impostor one_user)) = Some user.
Proof.
  assert (H : JsMap.get (uuidv4 demo (uuid_draws (Accounts.world one_user)))
                (Accounts.users one_user) = None) by (vm_compute; reflexivity).
  split; [exact H|].
  eexists. split; [reflexivity|].
  apply (proj1 (getUserByUsername_earliest_user_wins demo impostor one_user
                  "alice" H)).
  reflexivity.
Defined.

Lemma CreateUser_keeps_usernames_unique_witness :
  Accounts.usernames_unique no_users /\
  Accounts.usernames_unique
    (snd (Accounts.CreateUser demo demo_libs register_alice no_users)).
Proof.
  assert (H : Accounts.usernames_unique no_users) by apply NoDup_nil.
  split; [exact H|].
  exact (proj1 (CreateUser_keeps_usernames_unique demo demo_libs register_alice
                  no_users H eq_refl)).
Defined.

(** Two registrations of alice that both check before either stores. *)
Lemma CreateUser_interleaved_duplicates_username_witness :
  Accounts.CreateUser_check register_alice no_users = inr alice /\
  Accounts.CreateUser_check register_alice_again no_users = inr second_alice /\
  exists first second,
    JsMap.values
      (Accounts.users
         (snd (Accounts.CreateUser_store demo demo_libs second_alice
                 (snd (Accounts.CreateUser_store demo demo_libs alice no_users))))) =
    [first; second] /\
    Accounts.s_username first = "alice" /\ Accounts.s_username second = "alice".
Proof.
  split; [reflexivity|]. split; [reflexivity|].
  assert (Hne : uuidv4 demo (S (uuid_draws (Accounts.world no_users))) <>
                uuidv4 demo (uuid_draws (Accounts.world no_users)))
    by (vm_compute; discriminate).
  pose proof (CreateUser_interleaved_duplicates_username demo demo_libs
                register_alice register_alice_again no_users alice second_alice
                eq_refl eq_refl eq_refl eq_refl eq_refl Hne) as X.
  cbv zeta in X. destruct X as (first & second & _ & _ & Hv & H1 & H2 & _).
  exists first, second. split; [exact Hv|]. split; [exact H1 | exact H2].
Defined.

(** alice registers with a password and logs in with it. *)
Lemma CreateUser_then_Login_witness :
  fst (Accounts.CreateUser demo demo_libs register_alice no_users) =
    Accounts.Ok alice_user /\
  exists response,
    fst (Accounts.Login demo_libs
           (Accounts.mkLoginRequest (Some "alice") (Some "secret")) one_user) =
      Accounts.Ok response /\
    Accounts.access_token response = "access." ++ uuid_of_nat 0.
Proof.
  assert (H : fst (Accounts.CreateUser demo demo_libs register_alice no_users) =
              Accounts.Ok alice_user) by reflexivity.
  split; [exact H|].
  pose proof (CreateUser_then_Login demo demo_libs register_alice no_users
                alice_user "secret" eq_refl H eq_refl) as X.
  cbv zeta in X. destruct X as (registered & hashed & Hp & Hh & Hok & _).
  apply Hok. rewrite Hh.
  assert (E : registered = "secret") by (cbn in Hp; congruence).
  rewrite E. reflexivity.
Defined.

Lemma receiveMessages_subscribes_once_until_cleanup_witness :
  NoDup (Chat.subscribers chat_room) /\
  Chat.delivered 4
    (Chat.broadcast greeting (Chat.receiveMessages 4 (Chat.receiveMessages 4 chat_room))) =
  [greeting].
Proof.
  assert (H : NoDup (Chat.subscribers chat_room)).
  { repeat (apply NoDup_cons; [simpl; intuition discriminate|]). apply NoDup_nil. }
  split; [exact H|].
  pose proof (receiveMessages_subscribes_once_until_cleanup 4 greeting chat_room H)
    as (_ & _ & _ & Hsame & Hone & _).
  rewrite Hsame. exact (Hone eq_refl).
Defined.

(** Two messages are acknowledged as two, whoever failed to get them. *)
Lemma sendMessage_counts_and_relays_in_order_witness :
  NoDup (Chat.subscribers chat_room) /\
  fst (Chat.sendMessage demo two_lines chat_room) = Chat.mkAck true "received=2".
Proof.
  assert (H : NoDup (Chat.subscribers chat_room)).
  { repeat (apply NoDup_cons; [simpl; intuition discriminate|]). apply NoDup_nil. }
  split; [exact H|].
  exact (proj1 (sendMessage_counts_and_relays_in_order demo two_lines chat_room H)).
Defined.
